(** * Ephemeral preview sessions: a model of the preview manager,
      the provisioning pipeline and the proxy resolver

    The development embeds three Python modules of the server:

    - [preview_manager.py]: the registry of previews, guarded by one
      [threading.Lock], with lazy expiry, teardown and explicit stop;
    - [preview_server.py]: archive extraction, dependency install, build,
      choice of the directory the static server is rooted at, provisioning;
    - [main.py]: the [/preview/{token}/{file_path}] endpoint: choice of the
      serving root, entry page lookup, reference rewriting by two regular
      expression substitutions, the traversal guard and the fallback to the
      session root.

    Conventions of the model.
    - A Python [str] is a [string], the bytes of its UTF-8 text; page
      contents that go through [re.sub] are handled as [list ascii]. The
      characters the code tests for are all ASCII.
    - A [pathlib.Path] is the list of its components below the root [/].
      Symbolic links are left out: a node of the disk is a file or a
      directory, and [Path.resolve] is then the lexical elimination of
      [..].
    - The file system is a partial map from canonical paths to nodes and
      [Path.exists], [is_file], [is_dir] walk it component by component, the
      way the operating system resolves a name.
    - [time.time()] is an integer clock: only the order of time stamps and
      the fixed offset of ten minutes matter.
    - Code that takes the registry lock is a command tree run with fuel; a
      thread that acquires a lock that is held waits, and the run then
      yields no result whatever the fuel. [run] runs a thread alone,
      [run_among] runs it with the steps of other threads in between. *)

From stdpp Require Import gmap strings list.
From Stdlib Require Import ZArith Ascii.
From Stdlib Require String.

Local Open Scope Z_scope.

(** ** Strings *)

(** The double quote and the single quote, by their codes. *)
Definition dquote : ascii := "034"%char.
Definition squote : ascii := "039"%char.
Definition DQ : string := String dquote EmptyString.

(** [str.startswith(prefix)]. *)
Fixpoint startswith (s pre : string) : bool :=
  match pre, s with
  | EmptyString, _ => true
  | String a pre', String b s' => Ascii.eqb a b && startswith s' pre'
  | String _ _, EmptyString => false
  end.

(** [str.lstrip("/")]: every leading slash is removed. *)
Fixpoint lstrip_slash (s : string) : string :=
  match s with
  | String c s' => if Ascii.eqb c "/" then lstrip_slash s' else s
  | EmptyString => EmptyString
  end.

(** [str.split("/")]. *)
Fixpoint split_slash (s : string) : list string :=
  match s with
  | EmptyString => [EmptyString]
  | String c s' =>
      if Ascii.eqb c "/" then EmptyString :: split_slash s'
      else match split_slash s' with
           | w :: ws => String c w :: ws
           | [] => [String c EmptyString]
           end
  end.

(** ** Paths *)

(** A [pathlib.Path] below the root: its components, outermost first. *)
Definition Path : Type := list string.

(** The components [pathlib] keeps when it parses a string: empty
    components and [.] are dropped, [..] is kept. *)
Definition keep_part (c : string) : bool :=
  negb (String.eqb c "") && negb (String.eqb c ".").

Definition parse_parts (s : string) : Path := List.filter keep_part (split_slash s).

(** [p / s]: an absolute [s] replaces [p], a relative one is appended. *)
Definition joinpath (p : Path) (s : string) : Path :=
  if startswith s "/" then parse_parts s else p ++ parse_parts s.

Infix "//" := joinpath (at level 40, left associativity).

(** One component of a walk from the root: [..] goes to the parent (the
    parent of the root is the root), any other name goes down. *)
Definition step (cur : Path) (c : string) : Path :=
  if String.eqb c ".." then removelast cur else cur ++ [c].

(** [Path.resolve()] on a tree without symbolic links. *)
Definition resolve (p : Path) : Path := fold_left step p [].

(** [a.relative_to(b)]: the rest of [a] below [b], or [ValueError]. *)
Fixpoint relative_to (a b : Path) {struct b} : option Path :=
  match b, a with
  | [], _ => Some a
  | y :: b', x :: a' => if String.eqb x y then relative_to a' b' else None
  | _ :: _, [] => None
  end.

(** [Path.suffix]: the last component from its last dot on, when that dot
    is neither its first nor its last character. *)
Fixpoint rfind_dot (s : string) : option string :=
  match s with
  | EmptyString => None
  | String c s' =>
      match rfind_dot s' with
      | Some r => Some r
      | None => if Ascii.eqb c "." then Some s else None
      end
  end.

Definition name_suffix (name : string) : string :=
  match name with
  | EmptyString => ""
  | String c rest =>
      match rfind_dot rest with
      | Some (String d (String e r)) => String d (String e r)
      | _ => ""
      end
  end.

Definition suffix (p : Path) : string :=
  match last p with
  | Some name => name_suffix name
  | None => ""
  end.

(** [str.lower()] on the ASCII letters. *)
Definition lower_ascii (c : ascii) : ascii :=
  let n := nat_of_ascii c in
  if (Nat.leb 65 n && Nat.leb n 90)%bool then ascii_of_nat (n + 32) else c.

Fixpoint lower (s : string) : string :=
  match s with
  | EmptyString => EmptyString
  | String c s' => String (lower_ascii c) (lower s')
  end.

(** ** The file system *)

Inductive node : Type :=
  | File (content : string)
  | Dir.

Definition filesystem : Type := Path -> option node.

(** The canonical path a name denotes, when every directory on the way
    exists: the operating system walks the components one at a time. *)
Fixpoint walk (fs : filesystem) (cur rest : Path) : option Path :=
  match rest with
  | [] => Some cur
  | c :: rest' =>
      match fs cur with
      | Some Dir => walk fs (step cur c) rest'
      | _ => None
      end
  end.

Definition stat (fs : filesystem) (p : Path) : option node :=
  match walk fs [] p with
  | Some q => fs q
  | None => None
  end.

Definition path_exists (fs : filesystem) (p : Path) : bool :=
  match stat fs p with Some _ => true | None => false end.

Definition is_file (fs : filesystem) (p : Path) : bool :=
  match stat fs p with Some (File _) => true | _ => false end.

Definition is_dir (fs : filesystem) (p : Path) : bool :=
  match stat fs p with Some Dir => true | _ => false end.

(** The content of a file as it is stored, byte for byte; [None] when
    [p] is not a file. *)
Definition read_text (fs : filesystem) (p : Path) : option string :=
  match stat fs p with Some (File c) => Some c | _ => None end.

(** Text is kept as its UTF-8 bytes. The patterns and the tests of the
    endpoint are made of ASCII characters only, so on the bytes they find
    what they find on the characters. *)

Definition byte_in (lo hi : nat) (c : ascii) : bool :=
  (Nat.leb lo (nat_of_ascii c) && Nat.leb (nat_of_ascii c) hi)%bool.

(** The second byte of a sequence of three or four: no overlong form, no
    surrogate, nothing above U+10FFFF. *)
Definition second_byte (c0 c1 : ascii) : bool :=
  let n0 := nat_of_ascii c0 in
  if Nat.eqb n0 224 then byte_in 160 191 c1
  else if Nat.eqb n0 237 then byte_in 128 159 c1
  else if Nat.eqb n0 240 then byte_in 144 191 c1
  else if Nat.eqb n0 244 then byte_in 128 143 c1
  else byte_in 128 191 c1.

(** The bytes [bytes.decode('utf-8')] takes; on any other it raises
    [UnicodeDecodeError]. *)
Fixpoint utf8_valid (s : string) : bool :=
  match s with
  | EmptyString => true
  | String c0 rest =>
      if byte_in 0 127 c0 then utf8_valid rest
      else if byte_in 194 223 c0 then
        match rest with
        | String c1 rest1 => byte_in 128 191 c1 && utf8_valid rest1
        | _ => false
        end
      else if byte_in 224 239 c0 then
        match rest with
        | String c1 (String c2 rest2) =>
            second_byte c0 c1 && byte_in 128 191 c2 && utf8_valid rest2
        | _ => false
        end
      else if byte_in 240 244 c0 then
        match rest with
        | String c1 (String c2 (String c3 rest3)) =>
            second_byte c0 c1 && byte_in 128 191 c2 && byte_in 128 191 c3
            && utf8_valid rest3
        | _ => false
        end
      else false
  end.

(** The universal newlines of a file opened for reading as text: [\r\n]
    and a lone [\r] become [\n]. *)
Fixpoint translate_newlines (s : string) : string :=
  match s with
  | EmptyString => EmptyString
  | String c rest =>
      if Ascii.eqb c "013" then
        match rest with
        | String c' rest' =>
            if Ascii.eqb c' "010" then String "010" (translate_newlines rest')
            else String "010" (translate_newlines rest)
        | EmptyString => String "010" EmptyString
        end
      else String c (translate_newlines rest)
  end.

(** What reading the bytes [s] as UTF-8 text gives; [None] stands for
    [UnicodeDecodeError]. *)
Definition decode_text (s : string) : option string :=
  if utf8_valid s then Some (translate_newlines s) else None.

(** [Path.read_text(encoding='utf-8')]; [None] stands for the exception:
    there is no such file, or its bytes are not UTF-8. *)
Definition read_text_utf8 (fs : filesystem) (p : Path) : option string :=
  match read_text fs p with
  | Some c => decode_text c
  | None => None
  end.

Definition path_eqb (a b : Path) : bool := bool_decide (a = b).

(** [b] is [a] or an ancestor of [a]. *)
Definition is_under (a b : Path) : bool :=
  match relative_to a b with Some _ => true | None => false end.

(** ** The registry and its lock ([preview_manager.py]) *)

Definition PREVIEW_BASE_DIR : Path := ["tmp"; "previews"].
Definition PREVIEW_DURATION_MINUTES : Z := 10.

(** One entry of [self.previews]: [process] names the [Popen] object. *)
Record Preview : Type := mkPreview {
  path : Path;
  port : Z;
  process : nat;
  expires_at : Z;
  created_at : Z
}.

(** What the manager's methods read and change: the dictionary, whether
    [self.lock] is held, the disk and the processes that are running. *)
Record State : Type := mkState {
  previews : gmap string Preview;
  lock : bool;
  disk : filesystem;
  alive : gset nat
}.

Definition set_previews (m : gmap string Preview) (st : State) : State :=
  mkState m (lock st) (disk st) (alive st).
Definition set_lock (b : bool) (st : State) : State :=
  mkState (previews st) b (disk st) (alive st).
Definition set_disk (d : filesystem) (st : State) : State :=
  mkState (previews st) (lock st) d (alive st).
Definition set_alive (a : gset nat) (st : State) : State :=
  mkState (previews st) (lock st) (disk st) a.

(** Commands of one thread. [Acquire] is [self.lock.acquire()] of a
    [threading.Lock], which is not reentrant; [Do] is any step that does
    not wait. *)
Inductive prog (A : Type) : Type :=
  | Ret (a : A)
  | Acquire (k : prog A)
  | Release (k : prog A)
  | Do (B : Type) (f : State -> B * State) (k : B -> prog A).

Arguments Ret {A} a.
Arguments Acquire {A} k.
Arguments Release {A} k.
Arguments Do {A B} f k.

Fixpoint bind {A B : Type} (p : prog A) (f : A -> prog B) : prog B :=
  match p with
  | Ret a => f a
  | Acquire k => Acquire (bind k f)
  | Release k => Release (bind k f)
  | Do g k => Do g (fun b => bind (k b) f)
  end.

Notation "x <- p ;; q" := (bind p (fun x => q))
  (at level 100, p at next level, right associativity).
Notation "p ;; q" := (bind p (fun _ => q))
  (at level 100, right associativity).

Definition get {B : Type} (f : State -> B) : prog B :=
  Do (fun st => (f st, st)) Ret.
Definition modify (f : State -> State) : prog unit :=
  Do (fun st => (tt, f st)) Ret.

(** Running a thread alone. An [Acquire] of a lock that is held makes no
    progress: the thread tries again, and nobody else releases the lock. *)
Fixpoint run {A : Type} (fuel : nat) (p : prog A) (st : State) : option (A * State) :=
  match fuel with
  | O => None
  | S n =>
      match p with
      | Ret a => Some (a, st)
      | Acquire k =>
          if lock st then run n (Acquire k) st
          else run n k (set_lock true st)
      | Release k => run n k (set_lock false st)
      | Do f k => let '(b, st') := f st in run n (k b) st'
      end
  end.

(** The call returns [a] in state [st']. *)
Definition returns {A : Type} (p : prog A) (st : State) (a : A) (st' : State) : Prop :=
  exists n, run n p st = Some (a, st').

(** The call never returns. *)
Definition hangs {A : Type} (p : prog A) (st : State) : Prop :=
  forall n, run n p st = None.

(** Running a thread among others: before each of its steps the other
    threads change the state by [env]. *)
Fixpoint run_among {A : Type} (env : nat -> State -> State) (fuel : nat)
    (p : prog A) (st : State) : option (A * State) :=
  match fuel with
  | O => None
  | S n =>
      let st := env n st in
      match p with
      | Ret a => Some (a, st)
      | Acquire k =>
          if lock st then run_among env n (Acquire k) st
          else run_among env n k (set_lock true st)
      | Release k => run_among env n k (set_lock false st)
      | Do f k => let '(b, st') := f st in run_among env n (k b) st'
      end
  end.

(** What the other threads of the manager do while this thread holds the
    lock: they do not release it (each releases only what it acquired,
    through [with self.lock:]) and they leave the dictionary alone (it is
    written under the lock only). *)
Definition respects_lock (env : nat -> State -> State) : Prop :=
  forall i st, lock st = true ->
               lock (env i st) = true /\ previews (env i st) = previews st.

(** [shutil.rmtree(d, ignore_errors=True)]: [d] and all below it go. *)
Definition rmtree (d : Path) (fs : filesystem) : filesystem :=
  fun p => if is_under p (resolve d) then None else fs p.

(** [_remove_preview]: the entry is read without the lock, the process is
    terminated (killed if it does not stop in time), the directory is
    deleted, and the [finally] clause takes the lock to pop the entry. *)
Definition _remove_preview (token : string) : prog unit :=
  preview <- get (fun st => previews st !! token) ;;
  match preview with
  | None => Ret tt
  | Some pv =>
      modify (fun st => set_alive (alive st ∖ {[process pv]}) st) ;;
      modify (fun st =>
        if path_exists (disk st) (path pv)
        then set_disk (rmtree (path pv) (disk st)) st else st) ;;
      Acquire (
        modify (fun st => set_previews (delete token (previews st)) st) ;;
        Release (Ret tt))
  end.

(** [get_preview] at clock reading [now]: everything below [Acquire] runs
    inside [with self.lock:], and each way out of the block releases. *)
Definition get_preview (token : string) (now : Z) : prog (option Preview) :=
  Acquire (
    preview <- get (fun st => previews st !! token) ;;
    match preview with
    | Some pv =>
        if now <? expires_at pv then Release (Ret (Some pv))
        else _remove_preview token ;; Release (Ret None)
    | None => Release (Ret None)
    end).

(** [register_preview]: both readings of the clock give [now]. *)
Definition register_preview (token : string) (preview_dir : Path) (port : Z)
    (process : nat) (now : Z) : prog unit :=
  let expires_at := now + PREVIEW_DURATION_MINUTES * 60 in
  Acquire (
    modify (fun st =>
      set_previews (<[token := mkPreview preview_dir port process expires_at now]>
                      (previews st)) st) ;;
    Release (Ret tt)).

Fixpoint for_each {A : Type} (l : list A) (body : A -> prog unit) : prog unit :=
  match l with
  | [] => Ret tt
  | x :: l' => body x ;; for_each l' body
  end.

(** [cleanup_expired], the sweep of the background thread. *)
Definition cleanup_expired (current_time : Z) : prog unit :=
  expired_tokens <-
    Acquire (
      ts <- get (fun st =>
        (List.filter (fun kv => expires_at (snd kv) <=? current_time)
                     (map_to_list (previews st))).*1) ;;
      Release (Ret ts)) ;;
  for_each expired_tokens _remove_preview.

(** [stop_preview]. *)
Definition stop_preview (token : string) (now : Z) : prog bool :=
  preview <- get_preview token now ;;
  match preview with
  | Some _ => _remove_preview token ;; Ret true
  | None => Ret false
  end.

(** The disk with node [n] at [p]. *)
Definition update (fs : filesystem) (p : Path) (n : node) : filesystem :=
  fun q => if path_eqb q p then Some n else fs q.

(** [os.makedirs] and [Path.mkdir(parents=True, exist_ok=True)] on a
    canonical path: missing directories are created from the top; a file
    on the way raises ([false]) and what was created before it stays. *)
Fixpoint makedirs_from (cur rest : Path) (fs : filesystem) : bool * filesystem :=
  match rest with
  | [] => (true, fs)
  | c :: rest' =>
      let cur' := cur ++ [c] in
      match fs cur' with
      | Some Dir => makedirs_from cur' rest' fs
      | Some (File _) => (false, fs)
      | None => makedirs_from cur' rest' (update fs cur' Dir)
      end
  end.

Definition makedirs (p : Path) (fs : filesystem) : bool * filesystem :=
  makedirs_from [] p fs.

(** The path [create_preview_directory] returns: tokens are [uuid4]
    strings, one path component each. Its [mkdir] is the first step of
    [create_preview] below. *)
Definition create_preview_directory (token : string) : Path :=
  PREVIEW_BASE_DIR ++ [token].

(** ** Regular expressions, the way [re] runs them ([main.py]) *)

(** The two patterns of the endpoint are sequences of literals and of
    character classes, single or repeated greedily, in three groups. *)
Inductive atom : Type :=
  | Lit (l : list ascii)
  | One (c : ascii -> bool)
  | Plus (c : ascii -> bool)
  | Star (c : ascii -> bool).

Definition pattern : Type := list (list atom).

Definition lit (s : string) : list ascii := String.list_ascii_of_string s.

Fixpoint strip_lit (l s : list ascii) : option (list ascii) :=
  match l, s with
  | [], _ => Some s
  | a :: l', b :: s' => if Ascii.eqb a b then strip_lit l' s' else None
  | _ :: _, [] => None
  end.

Section Matcher.
Context {R : Type}.

(** A greedy repetition of a class: the longest run is tried first and
    given back one character at a time while the rest fails. [acc] is
    the text the group has matched so far. *)
Fixpoint greedy (c : ascii -> bool) (acc s : list ascii)
    (k : list ascii -> list ascii -> option R) : option R :=
  match s with
  | x :: s' =>
      if c x then
        match greedy c (acc ++ [x]) s' k with
        | Some r => Some r
        | None => k acc s
        end
      else k acc s
  | [] => k acc s
  end.

Fixpoint match_atoms (ats : list atom) (acc s : list ascii)
    (k : list ascii -> list ascii -> option R) : option R :=
  match ats with
  | [] => k acc s
  | a :: ats' =>
      let k' := fun acc' s' => match_atoms ats' acc' s' k in
      match a with
      | Lit l =>
          match strip_lit l s with
          | Some s' => k' (acc ++ l) s'
          | None => None
          end
      | One c =>
          match s with
          | x :: s' => if c x then k' (acc ++ [x]) s' else None
          | [] => None
          end
      | Plus c =>
          match s with
          | x :: s' => if c x then greedy c (acc ++ [x]) s' k' else None
          | [] => None
          end
      | Star c => greedy c acc s k'
      end
  end.
End Matcher.

(** The groups in turn; a later group that fails makes the earlier ones
    give characters back. *)
Fixpoint match_groups (gs : pattern) (caps : list (list ascii)) (s : list ascii)
    : option (list (list ascii) * list ascii) :=
  match gs with
  | [] => Some (caps, s)
  | g :: gs' =>
      match_atoms g [] s (fun cap s' => match_groups gs' (caps ++ [cap]) s')
  end.

(** A match that starts at the head of [s]: the text of each group and
    what follows the match. *)
Definition match_at (pat : pattern) (s : list ascii)
    : option (list (list ascii) * list ascii) :=
  match_groups pat [] s.

(** [re.sub(pat, repl, s)] for a pattern that matches no empty text:
    the leftmost match is replaced and the scan goes on after it.
    [skip] counts the characters of the last match still to pass. *)
Fixpoint sub_from (pat : pattern) (repl : list (list ascii) -> list ascii)
    (skip : nat) (s : list ascii) : list ascii :=
  match s with
  | [] => []
  | x :: s' =>
      match skip with
      | S n => sub_from pat repl n s'
      | O =>
          match match_at pat s with
          | Some (caps, rest) =>
              repl caps ++ sub_from pat repl (length s - length rest - 1) s'
          | None => x :: sub_from pat repl 0 s'
          end
      end
  end.

Definition re_sub (pat : pattern) (repl : list (list ascii) -> list ascii)
    (s : list ascii) : list ascii :=
  sub_from pat repl 0 s.

Definition is_quote (c : ascii) : bool := Ascii.eqb c dquote || Ascii.eqb c squote.
Definition not_quote (c : ascii) : bool := negb (is_quote c).
Definition not_gt (c : ascii) : bool := negb (Ascii.eqb c ">").

(** The two patterns, [(<link[^>]+href=[q])([^q]+)([q][^>]*>)] and the
    same with [<script] and [src=], where [q] stands for the double and
    the single quote: the tag name, one or more characters other than
    [>], the attribute name with [=], a quote; then the value; then a
    quote and the rest of the tag. *)
Definition ref_pattern (tag attr : string) : pattern :=
  [ [Lit (lit tag); Plus not_gt; Lit (lit attr); One is_quote];
    [Plus not_quote];
    [One is_quote; Star not_gt; Lit (lit ">")] ].

Definition link_pattern : pattern := ref_pattern "<link" "href=".
Definition script_pattern : pattern := ref_pattern "<script" "src=".

(** [rewrite_link] and [rewrite_script] have the same body. *)
Definition rewrite_ref (token : string) (caps : list (list ascii)) : list ascii :=
  match caps with
  | [g1; g2; g3] =>
      let href_path := String.string_of_list_ascii g2 in
      if startswith href_path "http" || startswith href_path "//"
         || startswith href_path "/preview/"
      then g1 ++ g2 ++ g3
      else g1 ++ lit ("/preview/" +:+ token +:+ "/" +:+ lstrip_slash href_path) ++ g3
  | _ => concat caps
  end.

Definition rewrite_link := rewrite_ref.
Definition rewrite_script := rewrite_ref.

(** The two substitutions applied to a page, links first. *)
Definition rewrite_html (token : string) (html_content : string) : string :=
  let c1 := re_sub link_pattern (rewrite_link token) (lit html_content) in
  let c2 := re_sub script_pattern (rewrite_script token) c1 in
  String.string_of_list_ascii c2.

(** ** What the server gets from outside *)

(** How a [subprocess.run] ended. *)
Inductive run_outcome : Type :=
  | Exited (returncode : Z)
  | TimeoutExpired
  | Raised.

(** The world around one provisioning and its requests: the token
    [uuid.uuid4()] draws, what [npm install] and the build command do to
    the disk and how they end, what [json.load] finds in a manifest (the
    keys of [scripts]; the keys of [dependencies] and [devDependencies];
    [None] when reading it raises), which ports answer a connection, and
    whether [Popen] starts a process, with its name. *)
Record World : Type := mkWorld {
  uuid4 : string;
  npm_install : filesystem -> run_outcome * filesystem;
  npm_run_build : filesystem -> run_outcome * filesystem;
  json_scripts : string -> option (list string);
  json_deps : string -> option (list string);
  port_answers : Z -> bool;
  popen : Path -> Z -> option nat
}.

(** ** The proxy endpoint ([main.py]) *)

(** [get_mime_type]. *)
Definition mime_types : list (string * string) :=
  [ (".html", "text/html"); (".htm", "text/html"); (".css", "text/css");
    (".js", "application/javascript"); (".mjs", "application/javascript");
    (".json", "application/json"); (".png", "image/png");
    (".jpg", "image/jpeg"); (".jpeg", "image/jpeg"); (".gif", "image/gif");
    (".svg", "image/svg+xml"); (".ico", "image/x-icon");
    (".woff", "font/woff"); (".woff2", "font/woff2"); (".ttf", "font/ttf");
    (".eot", "application/vnd.ms-fontobject"); (".xml", "application/xml");
    (".txt", "text/plain") ].

Fixpoint assoc (k : string) (l : list (string * string)) : option string :=
  match l with
  | [] => None
  | (k', v) :: l' => if String.eqb k k' then Some v else assoc k l'
  end.

Definition get_mime_type (file_path : Path) : string :=
  let ext := lower (suffix file_path) in
  default "application/octet-stream" (assoc ext mime_types).

(** What the endpoint answers. [FileResponse] names the file whose bytes
    are sent; [HTTPException] keeps the status code (the [detail] text is
    left out); [ServerError] is an exception nothing catches. *)
Inductive response : Type :=
  | HTMLResponse (content : string) (media_type : string)
  | FileResponse (file : Path) (media_type : string)
  | HTTPException (status_code : Z)
  | ServerError.

(** [find_index_file]. *)
Definition index_files : list string := ["index.html"; "index.htm"].

Fixpoint first_index (fs : filesystem) (search_dir : Path) (names : list string)
    : option Path :=
  match names with
  | [] => None
  | index_file :: names' =>
      let index_path := search_dir // index_file in
      if path_exists fs index_path && is_file fs index_path then Some index_path
      else first_index fs search_dir names'
  end.

Fixpoint find_index_file (fs : filesystem) (search_dirs : list Path) : option Path :=
  match search_dirs with
  | [] => None
  | search_dir :: rest =>
      match first_index fs search_dir index_files with
      | Some index_path => Some index_path
      | None => find_index_file fs rest
      end
  end.

Definition has_index (fs : filesystem) (d : Path) : bool :=
  match find_index_file fs [d] with Some _ => true | None => false end.

(** [find_static_dir], the serving root of the endpoint. *)
Fixpoint first_build_dir (fs : filesystem) (preview_dir : Path) (build_dirs : list string)
    : option Path :=
  match build_dirs with
  | [] => None
  | build_dir :: rest =>
      let potential_dir := preview_dir // build_dir in
      if path_exists fs potential_dir && is_dir fs potential_dir
         && has_index fs potential_dir
      then Some potential_dir
      else first_build_dir fs preview_dir rest
  end.

Definition find_static_dir (fs : filesystem) (preview_dir : Path) : Path :=
  match first_build_dir fs preview_dir ["dist"; "build"; "out"] with
  | Some d => d
  | None =>
      let public_dir := preview_dir // "public" in
      if path_exists fs public_dir && is_dir fs public_dir && has_index fs public_dir
      then public_dir
      else if has_index fs preview_dir then preview_dir
      else
        let dist_dir := preview_dir // "dist" in
        if path_exists fs dist_dir && is_dir fs dist_dir then dist_dir
        else preview_dir
  end.

(** [Path.write_text]: the directory must exist and the name must not be
    a directory; [None] stands for the exception. *)
Definition write_text (fs : filesystem) (p : Path) (content : string)
    : option filesystem :=
  match walk fs [] p with
  | Some q =>
      match fs q with
      | Some Dir => None
      | _ => Some (update fs q (File content))
      end
  | None => None
  end.

(** [sub in s] on strings. *)
Fixpoint contains (s sub : string) : bool :=
  startswith s sub ||
  match s with
  | String _ s' => contains s' sub
  | EmptyString => false
  end.

(** The page the endpoint makes up for a project without entry page. *)
Definition fallback_index (main_entry : string) : string :=
  "<!DOCTYPE html>
<html lang=" +:+ DQ +:+ "en" +:+ DQ +:+ ">
<head>
    <meta charset=" +:+ DQ +:+ "UTF-8" +:+ DQ +:+ ">
    <meta name=" +:+ DQ +:+ "viewport" +:+ DQ +:+ " content=" +:+ DQ +:+
  "width=device-width, initial-scale=1.0" +:+ DQ +:+ ">
    <title>App</title>
</head>
<body>
    <div id=" +:+ DQ +:+ "root" +:+ DQ +:+ "></div>
    <script type=" +:+ DQ +:+ "module" +:+ DQ +:+ " src=" +:+ DQ +:+ "/src/" +:+
  main_entry +:+ DQ +:+ "></script>
</body>
</html>".

Definition main_entries : list string :=
  ["main.tsx"; "main.jsx"; "main.ts"; "main.js"; "index.tsx"; "index.jsx"].

Definition find_main_entry (fs : filesystem) (src_dir : Path) : option string :=
  if path_exists fs src_dir
  then List.find (fun ext => path_exists fs (src_dir // ext)) main_entries
  else None.

Definition is_react_project (w : World) (fs : filesystem) (package_json : Path) : bool :=
  if path_exists fs package_json then
    match read_text fs package_json with
    | Some text =>
        match json_deps w text with
        | Some deps => existsb (fun dep => contains (lower dep) "react") deps
        | None => false
        end
    | None => false
    end
  else false.

(** The entry page: [file_path] is empty or [/]. *)
Definition serve_index (w : World) (fs : filesystem) (token : string)
    (preview_dir static_dir : Path) : response * filesystem :=
  let search_locations :=
    [static_dir; preview_dir] ++
    List.filter (path_exists fs)
      (List.map (joinpath preview_dir) ["dist"; "build"; "out"; "public"]) in
  match find_index_file fs search_locations with
  | Some index_path =>
      let mime_type := get_mime_type index_path in
      match read_text_utf8 fs index_path with
      | Some html_content => (HTMLResponse (rewrite_html token html_content) mime_type, fs)
      | None => (FileResponse index_path mime_type, fs)
      end
  | None =>
      let package_json := preview_dir // "package.json" in
      let src_dir := preview_dir // "src" in
      if path_exists fs package_json || path_exists fs src_dir then
        let main_entry := find_main_entry fs src_dir in
        let index_content :=
          if is_react_project w fs package_json
          then fallback_index (default "main.jsx" main_entry)
          else fallback_index (default "main.js" main_entry) in
        match write_text fs (static_dir // "index.html") index_content with
        | Some fs' => (HTMLResponse (rewrite_html token index_content) "text/html", fs')
        | None => (ServerError, fs)
        end
      else (HTTPException 404, fs)
  end.

(** The NUL character. [Path.resolve()] asks the operating system about
    each name of the path, and a name with a NUL character makes that
    call raise [ValueError]. The session directory and the serving root
    are directories that exist, so only the request can bring one. *)
Definition NUL : string := String "000" EmptyString.

(** A file below the serving root, with the fallback to the session
    root. The [ValueError] of the guard is the one of [relative_to], for
    a path that resolves outside the serving root, or the one of
    [resolve], for a request with a NUL character. The names of the model
    have any length: the [OSError] of a name beyond the limits of the
    operating system is left out (see [within_limits]). *)
Definition serve_file (fs : filesystem) (preview_dir static_dir : Path)
    (file_path : string) : response :=
  let requested_path := static_dir // lstrip_slash file_path in
  if contains file_path NUL then HTTPException 403 else
  match relative_to (resolve requested_path) (resolve static_dir) with
  | None => HTTPException 403
  | Some _ =>
      let from_root :=
        let root_requested_path := preview_dir // lstrip_slash file_path in
        if path_exists fs root_requested_path
           && negb (path_eqb root_requested_path requested_path)
        then
          match relative_to (resolve root_requested_path) (resolve preview_dir) with
          | Some _ =>
              if is_file fs root_requested_path
              then FileResponse root_requested_path (get_mime_type root_requested_path)
              else HTTPException 404
          | None => HTTPException 404
          end
        else HTTPException 404 in
      if path_exists fs requested_path then
        if is_file fs requested_path
        then FileResponse requested_path (get_mime_type requested_path)
        else if is_dir fs requested_path then
          match find_index_file fs [requested_path] with
          | Some index_path => FileResponse index_path "text/html"
          | None => HTTPException 404
          end
        else from_root
      else from_root
  end.

Definition serve_files (w : World) (fs : filesystem) (token : string)
    (preview_dir : Path) (file_path : string) : response * filesystem :=
  let static_dir := find_static_dir fs preview_dir in
  if String.eqb file_path "" || String.eqb file_path "/"
  then serve_index w fs token preview_dir static_dir
  else (serve_file fs preview_dir static_dir file_path, fs).

(** [serve_preview], the handler of [/preview/{token}/{file_path}]. *)
Definition serve_preview (w : World) (token file_path : string) (now : Z)
    : prog response :=
  preview <- get_preview token now ;;
  match preview with
  | None => Ret (HTTPException 404)
  | Some pv =>
      Do (fun st =>
            let '(r, fs') := serve_files w (disk st) token (path pv) file_path in
            (r, set_disk fs' st)) Ret
  end.

(** The handler of [DELETE /preview/{token}]. *)
Inductive stop_response : Type :=
  | Stopped
  | StopNotFound.

Definition stop_preview_endpoint (token : string) (now : Z) : prog stop_response :=
  success <- stop_preview token now ;;
  Ret (if success then Stopped else StopNotFound).

(** The limits of the operating system on names (Linux): a name of at
    most [NAME_MAX] bytes, a path shorter than [PATH_MAX] bytes. *)
Definition NAME_MAX : nat := 255.
Definition PATH_MAX : nat := 4096.

Definition path_length (p : Path) : nat :=
  list_sum (List.map (fun c => S (String.length c)) p).

Definition within_limits (p : Path) : bool :=
  (forallb (fun c => Nat.leb (String.length c) NAME_MAX) p
   && Nat.ltb (path_length p) PATH_MAX)%bool.

(** The bytes a response carries, read from the disk for a file. *)
Definition response_body (fs : filesystem) (r : response) : option string :=
  match r with
  | HTMLResponse content _ => Some content
  | FileResponse file _ => read_text fs file
  | _ => None
  end.

(** ** Provisioning ([preview_server.py]) *)

(** The archive is unpacked by the standard library: [getinfo],
    [arcname_parts], [extract_member] and [extractall] follow [zipfile.py]
    of CPython 3.11 on a POSIX system. *)

(** An archive: the members in order, name and content; [None] is data
    [zipfile.ZipFile] refuses. *)
Definition member : Type := (string * string)%type.
Definition archive : Type := option (list member).

(** [ZipFile.getinfo(name)]: the last member of that name. *)
Fixpoint getinfo (name : string) (members : list member) : option string :=
  match members with
  | [] => None
  | (n, c) :: rest =>
      match getinfo name rest with
      | Some c' => Some c'
      | None => if String.eqb n name then Some c else None
      end
  end.

(** The parts of a member name [zipfile] keeps: empty parts, [.] and
    [..] are removed, which also makes an absolute name relative. *)
Definition valid_part (x : string) : bool :=
  negb (String.eqb x "") && negb (String.eqb x ".") && negb (String.eqb x "..").

Definition arcname_parts (filename : string) : Path :=
  List.filter valid_part (split_slash filename).

Fixpoint last_char (s : string) : option ascii :=
  match s with
  | EmptyString => None
  | String c EmptyString => Some c
  | String _ s' => last_char s'
  end.

(** [ZipFile._extract_member] into the canonical directory [targetpath].
    The flag is [false] for an exception: the index error of [is_dir] on
    an empty name, a file where a directory is needed, a directory where
    the file is to be written. The disk is returned as the member left it. *)
Definition extract_member (targetpath : Path) (filename content : string)
    (fs : filesystem) : bool * filesystem :=
  let target := targetpath ++ arcname_parts filename in
  let upperdirs := removelast target in
  match (if negb (path_exists fs upperdirs)
         then makedirs upperdirs fs else (true, fs)) with
  | (false, fs1) => (false, fs1)
  | (true, fs1) =>
      match last_char filename with
      | None => (false, fs1)
      | Some c =>
          if Ascii.eqb c "/" then
            if is_dir fs1 target then (true, fs1)
            else match walk fs1 [] target with
                 | Some q =>
                     match fs1 q with
                     | None => (true, update fs1 q Dir)
                     | Some _ => (false, fs1)
                     end
                 | None => (false, fs1)
                 end
          else match write_text fs1 target content with
               | Some fs2 => (true, fs2)
               | None => (false, fs1)
               end
      end
  end.

(** [ZipFile.extractall]: every name of [namelist()] in order. *)
Fixpoint extract_names (targetpath : Path) (names : list string)
    (members : list member) (fs : filesystem) : bool * filesystem :=
  match names with
  | [] => (true, fs)
  | name :: rest =>
      match getinfo name members with
      | None => (false, fs)
      | Some content =>
          match extract_member targetpath name content fs with
          | (true, fs') => extract_names targetpath rest members fs'
          | (false, fs') => (false, fs')
          end
      end
  end.

Definition extractall (targetpath : Path) (members : list member)
    (fs : filesystem) : bool * filesystem :=
  extract_names targetpath members.*1 members fs.

(** [extract_zip_to_directory]; the flag is [false] when it raises. *)
Definition extract_zip_to_directory (zip_data : archive) (target_dir : Path)
    (fs : filesystem) : bool * filesystem :=
  match makedirs target_dir fs with
  | (false, fs1) => (false, fs1)
  | (true, fs1) =>
      match zip_data with
      | None => (false, fs1)
      | Some members => extractall target_dir members fs1
      end
  end.

(** [install_dependencies]. *)
Definition install_dependencies (w : World) (preview_dir : Path) (fs : filesystem)
    : bool * filesystem :=
  let package_json := preview_dir // "package.json" in
  if negb (path_exists fs package_json) then (true, fs)
  else
    match npm_install w fs with
    | (Exited returncode, fs') => (returncode =? 0, fs')
    | (TimeoutExpired, fs') => (false, fs')
    | (Raised, fs') => (false, fs')
    end.

(** [shutil.copy] of one file. *)
Definition copy_file (src dst : Path) (fs : filesystem) : option filesystem :=
  match read_text fs src with
  | Some c => write_text fs dst c
  | None => None
  end.

(** [build_project]. *)
Definition build_project (w : World) (preview_dir : Path) (fs : filesystem)
    : bool * filesystem :=
  let package_json := preview_dir // "package.json" in
  if negb (path_exists fs package_json) then (true, fs)
  else
    match read_text fs package_json with
    | None => (false, fs)
    | Some text =>
        match json_scripts w text with
        | None => (false, fs)
        | Some scripts =>
            if negb (existsb (String.eqb "build") scripts) then (true, fs)
            else
              match npm_run_build w fs with
              | (Exited returncode, fs1) =>
                  if negb (returncode =? 0) then (false, fs1)
                  else
                    let dist_dir := preview_dir // "dist" in
                    if path_exists fs1 dist_dir then
                      if path_exists fs1 (dist_dir // "index.html") then (true, fs1)
                      else if path_exists fs1 (preview_dir // "index.html") then
                        match copy_file (preview_dir // "index.html")
                                        (dist_dir // "index.html") fs1 with
                        | Some fs2 => (true, fs2)
                        | None => (false, fs1)
                        end
                      else (true, fs1)
                    else (true, fs1)
              | (TimeoutExpired, fs1) => (false, fs1)
              | (Raised, fs1) => (false, fs1)
              end
        end
    end.

(** [find_static_files], the directory the static server is rooted at. *)
Fixpoint first_existing_dir (fs : filesystem) (preview_dir : Path)
    (build_dirs : list string) : option Path :=
  match build_dirs with
  | [] => None
  | build_dir :: rest =>
      let potential_dir := preview_dir // build_dir in
      if path_exists fs potential_dir && is_dir fs potential_dir
      then Some potential_dir
      else first_existing_dir fs preview_dir rest
  end.

Definition find_static_files (fs : filesystem) (preview_dir : Path) : Path :=
  default preview_dir
    (first_existing_dir fs preview_dir ["dist"; "build"; "out"; "public"]).

(** [start_preview_server]: the process, or [None] when [Popen] raises. *)
Definition start_preview_server (w : World) (fs : filesystem) (preview_dir : Path)
    (port : Z) : option nat :=
  let static_dir := find_static_files fs preview_dir in
  popen w static_dir port.

(** The ports [socket.connect_ex] takes; on any other it raises
    [OverflowError]. *)
Definition valid_port (port : Z) : bool := (0 <=? port) && (port <=? 65535).

(** The loop of [find_available_port] over the ports that are left. *)
Fixpoint first_free_port (w : World) (ports : list Z) : option Z :=
  match ports with
  | [] => None
  | port :: rest =>
      if negb (valid_port port) then None
      else if negb (port_answers w port) then Some port
      else first_free_port w rest
  end.

(** [find_available_port]: the first of a hundred ports that refuses a
    connection. [None] stands for an exception: the [RuntimeError] of its
    last line, or the [OverflowError] of [connect_ex] for a port outside
    0..65535. *)
Definition find_available_port (w : World) (start_port : Z) : option Z :=
  first_free_port w (List.map (fun i => start_port + Z.of_nat i) (seq 0 100)).

Record PreviewInfo : Type := mkPreviewInfo {
  preview_url : string;
  preview_token : string;
  info_expires_at : Z;
  info_port : Z
}.

(** How [create_preview] ends: with the preview, with [None] after the
    clean-up of its [except] clause, or with the exception of
    [create_preview_directory], which is raised before the [try]. *)
Inductive creation : Type :=
  | Created (info : PreviewInfo)
  | NotCreated
  | CreationRaised.

(** The clean-up of the [except] clause. *)
Definition cleanup_on_error (preview_dir : Path) : prog creation :=
  modify (fun st =>
    if path_exists (disk st) preview_dir
    then set_disk (rmtree preview_dir (disk st)) st else st) ;;
  Ret NotCreated.

(** [create_preview] at clock reading [now]. *)
Definition create_preview (w : World) (zip_data : archive) (base_url : string)
    (now : Z) : prog creation :=
  let token := uuid4 w in
  let preview_dir := create_preview_directory token in
  made <- Do (fun st =>
            let '(ok, fs') := makedirs preview_dir (disk st) in
            (ok, set_disk fs' st)) Ret ;;
  if negb made then Ret CreationRaised else
  extracted <- Do (fun st =>
                 let '(ok, fs') :=
                   extract_zip_to_directory zip_data preview_dir (disk st) in
                 (ok, set_disk fs' st)) Ret ;;
  if negb extracted then cleanup_on_error preview_dir else
  Do (fun st =>
        let '(ok, fs') := install_dependencies w preview_dir (disk st) in
        (ok, set_disk fs' st)) Ret ;;
  Do (fun st =>
        let '(ok, fs') := build_project w preview_dir (disk st) in
        (ok, set_disk fs' st)) Ret ;;
  match find_available_port w 3000 with
  | None => cleanup_on_error preview_dir
  | Some port =>
      started <- Do (fun st =>
                   match start_preview_server w (disk st) preview_dir port with
                   | Some pid => (Some pid, set_alive ({[pid]} ∪ alive st) st)
                   | None => (None, st)
                   end) Ret ;;
      match started with
      | None => cleanup_on_error preview_dir
      | Some pid =>
          register_preview token preview_dir port pid now ;;
          Ret (Created (mkPreviewInfo (base_url +:+ "/preview/" +:+ token)
                                      token (now + 10 * 60) port))
      end
  end.

(** ** The listing of the manager ([preview_manager.py]) *)

(** One value of the dictionary [get_all_previews] returns. *)
Record PreviewSummary : Type := mkPreviewSummary {
  summary_port : Z;
  summary_expires_at : string;
  summary_created_at : string
}.

(** [get_all_previews] at clock reading [now]; [isoformat] stands for
    [datetime.fromtimestamp(_).isoformat()], which depends on the time
    zone of the machine. *)
Definition get_all_previews (isoformat : Z -> string) (now : Z)
    : prog (gmap string PreviewSummary) :=
  cleanup_expired now ;;
  Acquire (
    r <- get (fun st =>
           (fun v => mkPreviewSummary (port v) (isoformat (expires_at v))
                                      (isoformat (created_at v)))
             <$> previews st) ;;
    Release (Ret r)).

(** ** The archive of the generated files ([agent/graph.py]) *)

(** A generated file ([FileCode] of [agent/states.py]). *)
Record FileCode : Type := mkFileCode {
  filepath : string;
  code : string
}.

(** The page [downloader_agent] adds to a project without one. *)
Definition fallback_page : string :=
  "<!DOCTYPE html>
<html lang=" +:+ DQ +:+ "en" +:+ DQ +:+ ">
<head>
    <meta charset=" +:+ DQ +:+ "UTF-8" +:+ DQ +:+ ">
    <meta name=" +:+ DQ +:+ "viewport" +:+ DQ +:+ " content=" +:+ DQ +:+
  "width=device-width, initial-scale=1.0" +:+ DQ +:+ ">
    <title>My Website</title>
    <link rel=" +:+ DQ +:+ "stylesheet" +:+ DQ +:+ " href=" +:+ DQ +:+
  "styles/main.css" +:+ DQ +:+ ">
</head>
<body>
    <header>
        <nav>
            <h1>Welcome</h1>
        </nav>
    </header>
    <main>
        <section>
            <h2>Content</h2>
            <p>Your content here</p>
        </section>
    </main>
    <footer>
        <p>&copy; 2024</p>
    </footer>
    <script src=" +:+ DQ +:+ "scripts/main.js" +:+ DQ +:+ " defer></script>
</body>
</html>".

(** [ZipInfo.__init__]: a name ends at its first NUL character. *)
Fixpoint until_nul (s : string) : string :=
  match s with
  | EmptyString => EmptyString
  | String c s' => if Ascii.eqb c "000" then EmptyString else String c (until_nul s')
  end.

(** [ZipFile.writestr(arcname, data)] after the members [zf]; [None] is
    the [IndexError] of [zinfo.filename[-1]] on an empty name. A name
    written twice is kept twice. *)
Definition writestr (zf : list member) (arcname data : string) : option (list member) :=
  let filename := until_nul arcname in
  match last_char filename with
  | None => None
  | Some _ => Some (zf ++ [(filename, data)])
  end.

(** The loop over [files] inside [with zipfile.ZipFile(...) as zf]. *)
Fixpoint write_files (zf : list member) (files : list FileCode) : option (list member) :=
  match files with
  | [] => Some zf
  | f :: rest =>
      let arcname := lstrip_slash (filepath f) in
      match writestr zf arcname (code f) with
      | Some zf' => write_files zf' rest
      | None => None
      end
  end.

(** [downloader_agent]: the list [state["files"]] as the call leaves it
    (the fallback page is appended to that very list) and the archive
    [mem_zip], [None] when writing it raised. The search for a main
    script has no effect and is left out. *)
Definition downloader_agent (files : list FileCode)
    : list FileCode * option (list member) :=
  let filepaths := List.map (fun f => lower (filepath f)) files in
  let has_index_html := existsb (fun fp => contains fp "index.html") filepaths in
  let files :=
    if negb has_index_html
    then files ++ [mkFileCode "index.html" fallback_page]
    else files in
  (files, write_files [] files).

(** [preview_server_agent]: [mem_zip] is the entry of the state, [None]
    when it has none; [PREVIEW_BASE_URL] is the variable of the
    environment. The result is the [preview_info] of the returned
    dictionary. *)
Definition preview_server_agent (w : World) (PREVIEW_BASE_URL : option string)
    (mem_zip : option archive) (now : Z) : prog creation :=
  match mem_zip with
  | None => Ret NotCreated
  | Some zip_data =>
      let base_url := default "http://localhost:8000" PREVIEW_BASE_URL in
      create_preview w zip_data base_url now
  end.

(** ** Data and reference definitions for the properties *)

(** The state [_remove_preview] leaves when it runs to its end. *)
Definition torn_down (token : string) (pv : Preview) (st : State) : State :=
  mkState (delete token (previews st)) false
          (if path_exists (disk st) (path pv)
           then rmtree (path pv) (disk st) else disk st)
          (alive st ∖ {[process pv]}).

(** A registry with one preview of token [t], created at time 0 over a
    session directory that holds an entry page, one more page, an
    empty [public] directory and a directory with an index; the lock is
    free. *)
Definition demo_tree : list (Path * node) :=
  [ ([], Dir); (["tmp"], Dir); (["tmp"; "previews"], Dir);
    (["tmp"; "previews"; "t"], Dir);
    (["tmp"; "previews"; "t"; "index.html"], File "<link href='a.css'>");
    (["tmp"; "previews"; "t"; "about.html"], File "<link href='a.css'>");
    (["tmp"; "previews"; "t"; "public"], Dir);
    (["tmp"; "previews"; "t"; "docs"], Dir);
    (["tmp"; "previews"; "t"; "docs"; "index.html"], File "<script src='d.js'></script>") ].

Fixpoint tree_lookup (t : list (Path * node)) (p : Path) : option node :=
  match t with
  | [] => None
  | (q, n) :: t' => if path_eqb p q then Some n else tree_lookup t' p
  end.

Definition demo_disk : filesystem := tree_lookup demo_tree.

Definition demo_preview : Preview :=
  mkPreview ["tmp"; "previews"; "t"] 3000 7 600 0.

Definition demo_state : State :=
  mkState {[ "t" := demo_preview ]} false demo_disk {[ 7%nat ]}.

(** A second registry: the preview of token [b] was built, so its
    directory has [dist] with an entry page next to the source page; the
    project also has a file [etc/passwd] of its own. *)
Definition built_tree : list (Path * node) :=
  [ ([], Dir); (["tmp"], Dir); (["tmp"; "previews"], Dir);
    (["tmp"; "previews"; "b"], Dir);
    (["tmp"; "previews"; "b"; "index.html"], File "<script src='/src/main.js'></script>");
    (["tmp"; "previews"; "b"; "package.json"], File "{}");
    (["tmp"; "previews"; "b"; "etc"], Dir);
    (["tmp"; "previews"; "b"; "etc"; "passwd"], File "root:x:0:0");
    (["tmp"; "previews"; "b"; "dist"], Dir);
    (["tmp"; "previews"; "b"; "dist"; "index.html"], File "<script src='assets/app.js'></script>") ].

Definition built_disk : filesystem := tree_lookup built_tree.

Definition built_preview : Preview :=
  mkPreview ["tmp"; "previews"; "b"] 3001 8 600 0.

Definition built_state : State :=
  mkState {[ "b" := built_preview ]} false built_disk {[ 8%nat ]}.

(** A world for the examples: installs fail, builds time out, every
    manifest declares a [build] script and its dependencies cannot be
    read, ports below 3002 are taken, processes start. *)
Definition demo_world : World :=
  mkWorld "t" (fun fs => (Exited 1, fs)) (fun fs => (TimeoutExpired, fs))
          (fun _ => Some ["build"]) (fun _ => None)
          (fun p => p <? 3002) (fun _ _ => Some 9%nat).

(** An archive with a manifest and a page, and a machine with nothing
    but the root directory and no preview. *)
Definition demo_archive : archive :=
  Some [ ("package.json", "{}"); ("index.html", "<link href='a.css'>") ].

Definition root_disk : filesystem := tree_lookup [ ([], Dir) ].

(** A session whose entry page is not UTF-8 text: its first byte is
    [0xFF]. *)
Definition latin1_page : string := String "255" "<link href='a.css'>".

Definition latin1_disk : filesystem :=
  tree_lookup
    [ ([], Dir); (["tmp"], Dir); (["tmp"; "previews"], Dir);
      (["tmp"; "previews"; "l"], Dir);
      (["tmp"; "previews"; "l"; "index.html"], File latin1_page) ].

Definition empty_state : State := mkState ∅ false root_disk ∅.

(** A path without [..]: the form of [/tmp/previews/<token>]. *)
Definition canonical (p : Path) : bool :=
  forallb (fun c => negb (String.eqb c "..")) p.

(** What an extraction may change: below the target anything, above it
    only the creation of the target's own missing ancestors. *)
Definition only_below (target : Path) (fs fs' : filesystem) : Prop :=
  forall p,
    fs' p = fs p \/
    is_under p target = true \/
    (is_under target p = true /\ fs p = None /\ fs' p = Some Dir).

(** The value a matched reference gets: kept when it starts with
    [http], [//] or [/preview/], and otherwise put below
    [/preview/<token>/] without its leading slashes. *)
Definition rewritten_value (token v : string) : string :=
  if startswith v "http" || startswith v "//" || startswith v "/preview/"
  then v
  else "/preview/" +:+ token +:+ "/" +:+ lstrip_slash v.

(** [needle] is somewhere in [hay]. *)
Fixpoint occurs (needle hay : list ascii) : bool :=
  match strip_lit needle hay with
  | Some _ => true
  | None =>
      match hay with
      | [] => false
      | _ :: hay' => occurs needle hay'
      end
  end.

(** The attribute name followed by a quote is somewhere in [hay]. *)
Definition attr_here (attr hay : list ascii) : bool :=
  match strip_lit attr hay with
  | Some (q :: _) => is_quote q
  | _ => false
  end.

Fixpoint attr_later (attr hay : list ascii) : bool :=
  attr_here attr hay ||
  match hay with
  | [] => false
  | _ :: hay' => attr_later attr hay'
  end.

(** A value is already absolute in the words of the specification: it
    starts with a scheme (a letter, then letters, digits, [+], [-] or
    [.], then a colon), with [//], or with the proxy prefix. *)
Definition is_alpha (c : ascii) : bool :=
  let n := nat_of_ascii c in
  (Nat.leb 65 n && Nat.leb n 90) || (Nat.leb 97 n && Nat.leb n 122).

Definition is_scheme_char (c : ascii) : bool :=
  let n := nat_of_ascii c in
  is_alpha c || (Nat.leb 48 n && Nat.leb n 57)
  || Ascii.eqb c "+" || Ascii.eqb c "-" || Ascii.eqb c ".".

Fixpoint scheme_rest (s : string) : bool :=
  match s with
  | EmptyString => false
  | String c s' => Ascii.eqb c ":" || (is_scheme_char c && scheme_rest s')
  end.

Definition starts_with_scheme (s : string) : bool :=
  match s with
  | EmptyString => false
  | String c s' => is_alpha c && scheme_rest s'
  end.

Definition already_absolute (v : string) : bool :=
  starts_with_scheme v || startswith v "//" || startswith v "/preview/".

(** [d] is a directory with nothing in it. *)
Definition empty_dir (fs : filesystem) (d : Path) : Prop :=
  is_dir fs d = true /\
  forall p, is_under p d = true -> p <> d -> fs p = None.

(** The priority order in the words of the specification: a directory
    contains an entry page when one of the two accepted names is a file
    in it. *)
Definition contains_entry_page (fs : filesystem) (d : Path) : bool :=
  is_file fs (d ++ ["index.html"]) || is_file fs (d ++ ["index.htm"]).

Definition entry_directory (fs : filesystem) (d : Path) : bool :=
  is_dir fs d && contains_entry_page fs d.

Definition serving_root_by_priority (fs : filesystem) (root : Path) : Path :=
  if entry_directory fs (root ++ ["dist"]) then root ++ ["dist"]
  else if entry_directory fs (root ++ ["build"]) then root ++ ["build"]
  else if entry_directory fs (root ++ ["out"]) then root ++ ["out"]
  else if entry_directory fs (root ++ ["public"]) then root ++ ["public"]
  else if contains_entry_page fs root then root
  else if is_dir fs (root ++ ["dist"]) then root ++ ["dist"]
  else root.

(** Nothing is added: every node of [fs'] is the same node of [fs]. *)
Definition shrinks (fs fs' : filesystem) : Prop :=
  forall p x, fs' p = Some x -> fs p = Some x.

(** The tokens the sweep collects under the lock. *)
Definition expired_tokens (current_time : Z) (st : State) : list string :=
  (List.filter (fun kv => expires_at (snd kv) <=? current_time)
               (map_to_list (previews st))).*1.

(** The summary [get_all_previews] makes of one entry. *)
Definition summary (isoformat : Z -> string) (v : Preview) : PreviewSummary :=
  mkPreviewSummary (port v) (isoformat (expires_at v)) (isoformat (created_at v)).

(** Two disks that hold the same nodes at [d], above it and below it. *)
Definition agree_around (d : Path) (fs fs' : filesystem) : Prop :=
  forall p, is_under p d = true \/ is_under d p = true -> fs p = fs' p.

(** A path below [d], named without [..]. *)
Definition below (d p : Path) : Prop := exists r, p = d ++ r /\ canonical r = true.

(** A registry with the two previews [t] and [b], each over its own
    directory. *)
Definition shared_state : State :=
  mkState (<[ "b" := built_preview ]> {[ "t" := demo_preview ]}) false
          (tree_lookup (demo_tree ++ built_tree)) {[ 7%nat; 8%nat ]}.

(** A project with a manifest and a page, and a world whose build makes
    an empty [dist]. *)
Definition vite_disk : filesystem :=
  tree_lookup
    [ ([], Dir); (["tmp"], Dir); (["tmp"; "previews"], Dir);
      (["tmp"; "previews"; "v"], Dir);
      (["tmp"; "previews"; "v"; "package.json"], File "{}");
      (["tmp"; "previews"; "v"; "index.html"], File "<script src='/src/main.js'></script>") ].

Definition vite_world : World :=
  mkWorld "v" (fun fs => (Exited 0, fs))
          (fun fs => (Exited 0, update fs ["tmp"; "previews"; "v"; "dist"] Dir))
          (fun _ => Some ["dev"; "build"]) (fun _ => Some [])
          (fun _ => false) (fun _ _ => Some 3%nat).

(** The made-up page as the endpoint sends it: its script is asked for
    through the proxy. *)
Definition proxied_index (token main_entry : string) : string :=
  "<!DOCTYPE html>
<html lang=" +:+ DQ +:+ "en" +:+ DQ +:+ ">
<head>
    <meta charset=" +:+ DQ +:+ "UTF-8" +:+ DQ +:+ ">
    <meta name=" +:+ DQ +:+ "viewport" +:+ DQ +:+ " content=" +:+ DQ +:+
  "width=device-width, initial-scale=1.0" +:+ DQ +:+ ">
    <title>App</title>
</head>
<body>
    <div id=" +:+ DQ +:+ "root" +:+ DQ +:+ "></div>
    <script type=" +:+ DQ +:+ "module" +:+ DQ +:+ " src=" +:+ DQ +:+ "/preview/" +:+
  token +:+ "/src/" +:+ main_entry +:+ DQ +:+ "></script>
</body>
</html>".

(** The made-up page up to its script tag. *)
Definition fallback_head : string :=
  "<!DOCTYPE html>
<html lang=" +:+ DQ +:+ "en" +:+ DQ +:+ ">
<head>
    <meta charset=" +:+ DQ +:+ "UTF-8" +:+ DQ +:+ ">
    <meta name=" +:+ DQ +:+ "viewport" +:+ DQ +:+ " content=" +:+ DQ +:+
  "width=device-width, initial-scale=1.0" +:+ DQ +:+ ">
    <title>App</title>
</head>
<body>
    <div id=" +:+ DQ +:+ "root" +:+ DQ +:+ "></div>
    ".

Definition fallback_foot : string :=
  "</script>
</body>
</html>".

(** A project with a manifest and no page. *)
Definition bare_disk : filesystem :=
  tree_lookup
    [ ([], Dir); (["tmp"], Dir); (["tmp"; "previews"], Dir);
      (["tmp"; "previews"; "v"], Dir);
      (["tmp"; "previews"; "v"; "package.json"], File "{}") ].

(** A disk on which the members [done] have been extracted into the
    directory [target] and nothing else is below it: the files are the
    members, the directories are the ones on the way to a member. *)
Record extracted (target : Path) (done : list member) (fs : filesystem) : Prop := {
  ex_root : fs [] = Some Dir;
  ex_walk : walk fs [] target = Some target;
  ex_target : fs target = Some Dir;
  ex_files : forall n c, In (n, c) done ->
             fs (target ++ arcname_parts n) = Some (File c);
  ex_dirs : forall n c b a, In (n, c) done -> arcname_parts n = b ++ a -> a <> [] ->
            fs (target ++ b) = Some Dir;
  ex_only_files : forall r c, r <> [] -> fs (target ++ r) = Some (File c) ->
                  exists n, In (n, c) done /\ r = arcname_parts n;
  ex_only_dirs : forall r, r <> [] -> fs (target ++ r) = Some Dir ->
                 exists n c a, In (n, c) done /\ a <> [] /\ arcname_parts n = r ++ a
}.

(** A member that is a file: its name keeps a part and does not end in
    a slash. *)
Definition file_entry (name : string) : bool :=
  match arcname_parts name, last_char name with
  | _ :: _, Some c => negb (Ascii.eqb c "/")
  | _, _ => false
  end.

(** No path of the list is another one of the list or a directory on
    the way to it. *)
Fixpoint no_clash (ps : list Path) : bool :=
  match ps with
  | [] => true
  | p :: ps' =>
      forallb (fun q => negb (is_under q p) && negb (is_under p q)) ps' && no_clash ps'
  end.

(** The name a generated file gets in the archive, and its path below
    the directory the archive is unpacked in. *)
Definition archive_name (f : FileCode) : string := until_nul (lstrip_slash (filepath f)).

Definition site_path (f : FileCode) : Path := arcname_parts (archive_name f).

(** Two generated files, without a page. *)
Definition generated_files : list FileCode :=
  [ mkFileCode "/styles/main.css" "body{}"; mkFileCode "scripts/main.js" "let x" ].

(** The registry and the machine fit together: every preview has the
    directory of its token, which exists, and its own running process. *)
Definition consistent (st : State) : Prop :=
  (forall t pv, previews st !! t = Some pv ->
     path pv = create_preview_directory t /\ t <> ".." /\
     is_dir (disk st) (path pv) = true /\ process pv ∈ alive st) /\
  (forall t1 t2 pv1 pv2,
     previews st !! t1 = Some pv1 -> previews st !! t2 = Some pv2 ->
     t1 <> t2 -> process pv1 <> process pv2).

(** The text an atom sequence stands for. *)
Inductive atoms_match : list atom -> list ascii -> Prop :=
  | am_nil : atoms_match [] []
  | am_lit (l : list ascii) (ats : list atom) (m : list ascii) :
      atoms_match ats m -> atoms_match (Lit l :: ats) (l ++ m)
  | am_one (c : ascii -> bool) (ats : list atom) (x : ascii) (m : list ascii) :
      c x = true -> atoms_match ats m -> atoms_match (One c :: ats) (x :: m)
  | am_plus (c : ascii -> bool) (ats : list atom) (x : ascii) (r m : list ascii) :
      c x = true -> forallb c r = true -> atoms_match ats m ->
      atoms_match (Plus c :: ats) (x :: r ++ m)
  | am_star (c : ascii -> bool) (ats : list atom) (r m : list ascii) :
      forallb c r = true -> atoms_match ats m -> atoms_match (Star c :: ats) (r ++ m).

(** One pass of the rewrite, as a relation between a page and its
    result: text is kept character by character, except that the value
    [v] of a reference in a tag is replaced by [rewritten_value]. The
    rest of the tag is kept. *)
Inductive one_pass (tag attr token : string) : list ascii -> list ascii -> Prop :=
  | op_end : one_pass tag attr token [] []
  | op_keep (c : ascii) (s s' : list ascii) :
      one_pass tag attr token s s' -> one_pass tag attr token (c :: s) (c :: s')
  | op_ref (attrs : list ascii) (q1 q2 : ascii) (v : string) (tail s s' : list ascii) :
      attrs <> [] -> forallb not_gt attrs = true ->
      is_quote q1 = true -> is_quote q2 = true ->
      v <> "" -> forallb not_quote (lit v) = true ->
      forallb not_gt tail = true ->
      one_pass tag attr token s s' ->
      one_pass tag attr token
        (lit tag ++ attrs ++ lit attr ++ q1 :: lit v ++ q2 :: tail ++ lit ">" ++ s)
        (lit tag ++ attrs ++ lit attr ++ q1 :: lit (rewritten_value token v)
           ++ q2 :: tail ++ lit ">" ++ s').

(** * Properties *)

(** ** Running commands *)

Lemma run_mono {A : Type} (n m : nat) (p : prog A) (st : State) (r : A * State) :
  run n p st = Some r -> (n <= m)%nat -> run m p st = Some r.
Proof.
  revert m p st. induction n as [|n IH]; intros m p st Hrun Hle; [discriminate|].
  destruct m as [|m]; [lia|].
  assert (Hnm : (n <= m)%nat) by lia.
  destruct p as [a|k|k|B f k]; simpl in *.
  - exact Hrun.
  - destruct (lock st); apply IH; auto.
  - apply IH; auto.
  - destruct (f st) as [b st']. apply IH; auto.
Qed.

Lemma returns_Ret {A : Type} (a : A) (st : State) : returns (Ret a) st a st.
Proof. exists 1%nat. reflexivity. Qed.

Lemma returns_Acquire {A : Type} (k : prog A) (st : State) (a : A) (st' : State) :
  lock st = false -> returns k (set_lock true st) a st' -> returns (Acquire k) st a st'.
Proof. intros Hl [n Hn]. exists (S n). simpl. rewrite Hl. exact Hn. Qed.

Lemma returns_Release {A : Type} (k : prog A) (st : State) (a : A) (st' : State) :
  returns k (set_lock false st) a st' -> returns (Release k) st a st'.
Proof. intros [n Hn]. exists (S n). exact Hn. Qed.

Lemma returns_Do {A B : Type} (f : State -> B * State) (k : B -> prog A)
    (st : State) (a : A) (st' : State) :
  returns (k (f st).1) (f st).2 a st' -> returns (Do f k) st a st'.
Proof. intros [n Hn]. exists (S n). simpl. destruct (f st). exact Hn. Qed.

Lemma returns_bind {A B : Type} (p : prog A) (f : A -> prog B)
    (st : State) (a : A) (st1 : State) (b : B) (st2 : State) :
  returns p st a st1 -> returns (f a) st1 b st2 -> returns (bind p f) st b st2.
Proof.
  intros [n Hn] [m Hm]. exists (n + m)%nat.
  revert p st Hn. induction n as [|n IH]; intros p st Hn; [discriminate|].
  destruct p as [a0|k|k|C g k].
  - simpl in Hn. inversion Hn; subst.
    change (run (S n + m) (f a) st1 = Some (b, st2)).
    apply (run_mono m); [exact Hm | lia].
  - simpl in *. destruct (lock st).
    + apply (IH (Acquire k)). exact Hn.
    + apply IH. exact Hn.
  - simpl in *. apply IH; exact Hn.
  - simpl in *. destruct (g st) as [c st']. apply IH; exact Hn.
Qed.

Lemma returns_fun {A : Type} (p : prog A) (st : State) (a a' : A) (st1 st2 : State) :
  returns p st a st1 -> returns p st a' st2 -> a = a' /\ st1 = st2.
Proof.
  intros [n Hn] [m Hm].
  apply (run_mono n (n + m)) in Hn; [|lia].
  apply (run_mono m (n + m)) in Hm; [|lia].
  rewrite Hn in Hm. inversion Hm. auto.
Qed.

Lemma hangs_not_returns {A : Type} (p : prog A) (st : State) (a : A) (st' : State) :
  hangs p st -> ~ returns p st a st'.
Proof. intros Hh [n Hn]. rewrite Hh in Hn. discriminate. Qed.

(** A thread that asks for a lock that is held, alone, waits for ever. *)
Lemma hangs_Acquire_held {A : Type} (k : prog A) (st : State) :
  lock st = true -> hangs (Acquire k) st.
Proof.
  intros Hl n. induction n as [|n IH]; [reflexivity|].
  simpl. rewrite Hl. exact IH.
Qed.

Lemma hangs_Acquire_free {A : Type} (k : prog A) (st : State) :
  lock st = false -> hangs k (set_lock true st) -> hangs (Acquire k) st.
Proof. intros Hl Hk [|n]; [reflexivity|]. simpl. rewrite Hl. apply Hk. Qed.

Lemma hangs_Do {A B : Type} (f : State -> B * State) (k : B -> prog A) (st : State) :
  hangs (k (f st).1) (f st).2 -> hangs (Do f k) st.
Proof. intros Hk [|n]; [reflexivity|]. simpl. destruct (f st). apply Hk. Qed.

Lemma hangs_bind {A B : Type} (p : prog A) (f : A -> prog B) (st : State) :
  hangs p st -> hangs (bind p f) st.
Proof.
  intros Hp n. revert p st Hp. induction n as [|n IH]; intros p st Hp; [reflexivity|].
  destruct p as [a|k|k|C g k]; simpl.
  - specialize (Hp 1%nat). discriminate.
  - destruct (lock st) eqn:Hl.
    + apply (IH (Acquire k)). intros m. apply hangs_Acquire_held. exact Hl.
    + apply IH. intros m. specialize (Hp (S m)). simpl in Hp. rewrite Hl in Hp. exact Hp.
  - apply IH. intros m. exact (Hp (S m)).
  - destruct (g st) as [c st'] eqn:Hg. apply IH. intros m.
    specialize (Hp (S m)). simpl in Hp. rewrite Hg in Hp. exact Hp.
Qed.

Lemma hangs_bind_after {A B : Type} (p : prog A) (f : A -> prog B)
    (st : State) (a : A) (st1 : State) :
  returns p st a st1 -> hangs (f a) st1 -> hangs (bind p f) st.
Proof.
  intros [n Hn] Hf m.
  destruct (run m (bind p f) st) as [[b st2]|] eqn:Hrun; [|reflexivity].
  exfalso. revert p st n Hn Hrun.
  induction m as [|m IH]; intros p st n Hn Hrun; [discriminate|].
  destruct n as [|n]; [discriminate|].
  destruct p as [a0|k|k|C g k].
  - simpl in Hn. inversion Hn; subst.
    change (run (S m) (f a) st1 = Some (b, st2)) in Hrun.
    rewrite (Hf (S m)) in Hrun. discriminate.
  - simpl in *. destruct (lock st) eqn:Hl.
    + apply (IH (Acquire k) st n); assumption.
    + apply (IH k (set_lock true st) n); assumption.
  - simpl in *. apply (IH k (set_lock false st) n); assumption.
  - simpl in *. destruct (g st) as [c st']. apply (IH (k c) st' n); assumption.
Qed.

(** ** Teardown, lookup and stop *)

Lemma returns_get {B : Type} (f : State -> B) (st : State) :
  returns (get f) st (f st) st.
Proof. exists 2%nat. reflexivity. Qed.

Lemma remove_preview_absent (token : string) (st : State) :
  previews st !! token = None -> returns (_remove_preview token) st tt st.
Proof. intros H. exists 2%nat. simpl. rewrite H. reflexivity. Qed.

Lemma remove_preview_free (token : string) (pv : Preview) (st : State) :
  lock st = false -> previews st !! token = Some pv ->
  returns (_remove_preview token) st tt (torn_down token pv st).
Proof.
  intros Hl Hp. exists 8%nat. unfold torn_down. destruct st as [m l d a].
  simpl in *. subst l. rewrite Hp. simpl.
  destruct (path_exists d (path pv)); reflexivity.
Qed.

Lemma remove_preview_held (token : string) (pv : Preview) (st : State) :
  lock st = true -> previews st !! token = Some pv ->
  hangs (_remove_preview token) st.
Proof.
  intros Hl Hp. unfold _remove_preview, get, modify. simpl.
  apply hangs_Do. simpl. rewrite Hp. simpl.
  apply hangs_Do. simpl. apply hangs_Do. simpl.
  apply hangs_Acquire_held.
  destruct (path_exists (disk st) (path pv)); exact Hl.
Qed.

Lemma get_preview_absent (token : string) (now : Z) (st : State) :
  lock st = false -> previews st !! token = None ->
  returns (get_preview token now) st None st.
Proof.
  intros Hl Hp. exists 4%nat. destruct st as [m l d a]. simpl in *. subst l.
  rewrite Hp. reflexivity.
Qed.

Lemma get_preview_live (token : string) (pv : Preview) (now : Z) (st : State) :
  lock st = false -> previews st !! token = Some pv -> now < expires_at pv ->
  returns (get_preview token now) st (Some pv) st.
Proof.
  intros Hl Hp Hlt. exists 4%nat. destruct st as [m l d a]. simpl in *. subst l.
  rewrite Hp. apply Z.ltb_lt in Hlt. rewrite Hlt. reflexivity.
Qed.

Lemma get_preview_expired (token : string) (pv : Preview) (now : Z) (st : State) :
  lock st = false -> previews st !! token = Some pv -> expires_at pv <= now ->
  hangs (get_preview token now) st.
Proof.
  intros Hl Hp Hle. unfold get_preview.
  apply hangs_Acquire_free; [exact Hl|].
  eapply hangs_bind_after; [apply returns_get|].
  change (previews (set_lock true st)) with (previews st). rewrite Hp.
  apply Z.ltb_ge in Hle. rewrite Hle.
  apply hangs_bind. apply (remove_preview_held token pv); [reflexivity | exact Hp].
Qed.

Lemma stop_preview_live (token : string) (pv : Preview) (now : Z) (st : State) :
  lock st = false -> previews st !! token = Some pv -> now < expires_at pv ->
  returns (stop_preview token now) st true (torn_down token pv st).
Proof.
  intros Hl Hp Hlt. unfold stop_preview.
  eapply returns_bind; [apply (get_preview_live token pv); assumption|].
  eapply returns_bind; [apply (remove_preview_free token pv); assumption|].
  apply returns_Ret.
Qed.

Lemma stop_preview_absent (token : string) (now : Z) (st : State) :
  lock st = false -> previews st !! token = None ->
  returns (stop_preview token now) st false st.
Proof.
  intros Hl Hp. unfold stop_preview.
  eapply returns_bind; [apply get_preview_absent; assumption|].
  apply returns_Ret.
Qed.

Lemma walk_resolve (fs : filesystem) (rest cur q : Path) :
  walk fs cur rest = Some q -> q = fold_left step rest cur.
Proof.
  revert cur. induction rest as [|c rest IH]; intros cur H; simpl in *.
  - congruence.
  - destruct (fs cur) as [[|]|]; try discriminate. apply IH. exact H.
Qed.

Lemma relative_to_refl (a : Path) : relative_to a a = Some [].
Proof.
  induction a as [|x a IH]; simpl; [reflexivity|].
  rewrite String.eqb_refl. exact IH.
Qed.

Lemma rmtree_gone (d : Path) (fs : filesystem) : path_exists (rmtree d fs) d = false.
Proof.
  unfold path_exists, stat.
  destruct (walk (rmtree d fs) [] d) as [q|] eqn:Hw; [|reflexivity].
  apply walk_resolve in Hw. subst q. unfold rmtree at 1.
  unfold is_under, resolve. rewrite relative_to_refl. reflexivity.
Qed.

Lemma torn_down_dir_gone (token : string) (pv : Preview) (st : State) :
  path_exists (disk (torn_down token pv st)) (path pv) = false.
Proof.
  unfold torn_down. simpl.
  destruct (path_exists (disk st) (path pv)) eqn:He; [apply rmtree_gone | exact He].
Qed.

(** ** The lock among other threads *)

Lemma run_among_alone {A : Type} (n : nat) (p : prog A) (st : State) :
  run_among (fun _ st' => st') n p st = run n p st.
Proof.
  revert p st. induction n as [|n IH]; intros p st; [reflexivity|].
  destruct p as [a|k|k|B f k]; simpl.
  - reflexivity.
  - destruct (lock st); apply IH.
  - apply IH.
  - destruct (f st). apply IH.
Qed.

Lemma respects_lock_alone : respects_lock (fun _ st => st).
Proof. intros i st Hl. auto. Qed.

(** While the lock stays held, asking for it leads nowhere. *)
Lemma acquire_held_among {A : Type} (env : nat -> State -> State) (k : prog A)
    (n : nat) (st : State) :
  respects_lock env -> lock st = true -> run_among env n (Acquire k) st = None.
Proof.
  intros Henv. revert st. induction n as [|n IH]; intros st Hl; [reflexivity|].
  simpl. destruct (Henv n st Hl) as [Hl' _]. rewrite Hl'. apply IH. exact Hl'.
Qed.

(** The removal routine entered with the lock held, whatever the other
    threads do in between. *)
Lemma remove_preview_held_among {A : Type} (env : nat -> State -> State)
    (token : string) (pv : Preview) (f : unit -> prog A) (n : nat) (st : State) :
  respects_lock env ->
  lock st = true -> previews st !! token = Some pv ->
  run_among env n (bind (_remove_preview token) f) st = None.
Proof.
  intros Henv Hl Hp. unfold _remove_preview, get, modify. cbn [bind].
  destruct n as [|n]; [reflexivity|]. cbn [run_among].
  destruct (Henv n st Hl) as [Hl1 Hp1]. rewrite Hp1, Hp. cbn [bind].
  destruct n as [|n]; [reflexivity|]. cbn [run_among].
  destruct (Henv n _ Hl1) as [Hl2 _].
  destruct n as [|n]; [reflexivity|]. cbn [run_among].
  set (st2 := set_alive _ _) in *.
  destruct (Henv n st2 Hl2) as [Hl3 _].
  apply acquire_held_among; [exact Henv|].
  destruct (path_exists (disk (env n st2)) (path pv)); exact Hl3.
Qed.

(** C10: when [get_preview] finds an entry whose expiry time has passed
    it calls [_remove_preview] inside [with self.lock:], that is in a
    state where the lock is held; started there that routine never gets
    the lock of its [finally] clause (started with the lock free it
    returns), so the lookup neither returns a preview nor [None]: it
    never returns. Other threads do not help: whatever they do between
    the steps, as long as they respect the lock, the routine entered with
    the lock held does not come back. *)
Theorem lazy_expiry_lookup_never_returns
    (token : string) (pv : Preview) (now : Z) (st : State) :
  lock st = false ->
  previews st !! token = Some pv ->
  expires_at pv <= now ->
  (forall n, run (S (S n)) (get_preview token now) st
             = run n (_remove_preview token ;; Release (Ret None)) (set_lock true st)) /\
  returns (_remove_preview token) st tt (torn_down token pv st) /\
  hangs (_remove_preview token) (set_lock true st) /\
  hangs (get_preview token now) st /\
  (forall r st', ~ returns (get_preview token now) st r st') /\
  (forall env n, respects_lock env ->
     run_among env n (_remove_preview token ;; Release (Ret (@None Preview)))
               (set_lock true st) = None).
Proof.
  intros Hl Hp Hle.
  assert (Hh : hangs (get_preview token now) st)
    by (apply (get_preview_expired token pv); assumption).
  split.
  { intros n. unfold get_preview, get. cbn [run bind]. rewrite Hl.
    change (previews (set_lock true st)) with (previews st). rewrite Hp.
    apply Z.ltb_ge in Hle. rewrite Hle. reflexivity. }
  split; [apply remove_preview_free; assumption|].
  split; [apply (remove_preview_held token pv); [reflexivity | exact Hp]|].
  split; [exact Hh|].
  split; [intros r st'; apply hangs_not_returns; exact Hh|].
  intros env n Henv.
  apply (remove_preview_held_among env token pv); [exact Henv | reflexivity | exact Hp].
Qed.

Lemma lazy_expiry_lookup_never_returns_witness :
  hangs (get_preview "t" 600) demo_state.
Proof.
  apply (lazy_expiry_lookup_never_returns "t" demo_preview 600 demo_state);
    [reflexivity | reflexivity | simpl; lia].
Defined.

(** C2, on the code: at the expiry time itself the lookup of a
    registered token gives no answer, whatever the fuel: it does not
    return not-found and does not get to pop the entry. *)
Theorem expired_lookup_gives_no_answer :
  forall n, run n (get_preview "t" 600) demo_state = None.
Proof.
  apply (get_preview_expired "t" demo_preview); [reflexivity | reflexivity | simpl; lia].
Qed.

(** C6: stopping a live preview returns [True] and leaves the token out
    of the dictionary, its process stopped, its directory gone and the
    lock free; stopping it again, at any later time, returns [False] and
    changes nothing. *)
Theorem stop_preview_twice
    (token : string) (pv : Preview) (now : Z) (st : State) :
  lock st = false ->
  previews st !! token = Some pv ->
  now < expires_at pv ->
  exists st',
    returns (stop_preview token now) st true st' /\
    previews st' !! token = None /\
    (process pv ∉ alive st') /\
    path_exists (disk st') (path pv) = false /\
    lock st' = false /\
    forall now', returns (stop_preview token now') st' false st'.
Proof.
  intros Hl Hp Hlt. exists (torn_down token pv st).
  assert (Hgone : previews (torn_down token pv st) !! token = None)
    by (simpl; apply lookup_delete_eq).
  repeat split.
  - apply stop_preview_live; assumption.
  - exact Hgone.
  - simpl. intros [_ Hn]%elem_of_difference. apply Hn. apply elem_of_singleton. reflexivity.
  - apply torn_down_dir_gone.
  - intros now'. apply stop_preview_absent; [reflexivity | exact Hgone].
Qed.

Lemma stop_preview_twice_witness :
  exists st',
    returns (stop_preview "t" 10) demo_state true st' /\
    previews st' !! "t" = None /\
    (process demo_preview ∉ alive st') /\
    path_exists (disk st') (path demo_preview) = false /\
    lock st' = false /\
    forall now', returns (stop_preview "t" now') st' false st'.
Proof.
  apply (stop_preview_twice "t" demo_preview 10 demo_state);
    [reflexivity | reflexivity | simpl; lia].
Defined.

(** The sweep of the background thread calls [_remove_preview] after it
    has released the lock: on the registry of the examples, at the
    expiry time, it returns and the preview is torn down. *)
Lemma cleanup_expired_returns :
  returns (cleanup_expired 600) demo_state tt (torn_down "t" demo_preview demo_state).
Proof.
  unfold cleanup_expired.
  eapply returns_bind.
  { apply returns_Acquire; [reflexivity|].
    eapply returns_bind; [apply returns_get|].
    apply returns_Release. apply returns_Ret. }
  replace (List.filter _ _).*1 with ["t"] by (vm_compute; reflexivity).
  cbn [for_each].
  eapply returns_bind.
  { apply (remove_preview_free "t" demo_preview); reflexivity. }
  apply returns_Ret.
Qed.

(** The handler of [DELETE] answers a first stop of a live preview with
    success and a second one with 404. *)
Lemma stop_preview_endpoint_twice
    (token : string) (pv : Preview) (now now' : Z) (st : State) :
  lock st = false ->
  previews st !! token = Some pv ->
  now < expires_at pv ->
  returns (stop_preview_endpoint token now) st Stopped (torn_down token pv st) /\
  returns (stop_preview_endpoint token now') (torn_down token pv st) StopNotFound
          (torn_down token pv st).
Proof.
  intros Hl Hp Hlt. unfold stop_preview_endpoint. split.
  - eapply returns_bind; [apply (stop_preview_live token pv); assumption|].
    apply returns_Ret.
  - eapply returns_bind.
    + apply stop_preview_absent; [reflexivity|]. simpl. apply lookup_delete_eq.
    + apply returns_Ret.
Qed.

(** ** The file system *)

Lemma walk_app (fs : filesystem) (a b cur : Path) :
  walk fs cur (a ++ b) =
  match walk fs cur a with Some q => walk fs q b | None => None end.
Proof.
  revert cur. induction a as [|c a IH]; intros cur; simpl; [reflexivity|].
  destruct (fs cur) as [[|]|]; auto.
Qed.

Lemma stat_snoc (fs : filesystem) (p : Path) (c : string) :
  stat fs (p ++ [c]) =
  match walk fs [] p with
  | Some q => match fs q with Some Dir => fs (step q c) | _ => None end
  | None => None
  end.
Proof.
  unfold stat. rewrite walk_app. destruct (walk fs [] p) as [q|]; [|reflexivity].
  simpl. destruct (fs q) as [[|]|]; reflexivity.
Qed.

Lemma stat_snoc_dir (fs : filesystem) (p : Path) (c : string) (n : node) :
  stat fs (p ++ [c]) = Some n -> is_dir fs p = true.
Proof.
  rewrite stat_snoc. unfold is_dir, stat.
  destruct (walk fs [] p) as [q|]; [|discriminate].
  destruct (fs q) as [[|]|]; try discriminate. reflexivity.
Qed.

Lemma is_file_exists (fs : filesystem) (p : Path) :
  is_file fs p = true -> path_exists fs p = true.
Proof. unfold is_file, path_exists. destruct (stat fs p) as [[|]|]; auto. Qed.

Lemma exists_and_file (fs : filesystem) (p : Path) :
  path_exists fs p && is_file fs p = is_file fs p.
Proof. unfold is_file, path_exists. destruct (stat fs p) as [[|]|]; auto. Qed.

Lemma exists_and_dir (fs : filesystem) (p : Path) :
  path_exists fs p && is_dir fs p = is_dir fs p.
Proof. unfold is_dir, path_exists. destruct (stat fs p) as [[|]|]; auto. Qed.

Lemma read_text_is_file (fs : filesystem) (p : Path) (c : string) :
  read_text fs p = Some c -> is_file fs p = true.
Proof. unfold read_text, is_file. destruct (stat fs p) as [[|]|]; auto; discriminate. Qed.

Lemma read_text_utf8_is_file (fs : filesystem) (p : Path) (c : string) :
  read_text_utf8 fs p = Some c -> is_file fs p = true.
Proof.
  unfold read_text_utf8. destruct (read_text fs p) as [raw|] eqn:H; [|discriminate].
  intros _. apply (read_text_is_file fs p raw H).
Qed.

(** ** The serving root *)

Lemma has_index_entry_page (fs : filesystem) (d : Path) :
  has_index fs d = contains_entry_page fs d.
Proof.
  unfold has_index, contains_entry_page, find_index_file, index_files, first_index.
  change (d // "index.html") with (d ++ ["index.html"]).
  change (d // "index.htm") with (d ++ ["index.htm"]).
  rewrite !exists_and_file.
  destruct (is_file fs (d ++ ["index.html"])); [reflexivity|].
  destruct (is_file fs (d ++ ["index.htm"])); reflexivity.
Qed.

Lemma find_static_dir_priority (fs : filesystem) (preview_dir : Path) :
  find_static_dir fs preview_dir = serving_root_by_priority fs preview_dir.
Proof.
  unfold find_static_dir, serving_root_by_priority, first_build_dir, entry_directory.
  change (preview_dir // "dist") with (preview_dir ++ ["dist"]).
  change (preview_dir // "build") with (preview_dir ++ ["build"]).
  change (preview_dir // "out") with (preview_dir ++ ["out"]).
  change (preview_dir // "public") with (preview_dir ++ ["public"]).
  rewrite !exists_and_dir, !has_index_entry_page.
  destruct (is_dir fs (preview_dir ++ ["dist"]) &&
            contains_entry_page fs (preview_dir ++ ["dist"])); [reflexivity|].
  destruct (is_dir fs (preview_dir ++ ["build"]) &&
            contains_entry_page fs (preview_dir ++ ["build"])); [reflexivity|].
  destruct (is_dir fs (preview_dir ++ ["out"]) &&
            contains_entry_page fs (preview_dir ++ ["out"])); reflexivity.
Qed.

(** The serving root is the session directory or one of four
    directories right below it. *)
Lemma find_static_dir_cases (fs : filesystem) (d : Path) :
  find_static_dir fs d = d \/
  exists sub, In sub ["dist"; "build"; "out"; "public"] /\ find_static_dir fs d = d ++ [sub].
Proof.
  rewrite find_static_dir_priority. unfold serving_root_by_priority.
  repeat match goal with
         | |- context [if ?b then _ else _] => destruct b
         end;
    first [ left; reflexivity
          | right; eexists; split; [|reflexivity]; simpl; tauto ].
Qed.

Lemma set_disk_same (st : State) : set_disk (disk st) st = st.
Proof. destruct st; reflexivity. Qed.

(** C5: the endpoint picks its serving root by the priority order of the
    specification (a build directory [dist], [build], [out] with an entry
    page, else [public] with one, else the session directory with one,
    else [dist] if it is a directory, else the session directory), and a
    session that has both [index.html] and [dist/index.html] is answered,
    for the empty path, with the rewritten page of [dist], as
    [read_text(encoding='utf-8')] gives it. *)
Theorem serving_root_priority
    (w : World) (token : string) (pv : Preview) (now : Z) (st : State)
    (root_page dist_page : string) :
  lock st = false ->
  previews st !! token = Some pv ->
  now < expires_at pv ->
  read_text (disk st) (path pv // "index.html") = Some root_page ->
  read_text_utf8 (disk st) (path pv // "dist" // "index.html") = Some dist_page ->
  (forall fs d, find_static_dir fs d = serving_root_by_priority fs d) /\
  returns (serve_preview w token "" now) st
          (HTMLResponse (rewrite_html token dist_page) "text/html") st.
Proof.
  intros Hl Hp Hlt Hroot Hdist. split; [apply find_static_dir_priority|].
  change (path pv // "dist" // "index.html")
    with ((path pv ++ ["dist"]) ++ ["index.html"]) in Hdist.
  assert (Hfile : is_file (disk st) ((path pv ++ ["dist"]) ++ ["index.html"]) = true)
    by (eapply read_text_utf8_is_file; exact Hdist).
  assert (Hdir : is_dir (disk st) (path pv ++ ["dist"]) = true).
  { unfold is_file in Hfile.
    destruct (stat (disk st) ((path pv ++ ["dist"]) ++ ["index.html"])) eqn:Hs;
      [|discriminate].
    eapply stat_snoc_dir. exact Hs. }
  assert (Hstatic : find_static_dir (disk st) (path pv) = path pv ++ ["dist"]).
  { rewrite find_static_dir_priority. unfold serving_root_by_priority, entry_directory,
      contains_entry_page. rewrite Hdir, Hfile. reflexivity. }
  unfold serve_preview.
  eapply returns_bind; [apply (get_preview_live token pv); assumption|].
  apply returns_Do. unfold serve_files. rewrite Hstatic. simpl String.eqb. simpl orb.
  unfold serve_index. cbn [app find_index_file first_index index_files].
  change ((path pv ++ ["dist"]) // "index.html")
    with ((path pv ++ ["dist"]) ++ ["index.html"]).
  rewrite exists_and_file, Hfile, Hdist.
  unfold get_mime_type, suffix. rewrite last_snoc. cbn [fst snd].
  rewrite set_disk_same.
  replace (default "application/octet-stream" (assoc (lower (name_suffix "index.html")) mime_types))
    with "text/html" by reflexivity.
  apply returns_Ret.
Qed.

Lemma serving_root_priority_witness :
  returns (serve_preview demo_world "b" "" 10) built_state
          (HTMLResponse (rewrite_html "b" "<script src='assets/app.js'></script>") "text/html")
          built_state.
Proof.
  apply (serving_root_priority demo_world "b" built_preview 10 built_state
           "<script src='/src/main.js'></script>" "<script src='assets/app.js'></script>");
    [reflexivity | reflexivity | simpl; lia | reflexivity | reflexivity].
Defined.

(** ** The two rules that pick a directory *)

Lemma find_static_files_first (fs : filesystem) (d : Path) :
  find_static_files fs d =
  if is_dir fs (d ++ ["dist"]) then d ++ ["dist"]
  else if is_dir fs (d ++ ["build"]) then d ++ ["build"]
  else if is_dir fs (d ++ ["out"]) then d ++ ["out"]
  else if is_dir fs (d ++ ["public"]) then d ++ ["public"]
  else d.
Proof.
  unfold find_static_files, first_existing_dir.
  change (d // "dist") with (d ++ ["dist"]).
  change (d // "build") with (d ++ ["build"]).
  change (d // "out") with (d ++ ["out"]).
  change (d // "public") with (d ++ ["public"]).
  rewrite !exists_and_dir.
  repeat match goal with
         | |- context [if ?b then _ else _] => destruct b
         end; reflexivity.
Qed.

(** C9, on the code: beside an entry page in the session directory an
    empty [public] directory is where the static server is rooted, while
    the endpoint serves from the session directory. *)
Lemma selection_rules_disagree :
  find_static_files demo_disk ["tmp"; "previews"; "t"] = ["tmp"; "previews"; "t"; "public"] /\
  find_static_dir demo_disk ["tmp"; "previews"; "t"] = ["tmp"; "previews"; "t"] /\
  find_static_files demo_disk ["tmp"; "previews"; "t"]
    <> find_static_dir demo_disk ["tmp"; "previews"; "t"].
Proof.
  assert (H1 : find_static_files demo_disk ["tmp"; "previews"; "t"]
               = ["tmp"; "previews"; "t"; "public"]) by (vm_compute; reflexivity).
  assert (H2 : find_static_dir demo_disk ["tmp"; "previews"; "t"]
               = ["tmp"; "previews"; "t"]) by (vm_compute; reflexivity).
  split; [exact H1|]. split; [exact H2|].
  rewrite H1, H2. discriminate.
Qed.

(** C9, amended: the directory the static server is rooted at and the
    serving root of the endpoint are the same whenever the first of
    [dist], [build], [out], [public] that is a directory contains an
    entry page, and also when none of the four is a directory. *)
Theorem selection_rules_agree (fs : filesystem) (d : Path) :
  (forall s, first_existing_dir fs d ["dist"; "build"; "out"; "public"] = Some s ->
             contains_entry_page fs s = true) ->
  find_static_files fs d = find_static_dir fs d.
Proof.
  intros H.
  rewrite find_static_files_first, find_static_dir_priority.
  unfold serving_root_by_priority, entry_directory.
  unfold first_existing_dir in H.
  change (d // "dist") with (d ++ ["dist"]) in H.
  change (d // "build") with (d ++ ["build"]) in H.
  change (d // "out") with (d ++ ["out"]) in H.
  change (d // "public") with (d ++ ["public"]) in H.
  rewrite !exists_and_dir in H.
  destruct (is_dir fs (d ++ ["dist"])).
  { rewrite (H _ eq_refl). reflexivity. }
  destruct (is_dir fs (d ++ ["build"])).
  { rewrite (H _ eq_refl). reflexivity. }
  destruct (is_dir fs (d ++ ["out"])).
  { rewrite (H _ eq_refl). reflexivity. }
  destruct (is_dir fs (d ++ ["public"])).
  { rewrite (H _ eq_refl). reflexivity. }
  simpl. destruct (contains_entry_page fs d); reflexivity.
Qed.

Lemma selection_rules_agree_witness :
  find_static_files built_disk ["tmp"; "previews"; "b"]
  = find_static_dir built_disk ["tmp"; "previews"; "b"].
Proof.
  apply (selection_rules_agree built_disk ["tmp"; "previews"; "b"]).
  intros s Hs. vm_compute in Hs. inversion Hs. vm_compute. reflexivity.
Defined.

(** ** The traversal guard *)

Lemma resolve_app (a b : Path) : resolve (a ++ b) = fold_left step b (resolve a).
Proof. unfold resolve. apply fold_left_app. Qed.

Lemma resolve_snoc (a : Path) (c : string) :
  String.eqb c ".." = false -> resolve (a ++ [c]) = resolve a ++ [c].
Proof. intros H. rewrite resolve_app. simpl. unfold step. rewrite H. reflexivity. Qed.

Lemma relative_to_app (a b : Path) : relative_to (b ++ a) b = Some a.
Proof.
  induction b as [|x b IH]; simpl; [reflexivity|].
  rewrite String.eqb_refl. exact IH.
Qed.

Lemma relative_to_Some (a b r : Path) : relative_to a b = Some r -> a = b ++ r.
Proof.
  revert a. induction b as [|y b IH]; intros a H; simpl in *.
  - congruence.
  - destruct a as [|x a]; [discriminate|].
    destruct (String.eqb_spec x y); [|discriminate].
    subst. f_equal. apply IH. exact H.
Qed.

Lemma is_under_iff (a b : Path) : is_under a b = true <-> exists r, a = b ++ r.
Proof.
  unfold is_under. split.
  - destruct (relative_to a b) eqn:H; [|discriminate].
    intros _. eexists. apply relative_to_Some. exact H.
  - intros [r ->]. rewrite relative_to_app. reflexivity.
Qed.

Lemma is_under_parent (a b : Path) (c : string) :
  is_under a (b ++ [c]) = true -> is_under a b = true.
Proof.
  rewrite !is_under_iff. intros [r ->]. exists (c :: r).
  rewrite <- app_assoc. reflexivity.
Qed.

Lemma is_under_child (a b : Path) (c : string) :
  is_under a b = true -> is_under (a ++ [c]) b = true.
Proof.
  rewrite !is_under_iff. intros [r ->]. exists (r ++ [c]).
  rewrite <- app_assoc. reflexivity.
Qed.

(** Below a session directory [/tmp/previews/<token>] the request
    [../../etc/passwd] resolves outside every possible serving root. *)
Lemma serve_file_dotdot (fs : filesystem) (token : string) (static_dir : Path) :
  static_dir = create_preview_directory token \/
  (exists sub, In sub ["dist"; "build"; "out"; "public"] /\
               static_dir = create_preview_directory token ++ [sub]) ->
  serve_file fs (create_preview_directory token) static_dir "../../etc/passwd"
  = HTTPException 403.
Proof.
  intros Hs. unfold serve_file.
  change (lstrip_slash "../../etc/passwd") with "../../etc/passwd".
  change (static_dir // "../../etc/passwd")
    with (static_dir ++ [".."; ".."; "etc"; "passwd"]).
  assert (Hnone : relative_to (resolve (static_dir ++ [".."; ".."; "etc"; "passwd"]))
                              (resolve static_dir) = None).
  { unfold create_preview_directory, PREVIEW_BASE_DIR in Hs.
    destruct (relative_to _ _) as [r|] eqn:Hr; [exfalso|reflexivity].
    apply relative_to_Some in Hr.
    destruct (String.eqb token "..") eqn:E;
      destruct Hs as [-> | [sub [Hin ->]]];
      try (simpl in Hin; destruct Hin as [<- | [<- | [<- | [<- | []]]]]);
      unfold resolve, step in Hr; simpl in Hr; rewrite ?E in Hr; simpl in Hr;
      rewrite ?E in Hr; simpl in Hr; discriminate Hr. }
  rewrite Hnone. reflexivity.
Qed.

Lemma first_index_found (fs : filesystem) (d p : Path) :
  first_index fs d index_files = Some p ->
  is_file fs p = true /\ (p = d ++ ["index.html"] \/ p = d ++ ["index.htm"]).
Proof.
  unfold index_files, first_index.
  change (d // "index.html") with (d ++ ["index.html"]).
  change (d // "index.htm") with (d ++ ["index.htm"]).
  rewrite !exists_and_file.
  destruct (is_file fs (d ++ ["index.html"])) eqn:H1.
  { intros [= <-]. auto. }
  destruct (is_file fs (d ++ ["index.htm"])) eqn:H2.
  { intros [= <-]. auto. }
  discriminate.
Qed.

Lemma find_index_file_found (fs : filesystem) (dirs : list Path) (p : Path) :
  find_index_file fs dirs = Some p ->
  is_file fs p = true /\
  exists d, In d dirs /\ (p = d ++ ["index.html"] \/ p = d ++ ["index.htm"]).
Proof.
  induction dirs as [|d dirs IH]; cbn [find_index_file In]; [discriminate|].
  destruct (first_index fs d index_files) as [q|] eqn:Hf.
  - intros [= <-]. apply first_index_found in Hf. destruct Hf as [Hfile Hq].
    split; [exact Hfile|]. exists d. auto.
  - intros H. destruct (IH H) as [Hfile [d' [Hin Hq]]].
    split; [exact Hfile|]. exists d'. auto.
Qed.

(** The entry page is answered as a file only when it is found and its
    bytes cannot be read as UTF-8 text; the disk is left as it is. *)
Lemma serve_index_file (w : World) (fs : filesystem) (token : string)
    (preview_dir static_dir file : Path) (mime : string) :
  (serve_index w fs token preview_dir static_dir).1 = FileResponse file mime ->
  is_file fs file = true /\ read_text_utf8 fs file = None /\
  mime = get_mime_type file /\
  (serve_index w fs token preview_dir static_dir).2 = fs /\
  exists d, In d ([static_dir; preview_dir] ++
                  List.map (joinpath preview_dir) ["dist"; "build"; "out"; "public"]) /\
            (file = d ++ ["index.html"] \/ file = d ++ ["index.htm"]).
Proof.
  unfold serve_index.
  destruct (find_index_file fs _) as [index_path|] eqn:Hf.
  - apply find_index_file_found in Hf. destruct Hf as [Hfile [d [Hd Hp]]].
    destruct (read_text_utf8 fs index_path) as [page|] eqn:Hread; [discriminate|].
    cbn [fst snd]. intros [= <- <-].
    split; [exact Hfile|]. split; [exact Hread|]. split; [reflexivity|].
    split; [reflexivity|]. exists d. split; [|exact Hp].
    apply in_app_or in Hd. apply in_or_app. destruct Hd as [Hd|Hd]; [left; exact Hd|].
    right. apply filter_In in Hd. tauto.
  - destruct (path_exists fs (preview_dir // "package.json") ||
              path_exists fs (preview_dir // "src")); [|discriminate].
    destruct (write_text fs _ _); discriminate.
Qed.

(** Every file [serve_file] answers with resolves inside the directory
    it was looked up in: the serving root when the guard let the request
    through, the session directory in the fallback. *)
Lemma serve_file_inside (fs : filesystem) (preview_dir static_dir file : Path)
    (file_path mime : string) :
  serve_file fs preview_dir static_dir file_path = FileResponse file mime ->
  is_under (resolve file) (resolve static_dir) = true \/
  is_under (resolve file) (resolve preview_dir) = true.
Proof.
  unfold serve_file.
  destruct (contains file_path NUL); [discriminate|].
  destruct (relative_to (resolve (static_dir // lstrip_slash file_path))
                        (resolve static_dir)) as [r|] eqn:Hguard; [|discriminate].
  assert (Hin : is_under (resolve (static_dir // lstrip_slash file_path))
                         (resolve static_dir) = true)
    by (unfold is_under; rewrite Hguard; reflexivity).
  set (from_root := if path_exists fs (preview_dir // lstrip_slash file_path) && _
                    then _ else _).
  assert (Hroot : from_root = FileResponse file mime ->
                  is_under (resolve file) (resolve preview_dir) = true).
  { unfold from_root.
    destruct (path_exists fs (preview_dir // lstrip_slash file_path) && _);
      [|discriminate].
    destruct (relative_to (resolve (preview_dir // lstrip_slash file_path))
                          (resolve preview_dir)) eqn:Hg2; [|discriminate].
    destruct (is_file fs (preview_dir // lstrip_slash file_path)); [|discriminate].
    intros [= <- _]. unfold is_under. rewrite Hg2. reflexivity. }
  destruct (path_exists fs (static_dir // lstrip_slash file_path)); [|auto].
  destruct (is_file fs (static_dir // lstrip_slash file_path)).
  { intros [= <- _]. left. exact Hin. }
  destruct (is_dir fs (static_dir // lstrip_slash file_path)); [|auto].
  destruct (find_index_file fs [static_dir // lstrip_slash file_path]) as [ip|] eqn:Hf;
    [|discriminate].
  intros [= <- _]. left.
  apply find_index_file_found in Hf. destruct Hf as [_ [d [Hd Hip]]].
  destruct Hd as [<- | []].
  destruct Hip as [-> | ->]; rewrite resolve_snoc by reflexivity;
    apply is_under_child; exact Hin.
Qed.

Lemma resolve_static_under (fs : filesystem) (preview_dir a : Path) :
  is_under a (resolve (find_static_dir fs preview_dir)) = true ->
  is_under a (resolve preview_dir) = true.
Proof.
  destruct (find_static_dir_cases fs preview_dir) as [-> | [sub [Hin ->]]]; [auto|].
  simpl in Hin. destruct Hin as [<- | [<- | [<- | [<- | []]]]];
    rewrite resolve_snoc by reflexivity; apply is_under_parent.
Qed.

Lemma serve_files_inside (w : World) (fs : filesystem) (token : string)
    (preview_dir file : Path) (file_path mime : string) :
  (serve_files w fs token preview_dir file_path).1 = FileResponse file mime ->
  is_under (resolve file) (resolve preview_dir) = true.
Proof.
  unfold serve_files.
  destruct (String.eqb file_path "" || String.eqb file_path "/").
  - intros H. apply serve_index_file in H.
    destruct H as (_ & _ & _ & _ & d & Hd & Hfile).
    assert (Hunder : is_under (resolve d) (resolve preview_dir) = true).
    { cbn [app List.map In] in Hd.
      destruct Hd as [<-|[<-|Hd]].
      - destruct (find_static_dir_cases fs preview_dir) as [-> | [sub [Hin ->]]].
        + apply is_under_iff. exists []. rewrite app_nil_r. reflexivity.
        + simpl in Hin. destruct Hin as [<- | [<- | [<- | [<- | []]]]];
            rewrite resolve_snoc by reflexivity; apply is_under_iff; eexists; reflexivity.
      - apply is_under_iff. exists []. rewrite app_nil_r. reflexivity.
      - destruct Hd as [<- | [<- | [<- | [<- | []]]]];
          match goal with
          | |- context [preview_dir // ?x] =>
              change (preview_dir // x) with (preview_dir ++ [x])
          end;
          rewrite resolve_snoc by reflexivity; apply is_under_iff; eexists; reflexivity. }
    destruct Hfile as [-> | ->]; rewrite resolve_snoc by reflexivity;
      apply is_under_child; exact Hunder.
  - simpl. intros H. apply serve_file_inside in H. destruct H as [H|H]; [|exact H].
    eapply resolve_static_under. exact H.
Qed.

(** A request with a leading slash is not an absolute path: the slash is
    stripped and the rest is looked up below the serving root. *)
Lemma serve_file_leading_slash (fs : filesystem) (preview_dir static_dir : Path) :
  serve_file fs preview_dir static_dir "/etc/passwd"
  = serve_file fs preview_dir static_dir "etc/passwd" /\
  serve_file fs preview_dir static_dir "/etc/passwd" <> HTTPException 403.
Proof.
  split; [reflexivity|].
  unfold serve_file.
  change (contains "/etc/passwd" NUL) with false. cbv iota.
  change (lstrip_slash "/etc/passwd") with "etc/passwd".
  change (static_dir // "etc/passwd") with (static_dir ++ ["etc"; "passwd"]).
  replace (resolve (static_dir ++ ["etc"; "passwd"]))
    with (resolve static_dir ++ ["etc"; "passwd"])
    by (rewrite resolve_app; cbn; rewrite <- app_assoc; reflexivity).
  rewrite relative_to_app.
  repeat match goal with
         | |- context [if ?b then _ else _] => destruct b
         | |- context [match ?o with Some _ => _ | None => _ end] => destruct o
         end; discriminate.
Qed.

Lemma serve_preview_live (w : World) (token file_path : string) (pv : Preview)
    (now : Z) (st : State) :
  lock st = false -> previews st !! token = Some pv -> now < expires_at pv ->
  returns (serve_preview w token file_path now) st
          (serve_files w (disk st) token (path pv) file_path).1
          (set_disk (serve_files w (disk st) token (path pv) file_path).2 st).
Proof.
  intros Hl Hp Hlt. unfold serve_preview.
  eapply returns_bind; [apply (get_preview_live token pv); assumption|].
  apply returns_Do. destruct (serve_files w (disk st) token (path pv) file_path).
  apply returns_Ret.
Qed.

(** C1, on the code: a live token asking for [/etc/passwd] is not denied;
    the leading slash is stripped, [etc/passwd] is looked up below the
    serving root and then below the session directory, and the answer is
    404. Where the project has a file [etc/passwd] of its own and is
    served from [dist], the same request is answered with that file,
    which is outside the serving root. *)
Lemma leading_slash_not_denied :
  returns (serve_preview demo_world "t" "/etc/passwd" 10) demo_state
          (HTTPException 404) demo_state /\
  ~ returns (serve_preview demo_world "t" "/etc/passwd" 10) demo_state
            (HTTPException 403) demo_state /\
  returns (serve_preview demo_world "b" "/etc/passwd" 10) built_state
          (FileResponse ["tmp"; "previews"; "b"; "etc"; "passwd"]
                        "application/octet-stream") built_state /\
  find_static_dir built_disk ["tmp"; "previews"; "b"] = ["tmp"; "previews"; "b"; "dist"] /\
  is_under ["tmp"; "previews"; "b"; "etc"; "passwd"] ["tmp"; "previews"; "b"; "dist"]
    = false.
Proof.
  assert (H : returns (serve_preview demo_world "t" "/etc/passwd" 10) demo_state
                      (HTTPException 404) demo_state).
  { exact (serve_preview_live demo_world "t" "/etc/passwd" demo_preview 10 demo_state
             eq_refl eq_refl eq_refl). }
  split; [exact H|]. split.
  { intros H'. destruct (returns_fun _ _ _ _ _ _ H H') as [Hr _]. discriminate. }
  split.
  { exact (serve_preview_live demo_world "b" "/etc/passwd" built_preview 10 built_state
             eq_refl eq_refl eq_refl). }
  split; vm_compute; reflexivity.
Qed.

(** C1, amended: for a live token whose session directory is
    [/tmp/previews/<token>], the request [../../etc/passwd] is answered
    403, as is every request that resolves outside the serving root; the
    request [/etc/passwd] is not: it gets the answer of [etc/passwd],
    looked up below the serving root; and whatever the request, a file
    the endpoint answers with lies inside the session directory. *)
Theorem traversal_guard
    (w : World) (token : string) (pv : Preview) (now : Z) (st : State) :
  lock st = false ->
  previews st !! token = Some pv ->
  now < expires_at pv ->
  path pv = create_preview_directory token ->
  returns (serve_preview w token "../../etc/passwd" now) st (HTTPException 403) st /\
  (forall file_path,
      file_path <> "" -> file_path <> "/" ->
      is_under (resolve (find_static_dir (disk st) (path pv) // lstrip_slash file_path))
               (resolve (find_static_dir (disk st) (path pv))) = false ->
      returns (serve_preview w token file_path now) st (HTTPException 403) st) /\
  (exists r, r <> HTTPException 403 /\
             returns (serve_preview w token "/etc/passwd" now) st r st /\
             returns (serve_preview w token "etc/passwd" now) st r st) /\
  (forall file_path r st' file mime,
      returns (serve_preview w token file_path now) st r st' ->
      r = FileResponse file mime ->
      is_under (resolve file) (resolve (path pv)) = true).
Proof.
  intros Hl Hp Hlt Hpath.
  pose proof (fun fp => serve_preview_live w token fp pv now st Hl Hp Hlt) as Hlive.
  split; [|split; [|split]].
  - specialize (Hlive "../../etc/passwd"). unfold serve_files in Hlive.
    simpl String.eqb in Hlive. cbn [orb fst snd] in Hlive.
    rewrite set_disk_same in Hlive. rewrite Hpath in Hlive.
    rewrite serve_file_dotdot in Hlive; [exact Hlive|].
    apply find_static_dir_cases.
  - intros file_path H1 H2 Hout. specialize (Hlive file_path).
    unfold serve_files in Hlive.
    destruct (String.eqb_spec file_path ""); [contradiction|].
    destruct (String.eqb_spec file_path "/"); [contradiction|].
    cbn [orb fst snd] in Hlive. rewrite set_disk_same in Hlive.
    unfold serve_file in Hlive. unfold is_under in Hout.
    destruct (contains file_path NUL); [exact Hlive|].
    destruct (relative_to _ _); [discriminate|]. exact Hlive.
  - destruct (serve_file_leading_slash (disk st) (path pv)
                (find_static_dir (disk st) (path pv))) as [Heq Hne].
    exists (serve_file (disk st) (path pv) (find_static_dir (disk st) (path pv))
                       "/etc/passwd").
    split; [exact Hne|]. split.
    + specialize (Hlive "/etc/passwd"). unfold serve_files in Hlive.
      simpl String.eqb in Hlive. cbn [orb fst snd] in Hlive.
      rewrite set_disk_same in Hlive. exact Hlive.
    + rewrite Heq. specialize (Hlive "etc/passwd"). unfold serve_files in Hlive.
      simpl String.eqb in Hlive. cbn [orb fst snd] in Hlive.
      rewrite set_disk_same in Hlive. exact Hlive.
  - intros file_path r st' file mime Hret ->.
    destruct (returns_fun _ _ _ _ _ _ (Hlive file_path) Hret) as [Hr _].
    eapply serve_files_inside. exact Hr.
Qed.

Lemma traversal_guard_witness :
  returns (serve_preview demo_world "t" "../../etc/passwd" 10) demo_state
          (HTTPException 403) demo_state.
Proof.
  refine (proj1 (traversal_guard demo_world "t" demo_preview 10 demo_state _ _ _ _));
    [reflexivity | reflexivity | simpl; lia | reflexivity].
Defined.

(** ** Which answers are rewritten *)

Lemma walk_update_file (fs : filesystem) (q : Path) (c : string) (rest cur : Path) :
  fs q <> Some Dir -> walk (update fs q (File c)) cur rest = walk fs cur rest.
Proof.
  intros Hq. revert cur. induction rest as [|x rest IH]; intros cur; simpl; [reflexivity|].
  unfold update at 1. unfold path_eqb. case_bool_decide as Heq.
  - subst cur. destruct (fs q) as [[|]|]; try reflexivity. congruence.
  - destruct (fs cur) as [[|]|]; auto.
Qed.

Lemma write_then_read (fs fs' : filesystem) (p : Path) (c : string) :
  write_text fs p c = Some fs' -> read_text fs' p = Some c.
Proof.
  unfold write_text, read_text, stat.
  destruct (walk fs [] p) as [q|] eqn:Hw; [|discriminate].
  destruct (fs q) as [[c0|]|] eqn:Hq; try discriminate; intros [= <-];
    (rewrite walk_update_file by congruence); rewrite Hw;
    unfold update, path_eqb; rewrite bool_decide_eq_true_2 by reflexivity;
    reflexivity.
Qed.

(** C3, on the code: a page reached by a path is answered as a file, and
    so is the index of a directory; their bytes are the ones on the disk,
    where the rewrite would have changed them. *)
Lemma subpath_html_not_rewritten :
  returns (serve_preview demo_world "t" "about.html" 10) demo_state
          (FileResponse ["tmp"; "previews"; "t"; "about.html"] "text/html") demo_state /\
  response_body demo_disk (FileResponse ["tmp"; "previews"; "t"; "about.html"] "text/html")
    = Some "<link href='a.css'>" /\
  rewrite_html "t" "<link href='a.css'>" = "<link href='/preview/t/a.css'>" /\
  returns (serve_preview demo_world "t" "docs" 10) demo_state
          (FileResponse ["tmp"; "previews"; "t"; "docs"; "index.html"] "text/html")
          demo_state /\
  response_body demo_disk
    (FileResponse ["tmp"; "previews"; "t"; "docs"; "index.html"] "text/html")
    = Some "<script src='d.js'></script>" /\
  rewrite_html "t" "<script src='d.js'></script>"
    = "<script src='/preview/t/d.js'></script>".
Proof.
  split.
  { exact (serve_preview_live demo_world "t" "about.html" demo_preview 10 demo_state
             eq_refl eq_refl eq_refl). }
  split; [vm_compute; reflexivity|].
  split; [vm_compute; reflexivity|].
  split.
  { exact (serve_preview_live demo_world "t" "docs" demo_preview 10 demo_state
             eq_refl eq_refl eq_refl). }
  split; vm_compute; reflexivity.
Qed.

(** The page made up names one of the six entry files, and is read back
    as it was written. *)
Lemma main_entry_listed (fs : filesystem) (src_dir : Path) (dflt : string) :
  In dflt main_entries -> In (default dflt (find_main_entry fs src_dir)) main_entries.
Proof.
  intros Hdflt. unfold find_main_entry.
  destruct (path_exists fs src_dir); [|exact Hdflt].
  destruct (List.find _ main_entries) as [e|] eqn:Hfind; [|exact Hdflt].
  apply find_some in Hfind. tauto.
Qed.

Lemma decode_fallback_index (main_entry : string) :
  In main_entry main_entries ->
  decode_text (fallback_index main_entry) = Some (fallback_index main_entry).
Proof.
  intros H. unfold main_entries in H. simpl in H.
  destruct H as [<-|[<-|[<-|[<-|[<-|[<-|[]]]]]]]; vm_compute; reflexivity.
Qed.

Lemma write_then_read_utf8 (fs fs' : filesystem) (p : Path) (c : string) :
  write_text fs p c = Some fs' -> read_text_utf8 fs' p = decode_text c.
Proof.
  intros H. unfold read_text_utf8. rewrite (write_then_read _ _ _ _ H). reflexivity.
Qed.

(** C3, on the code: an entry page whose bytes are not UTF-8 text is
    answered as the file on the disk, where the rewrite would have
    changed its reference. *)
Lemma entry_page_not_utf8_not_rewritten :
  (serve_files demo_world latin1_disk "l" ["tmp"; "previews"; "l"] "").1
  = FileResponse ["tmp"; "previews"; "l"; "index.html"] "text/html" /\
  response_body latin1_disk
    (FileResponse ["tmp"; "previews"; "l"; "index.html"] "text/html")
  = Some latin1_page /\
  decode_text latin1_page = None.
Proof. repeat split; vm_compute; reflexivity. Qed.

(** C3, amended: the rewrite is applied to the answers for the entry
    page, that is for the empty path and for [/], and to no other. An
    entry page that is found and can be read as UTF-8 text is answered
    with the rewrite of that text. The HTML of an answer for the entry
    page is always the rewrite of a page that is on the disk after the
    request, read as UTF-8 text (the entry page found, or the page made
    up and written for a project without one). Such a request is
    answered with a file as it is on the disk only when the entry page
    found cannot be read as UTF-8 text. A request with any other path is
    never answered with rewritten HTML. *)
Theorem rewrite_on_entry_page_only
    (w : World) (fs : filesystem) (token : string) (preview_dir : Path)
    (file_path : string) :
  (file_path = "" \/ file_path = "/" ->
   (forall index_path page,
       find_index_file fs
         ([find_static_dir fs preview_dir; preview_dir] ++
          List.filter (path_exists fs)
            (List.map (joinpath preview_dir) ["dist"; "build"; "out"; "public"]))
       = Some index_path ->
       read_text_utf8 fs index_path = Some page ->
       serve_files w fs token preview_dir file_path
       = (HTMLResponse (rewrite_html token page) (get_mime_type index_path), fs)) /\
   (forall content mime,
       (serve_files w fs token preview_dir file_path).1 = HTMLResponse content mime ->
       exists page_path page,
         read_text_utf8 (serve_files w fs token preview_dir file_path).2 page_path
           = Some page /\
         content = rewrite_html token page) /\
   (forall file mime,
       (serve_files w fs token preview_dir file_path).1 = FileResponse file mime ->
       is_file fs file = true /\ read_text_utf8 fs file = None /\
       (serve_files w fs token preview_dir file_path).2 = fs)) /\
  (file_path <> "" -> file_path <> "/" ->
   forall content mime,
     (serve_files w fs token preview_dir file_path).1 <> HTMLResponse content mime).
Proof.
  split.
  - intros Hentry.
    assert (Hb : String.eqb file_path "" || String.eqb file_path "/" = true)
      by (destruct Hentry as [-> | ->]; reflexivity).
    unfold serve_files. rewrite Hb. split; [|split].
    + intros index_path page Hf Hread. unfold serve_index.
      rewrite Hf, Hread. reflexivity.
    + intros content mime. unfold serve_index.
      destruct (find_index_file fs _) as [index_path|] eqn:Hf.
      * destruct (read_text_utf8 fs index_path) as [page|] eqn:Hread; [|discriminate].
        intros [= <- _]. exists index_path, page. auto.
      * destruct (path_exists fs (preview_dir // "package.json") ||
                  path_exists fs (preview_dir // "src")); [|discriminate].
        destruct (write_text fs _ _) as [fs'|] eqn:Hw; [|discriminate].
        intros [= <- _]. apply write_then_read_utf8 in Hw. cbn [snd].
        eexists _, _. split; [|reflexivity]. rewrite Hw.
        destruct (is_react_project w fs _);
          apply decode_fallback_index, main_entry_listed;
          unfold main_entries; simpl; tauto.
    + intros file mime H. apply serve_index_file in H. tauto.
  - intros H1 H2 content mime. unfold serve_files.
    destruct (String.eqb_spec file_path ""); [contradiction|].
    destruct (String.eqb_spec file_path "/"); [contradiction|].
    cbn [orb fst]. unfold serve_file.
    repeat match goal with
           | |- context [if ?b then _ else _] => destruct b
           | |- context [match ?o with Some _ => _ | None => _ end] => destruct o
           end; discriminate.
Qed.

Lemma rewrite_on_entry_page_only_witness :
  exists page_path page,
    read_text_utf8 (serve_files demo_world demo_disk "t" ["tmp"; "previews"; "t"] "").2
                   page_path
      = Some page /\
    "<link href='/preview/t/a.css'>" = rewrite_html "t" page.
Proof.
  apply (proj1 (proj2 (proj1 (rewrite_on_entry_page_only demo_world demo_disk "t"
                                ["tmp"; "previews"; "t"] "") (or_introl eq_refl)))
               "<link href='/preview/t/a.css'>" "text/html").
  vm_compute. reflexivity.
Defined.

(** ** Provisioning *)

Lemma returns_Do_Ret {B : Type} (f : State -> B * State) (st : State) :
  returns (Do f Ret) st (f st).1 (f st).2.
Proof. apply returns_Do. apply returns_Ret. Qed.

Lemma register_preview_free (token : string) (preview_dir : Path) (port : Z)
    (pid : nat) (now : Z) (st : State) :
  lock st = false ->
  returns (register_preview token preview_dir port pid now) st tt
          (set_previews (<[token := mkPreview preview_dir port pid (now + 600) now]>
                           (previews st)) st).
Proof.
  intros Hl. exists 5%nat. destruct st as [m l d a]. simpl in *. subst l. reflexivity.
Qed.

Lemma install_failure (w : World) (preview_dir : Path) (fs : filesystem) :
  path_exists fs (preview_dir // "package.json") = true ->
  (npm_install w fs).1 <> Exited 0 ->
  (install_dependencies w preview_dir fs).1 = false.
Proof.
  intros He Hn. unfold install_dependencies. rewrite He. simpl.
  destruct (npm_install w fs) as [[rc| |] fs']; try reflexivity.
  simpl in *. destruct (Z.eqb_spec rc 0); [subst; contradiction | reflexivity].
Qed.

Lemma build_failure (w : World) (preview_dir : Path) (fs : filesystem)
    (text : string) (scripts : list string) :
  read_text fs (preview_dir // "package.json") = Some text ->
  json_scripts w text = Some scripts ->
  In "build" scripts ->
  (npm_run_build w fs).1 <> Exited 0 ->
  (build_project w preview_dir fs).1 = false.
Proof.
  intros Hr Hj Hin Hn. unfold build_project.
  rewrite (is_file_exists _ _ (read_text_is_file _ _ _ Hr)). cbn [negb].
  rewrite Hr, Hj.
  assert (Hb : existsb (String.eqb "build") scripts = true).
  { apply existsb_exists. exists "build". split; [exact Hin | reflexivity]. }
  rewrite Hb. cbn [negb].
  destruct (npm_run_build w fs) as [[rc| |] fs']; try reflexivity.
  cbn [fst] in *. destruct (Z.eqb_spec rc 0); [subst; contradiction | reflexivity].
Qed.

(** C8: a dependency install that fails or times out returns [False]
    and a build that fails or times out returns [False], and neither
    stops the creation: whatever the two steps return, once the archive
    is extracted, a port is free and the server process starts,
    [create_preview] returns the preview and has registered it, with the
    process rooted at the directory [find_static_files] picks on the disk
    as install and build left it. *)
Theorem provisioning_degrades
    (w : World) (zip_data : archive) (base_url : string) (now : Z) (st : State)
    (fs1 fs2 fs3 fs4 : filesystem) (installed built : bool) (port : Z) (pid : nat) :
  lock st = false ->
  makedirs (create_preview_directory (uuid4 w)) (disk st) = (true, fs1) ->
  extract_zip_to_directory zip_data (create_preview_directory (uuid4 w)) fs1
    = (true, fs2) ->
  install_dependencies w (create_preview_directory (uuid4 w)) fs2 = (installed, fs3) ->
  build_project w (create_preview_directory (uuid4 w)) fs3 = (built, fs4) ->
  find_available_port w 3000 = Some port ->
  popen w (find_static_files fs4 (create_preview_directory (uuid4 w))) port = Some pid ->
  (path_exists fs2 (create_preview_directory (uuid4 w) // "package.json") = true ->
   (npm_install w fs2).1 <> Exited 0 -> installed = false) /\
  (forall text scripts,
     read_text fs3 (create_preview_directory (uuid4 w) // "package.json") = Some text ->
     json_scripts w text = Some scripts ->
     In "build" scripts ->
     (npm_run_build w fs3).1 <> Exited 0 -> built = false) /\
  exists st',
    returns (create_preview w zip_data base_url now) st
      (Created (mkPreviewInfo (base_url +:+ "/preview/" +:+ uuid4 w) (uuid4 w)
                              (now + 600) port)) st' /\
    previews st' !! uuid4 w
      = Some (mkPreview (create_preview_directory (uuid4 w)) port pid (now + 600) now) /\
    pid ∈ alive st' /\
    disk st' = fs4 /\
    lock st' = false.
Proof.
  intros Hl Hmk Hex Hi Hb Hport Hpopen.
  split.
  { intros He Hn. pose proof (install_failure w _ fs2 He Hn) as H.
    rewrite Hi in H. exact H. }
  split.
  { intros text scripts Hr Hj Hin Hn.
    pose proof (build_failure w _ fs3 text scripts Hr Hj Hin Hn) as H.
    rewrite Hb in H. exact H. }
  eexists. split.
  - unfold create_preview.
    eapply returns_bind; [apply returns_Do_Ret|]. cbn beta. rewrite Hmk. cbn [fst snd negb].
    eapply returns_bind; [apply returns_Do_Ret|]. cbn beta.
    cbn [disk set_disk]. rewrite Hex. cbn [fst snd negb].
    eapply returns_bind; [apply returns_Do_Ret|]. cbn beta. cbn [disk set_disk].
    rewrite Hi. cbn [fst snd].
    eapply returns_bind; [apply returns_Do_Ret|]. cbn beta. cbn [disk set_disk].
    rewrite Hb. cbn [fst snd].
    rewrite Hport.
    eapply returns_bind; [apply returns_Do_Ret|]. cbn beta.
    unfold start_preview_server. cbn [disk set_disk]. rewrite Hpopen. cbn [fst snd].
    eapply returns_bind; [apply register_preview_free; exact Hl|].
    apply returns_Ret.
  - cbn. rewrite lookup_insert_eq. split; [reflexivity|].
    split; [set_solver|]. split; [reflexivity | exact Hl].
Qed.

Lemma provisioning_degrades_witness :
  exists st',
    returns (create_preview demo_world demo_archive "http://localhost" 5) empty_state
      (Created (mkPreviewInfo "http://localhost/preview/t" "t" 605 3002)) st' /\
    previews st' !! "t" = Some (mkPreview ["tmp"; "previews"; "t"] 3002 9 605 5) /\
    9%nat ∈ alive st' /\
    disk st' = (extract_zip_to_directory demo_archive ["tmp"; "previews"; "t"]
                  (makedirs ["tmp"; "previews"; "t"] root_disk).2).2 /\
    lock st' = false.
Proof.
  apply (provisioning_degrades demo_world demo_archive "http://localhost" 5 empty_state
           (makedirs ["tmp"; "previews"; "t"] root_disk).2
           (extract_zip_to_directory demo_archive ["tmp"; "previews"; "t"]
              (makedirs ["tmp"; "previews"; "t"] root_disk).2).2
           (extract_zip_to_directory demo_archive ["tmp"; "previews"; "t"]
              (makedirs ["tmp"; "previews"; "t"] root_disk).2).2
           (extract_zip_to_directory demo_archive ["tmp"; "previews"; "t"]
              (makedirs ["tmp"; "previews"; "t"] root_disk).2).2
           false false 3002 9%nat);
    reflexivity.
Defined.

(** ** Extraction of the archive *)

Lemma only_below_refl (target : Path) (fs : filesystem) : only_below target fs fs.
Proof. intros p. left. reflexivity. Qed.

Lemma only_below_trans (target : Path) (fs1 fs2 fs3 : filesystem) :
  only_below target fs1 fs2 -> only_below target fs2 fs3 -> only_below target fs1 fs3.
Proof.
  intros H12 H23 p.
  destruct (H12 p) as [E1 | [U1 | [A1 [N1 D1]]]]; [| auto |].
  - destruct (H23 p) as [E2 | [U2 | [A2 [N2 D2]]]]; [| auto |].
    + left. congruence.
    + right. right. repeat split; congruence.
  - destruct (H23 p) as [E2 | [U2 | [A2 [N2 D2]]]]; [| auto |].
    + right. right. repeat split; congruence.
    + congruence.
Qed.

Lemma update_other (fs : filesystem) (p q : Path) (n : node) :
  q <> p -> update fs p n q = fs q.
Proof. intros H. unfold update, path_eqb. rewrite bool_decide_eq_false_2; auto. Qed.

Lemma update_same (fs : filesystem) (p : Path) (n : node) : update fs p n p = Some n.
Proof. unfold update, path_eqb. rewrite bool_decide_eq_true_2; auto. Qed.

(** [makedirs] only makes directories, where there was nothing, on the
    way from [cur] to [cur ++ rest]. *)
Lemma makedirs_from_changes (rest cur : Path) (fs : filesystem) (p : Path) :
  (makedirs_from cur rest fs).2 p = fs p \/
  (fs p = None /\ (makedirs_from cur rest fs).2 p = Some Dir /\
   exists a b, b <> [] /\ rest = b ++ a /\ p = cur ++ b).
Proof.
  revert cur fs. induction rest as [|c rest IH]; intros cur fs; simpl; [auto|].
  assert (Hext : forall a b, rest = b ++ a -> p = (cur ++ [c]) ++ b ->
                 exists a' b', b' <> [] /\ c :: rest = b' ++ a' /\ p = cur ++ b').
  { intros a b Hr Hp. exists a, (c :: b).
    split; [discriminate|]. split; [simpl; congruence|].
    rewrite Hp, <- app_assoc. reflexivity. }
  destruct (fs (cur ++ [c])) as [[f|]|] eqn:Hc.
  - auto.
  - destruct (IH (cur ++ [c]) fs) as [E | [N [D [a [b [Hb [Hr Hp]]]]]]]; [auto|].
    right. split; [exact N|]. split; [exact D|]. eapply Hext; eassumption.
  - destruct (IH (cur ++ [c]) (update fs (cur ++ [c]) Dir))
      as [E | [N [D [a [b [Hb [Hr Hp]]]]]]].
    + rewrite E. destruct (decide (p = cur ++ [c])) as [->|Hne].
      * right. rewrite update_same. split; [exact Hc|]. split; [reflexivity|].
        exists rest, [c]. split; [discriminate|]. split; reflexivity.
      * left. apply update_other. exact Hne.
    + right. destruct (decide (p = cur ++ [c])) as [->|Hne].
      * rewrite update_same in N. discriminate.
      * rewrite update_other in N by exact Hne.
        split; [exact N|]. split; [exact D|]. eapply Hext; eassumption.
Qed.

Lemma prefix_of_extension (target parts a b p : Path) :
  target ++ parts = b ++ a -> p = b ->
  is_under p target = true \/ is_under target p = true.
Proof.
  intros H ->. revert b H. induction target as [|x target IH]; intros b H.
  - left. apply is_under_iff. exists b. reflexivity.
  - destruct b as [|y b].
    + right. apply is_under_iff. eexists. reflexivity.
    + simpl in H. injection H as <- H.
      destruct (IH b H) as [U|U]; [left|right];
        apply is_under_iff in U; destruct U as [r Hr]; apply is_under_iff;
        exists r; simpl; congruence.
Qed.

Lemma makedirs_only_below (target parts dirs rest : Path) (fs : filesystem) :
  target ++ parts = dirs ++ rest ->
  only_below target fs (makedirs dirs fs).2.
Proof.
  intros H p. unfold makedirs.
  destruct (makedirs_from_changes dirs [] fs p) as [E | [N [D [a [b [Hb [Hr Hp]]]]]]];
    [auto|].
  simpl in Hp. subst p.
  assert (Hsplit : target ++ parts = b ++ (a ++ rest))
    by (rewrite H, Hr, <- app_assoc; reflexivity).
  destruct (prefix_of_extension _ _ _ _ b Hsplit eq_refl) as [U|U]; auto.
Qed.

Lemma arcname_parts_valid (filename : string) :
  Forall (fun c => valid_part c = true) (arcname_parts filename).
Proof.
  unfold arcname_parts. apply List.Forall_forall. intros c Hc.
  apply filter_In in Hc. tauto.
Qed.

Lemma valid_part_not_dotdot (c : string) :
  valid_part c = true -> String.eqb c ".." = false.
Proof.
  unfold valid_part. destruct (String.eqb c ".."); [|reflexivity].
  rewrite andb_false_r. discriminate.
Qed.

Lemma fold_step_valid (parts cur : Path) :
  Forall (fun c => valid_part c = true) parts ->
  fold_left step parts cur = cur ++ parts.
Proof.
  revert cur. induction parts as [|c parts IH]; intros cur H; simpl.
  - rewrite app_nil_r. reflexivity.
  - inversion H; subst. unfold step at 2.
    rewrite valid_part_not_dotdot by assumption.
    rewrite IH by assumption. rewrite <- app_assoc. reflexivity.
Qed.

Lemma canonical_resolve (p : Path) : canonical p = true -> resolve p = p.
Proof.
  unfold canonical, resolve.
  assert (H : forall cur, forallb (fun c => negb (String.eqb c "..")) p = true ->
                          fold_left step p cur = cur ++ p).
  { induction p as [|c p IH]; intros cur Hc; simpl in *.
    - rewrite app_nil_r. reflexivity.
    - apply andb_true_iff in Hc. destruct Hc as [Hc1 Hc2].
      unfold step at 2. destruct (String.eqb c ".."); [discriminate|].
      rewrite IH by assumption. rewrite <- app_assoc. reflexivity. }
  intros Hc. apply (H [] Hc).
Qed.

(** A member lands at the target followed by the parts of its name that
    are kept. *)
Lemma walk_member (fs : filesystem) (targetpath : Path) (filename : string) (q : Path) :
  canonical targetpath = true ->
  walk fs [] (targetpath ++ arcname_parts filename) = Some q ->
  q = targetpath ++ arcname_parts filename.
Proof.
  intros Hc Hw. apply walk_resolve in Hw. rewrite Hw.
  rewrite fold_left_app. fold (resolve targetpath).
  rewrite canonical_resolve by assumption.
  apply fold_step_valid. apply arcname_parts_valid.
Qed.

Lemma update_only_below (target rest : Path) (n : node) (fs : filesystem) :
  only_below target fs (update fs (target ++ rest) n).
Proof.
  intros p. destruct (decide (p = target ++ rest)) as [->|Hne].
  - right. left. apply is_under_iff. eauto.
  - left. apply update_other. exact Hne.
Qed.

Lemma write_text_only_below (fs fs' : filesystem) (targetpath : Path)
    (filename content : string) :
  canonical targetpath = true ->
  write_text fs (targetpath ++ arcname_parts filename) content = Some fs' ->
  only_below targetpath fs fs'.
Proof.
  intros Hc. unfold write_text.
  destruct (walk fs [] _) as [q|] eqn:Hw; [|discriminate].
  apply walk_member in Hw; [|assumption]. subst q.
  destruct (fs _) as [[|]|]; try discriminate; intros [= <-];
    apply update_only_below.
Qed.

Lemma extract_member_only_below (targetpath : Path) (filename content : string)
    (fs : filesystem) :
  canonical targetpath = true ->
  only_below targetpath fs (extract_member targetpath filename content fs).2.
Proof.
  intros Hc. unfold extract_member.
  set (target := targetpath ++ arcname_parts filename).
  assert (H1 : only_below targetpath fs
                 (if negb (path_exists fs (removelast target))
                  then makedirs (removelast target) fs else (true, fs)).2).
  { destruct (negb (path_exists fs (removelast target))); [|apply only_below_refl].
    destruct (decide (target = [])) as [He|Hne].
    - rewrite He. apply only_below_refl.
    - apply (makedirs_only_below targetpath (arcname_parts filename)
               (removelast target) [List.last target ""]).
      fold target. apply app_removelast_last. exact Hne. }
  destruct (if negb (path_exists fs (removelast target))
            then makedirs (removelast target) fs else (true, fs)) as [[|] fs1];
    [|exact H1].
  cbn [snd] in H1.
  destruct (last_char filename) as [c|]; [|exact H1].
  destruct (Ascii.eqb c "/").
  - destruct (is_dir fs1 target); [exact H1|].
    destruct (walk fs1 [] target) as [q|] eqn:Hw; [|exact H1].
    apply walk_member in Hw; [|assumption]. subst q.
    destruct (fs1 _); [exact H1|].
    eapply only_below_trans; [exact H1|]. apply update_only_below.
  - destruct (write_text fs1 target content) as [fs2|] eqn:Hwr; [|exact H1].
    eapply only_below_trans; [exact H1|].
    eapply write_text_only_below; eassumption.
Qed.

Lemma extract_names_only_below (targetpath : Path) (names : list string)
    (members : list member) (fs : filesystem) :
  canonical targetpath = true ->
  only_below targetpath fs (extract_names targetpath names members fs).2.
Proof.
  intros Hc. revert fs. induction names as [|name names IH]; intros fs; simpl.
  - apply only_below_refl.
  - destruct (getinfo name members) as [content|]; [|apply only_below_refl].
    pose proof (extract_member_only_below targetpath name content fs Hc) as H1.
    destruct (extract_member targetpath name content fs) as [[|] fs1]; [|exact H1].
    eapply only_below_trans; [exact H1 | apply IH].
Qed.

Lemma extract_zip_only_below (zip_data : archive) (target_dir : Path) (fs : filesystem) :
  canonical target_dir = true ->
  only_below target_dir fs (extract_zip_to_directory zip_data target_dir fs).2.
Proof.
  intros Hc. unfold extract_zip_to_directory.
  pose proof (makedirs_only_below target_dir [] target_dir [] fs eq_refl) as H1.
  destruct (makedirs target_dir fs) as [[|] fs1]; [|exact H1].
  destruct zip_data as [members|]; [|exact H1].
  eapply only_below_trans; [exact H1|].
  apply extract_names_only_below. exact Hc.
Qed.

(** A member without a name stops the extraction. *)
Lemma extract_names_empty_name (targetpath : Path) (names : list string)
    (members : list member) (fs : filesystem) :
  In "" names -> (extract_names targetpath names members fs).1 = false.
Proof.
  revert fs. induction names as [|name names IH]; intros fs Hin; [destruct Hin|].
  simpl. destruct (getinfo name members) as [content|]; [|reflexivity].
  destruct (extract_member targetpath name content fs) as [[|] fs1] eqn:He;
    [|reflexivity].
  destruct Hin as [-> | Hin]; [|apply IH; exact Hin].
  unfold extract_member in He. simpl last_char in He.
  destruct (if negb _ then _ else _) as [[|] ?]; discriminate.
Qed.

Lemma last_char_cons (c : ascii) (s : string) :
  s <> "" -> last_char (String c s) = last_char s.
Proof. destruct s; [contradiction | reflexivity]. Qed.

(** A leading slash or a leading [../] changes nothing for a member. *)
Lemma extract_member_sanitised (targetpath : Path) (name content : string)
    (fs : filesystem) :
  name <> "" ->
  extract_member targetpath ("/" +:+ name) content fs
    = extract_member targetpath name content fs /\
  extract_member targetpath ("../" +:+ name) content fs
    = extract_member targetpath name content fs.
Proof.
  intros Hne. unfold extract_member.
  assert (H1 : arcname_parts ("/" +:+ name) = arcname_parts name) by reflexivity.
  assert (H2 : arcname_parts ("../" +:+ name) = arcname_parts name).
  { change ("../" +:+ name) with (String "." (String "." (String "/" name))).
    unfold arcname_parts. cbn [split_slash]. simpl Ascii.eqb. cbn iota.
    destruct (split_slash name) as [|w ws] eqn:Hs; reflexivity. }
  assert (H3 : last_char ("/" +:+ name) = last_char name)
    by (apply last_char_cons; exact Hne).
  assert (H4 : last_char ("../" +:+ name) = last_char name).
  { change ("../" +:+ name) with (String "." (String "." (String "/" name))).
    destruct name; [contradiction | reflexivity]. }
  rewrite H1, H2, H3, H4. split; reflexivity.
Qed.

Lemma extract_member_lands (targetpath : Path) (name content : string)
    (fs fs' : filesystem) :
  extract_member targetpath name content fs = (true, fs') ->
  (forall c, last_char name = Some c -> c <> "/"%char) ->
  read_text fs' (targetpath ++ arcname_parts name) = Some content.
Proof.
  unfold extract_member. intros He Hfile.
  destruct (if negb _ then _ else _) as [[|] fs1]; [|discriminate].
  destruct (last_char name) as [c|]; [|discriminate].
  destruct (Ascii.eqb c "/") eqn:E.
  { apply Ascii.eqb_eq in E. exfalso. eapply Hfile; [reflexivity | exact E]. }
  destruct (write_text fs1 _ content) as [fs2|] eqn:Hw; [|discriminate].
  injection He as <-. eapply write_then_read. exact Hw.
Qed.

Lemma fold_step_canonical (p cur : Path) :
  canonical p = true -> fold_left step p cur = cur ++ p.
Proof.
  unfold canonical. revert cur. induction p as [|c p IH]; intros cur Hc; simpl in *.
  - rewrite app_nil_r. reflexivity.
  - apply andb_true_iff in Hc. destruct Hc as [Hc1 Hc2].
    unfold step at 2. destruct (String.eqb c ".."); [discriminate|].
    rewrite IH by assumption. rewrite <- app_assoc. reflexivity.
Qed.

Lemma walk_canonical (fs : filesystem) (rest cur q : Path) :
  canonical rest = true -> walk fs cur rest = Some q -> q = cur ++ rest.
Proof.
  intros Hc Hw. apply walk_resolve in Hw. rewrite Hw.
  apply fold_step_canonical. exact Hc.
Qed.

Lemma canonical_app (a b : Path) :
  canonical (a ++ b) = canonical a && canonical b.
Proof. unfold canonical. apply forallb_app. Qed.

Lemma step_canonical (cur : Path) (c : string) :
  canonical [c] = true -> step cur c = cur ++ [c].
Proof.
  unfold canonical, step. simpl. destruct (String.eqb c ".."); [discriminate|].
  reflexivity.
Qed.

(** A walk along a path without [..] passes through directories only. *)
Lemma walk_dirs (fs : filesystem) (rest cur q : Path) :
  canonical rest = true ->
  walk fs cur rest = Some q ->
  forall b a, rest = b ++ a -> a <> [] -> fs (cur ++ b) = Some Dir.
Proof.
  revert cur. induction rest as [|c rest IH]; intros cur Hc Hw b a Hsplit Ha.
  - destruct b; [|discriminate]. simpl in Hsplit. subst a. contradiction.
  - change (c :: rest) with ([c] ++ rest) in Hc. rewrite canonical_app in Hc.
    apply andb_true_iff in Hc. destruct Hc as [Hc1 Hc2].
    simpl in Hw. destruct (fs cur) as [[|]|] eqn:Hcur; try discriminate.
    rewrite step_canonical in Hw by exact Hc1.
    destruct b as [|c' b].
    + rewrite app_nil_r. exact Hcur.
    + simpl in Hsplit. injection Hsplit as <- Hsplit.
      change (cur ++ c :: b) with (cur ++ [c] ++ b). rewrite app_assoc.
      exact (IH (cur ++ [c]) Hc2 Hw b a Hsplit Ha).
Qed.

(** [makedirs] of a directory that exists changes nothing. *)
Lemma makedirs_from_existing (fs : filesystem) (rest cur q : Path) :
  canonical rest = true ->
  walk fs cur rest = Some q ->
  fs q = Some Dir ->
  makedirs_from cur rest fs = (true, fs).
Proof.
  revert cur. induction rest as [|c rest IH]; intros cur Hc Hw Hq; [reflexivity|].
  change (c :: rest) with ([c] ++ rest) in Hc. rewrite canonical_app in Hc.
  apply andb_true_iff in Hc. destruct Hc as [Hc1 Hc2].
  simpl in Hw. destruct (fs cur) as [[|]|] eqn:Hcur; try discriminate.
  rewrite step_canonical in Hw by exact Hc1.
  assert (Hd : fs (cur ++ [c]) = Some Dir).
  { destruct rest as [|c' rest'].
    - simpl in Hw. injection Hw as <-. exact Hq.
    - simpl in Hw. destruct (fs (cur ++ [c])) as [[|]|]; try discriminate. reflexivity. }
  simpl. rewrite Hd. apply (IH (cur ++ [c]) Hc2 Hw Hq).
Qed.

(** [makedirs] succeeds when no file is on the way, and then the whole
    path can be walked and ends in a directory. *)
Lemma makedirs_from_ok (rest cur : Path) (fs : filesystem) :
  canonical rest = true ->
  fs cur = Some Dir ->
  (forall b a, rest = b ++ a -> b <> [] -> forall c, fs (cur ++ b) <> Some (File c)) ->
  (makedirs_from cur rest fs).1 = true /\
  walk (makedirs_from cur rest fs).2 cur rest = Some (cur ++ rest) /\
  (makedirs_from cur rest fs).2 (cur ++ rest) = Some Dir.
Proof.
  revert cur fs. induction rest as [|c rest IH]; intros cur fs Hc Hcur Hfree.
  - simpl. rewrite app_nil_r. auto.
  - change (c :: rest) with ([c] ++ rest) in Hc. rewrite canonical_app in Hc.
    apply andb_true_iff in Hc. destruct Hc as [Hc1 Hc2].
    assert (Hshift : forall fs0 : filesystem,
               (forall p, fs0 p = fs p \/ fs0 p = Some Dir) ->
               forall b a, rest = b ++ a -> b <> [] ->
               forall c0, fs0 ((cur ++ [c]) ++ b) <> Some (File c0)).
    { intros fs0 H0 b a Hsplit Hb c0. rewrite <- app_assoc. simpl.
      destruct (H0 (cur ++ c :: b)) as [-> | ->]; [|discriminate].
      apply (Hfree (c :: b) a); [simpl; congruence | discriminate]. }
    assert (Hfinish : forall fs0 : filesystem,
               fs0 cur = Some Dir -> fs0 (cur ++ [c]) = Some Dir ->
               (forall p, fs0 p = fs p \/ fs0 p = Some Dir) ->
               (makedirs_from (cur ++ [c]) rest fs0).1 = true /\
               walk (makedirs_from (cur ++ [c]) rest fs0).2 cur (c :: rest)
                 = Some (cur ++ c :: rest) /\
               (makedirs_from (cur ++ [c]) rest fs0).2 (cur ++ c :: rest) = Some Dir).
    { intros fs0 H0cur H0c H0.
      destruct (IH (cur ++ [c]) fs0 Hc2 H0c (Hshift fs0 H0)) as [I1 [I2 I3]].
      rewrite <- app_assoc in I2, I3. simpl in I2, I3.
      split; [exact I1|]. split; [|exact I3].
      simpl. destruct (makedirs_from_changes rest (cur ++ [c]) fs0 cur) as [E | [N _]].
      - rewrite E, H0cur. rewrite step_canonical by exact Hc1. exact I2.
      - rewrite H0cur in N. discriminate. }
    simpl. destruct (fs (cur ++ [c])) as [[f|]|] eqn:Hcc.
    + exfalso. apply (Hfree [c] rest eq_refl ltac:(discriminate) f). exact Hcc.
    + apply Hfinish; auto.
    + apply Hfinish.
      * rewrite update_other; [exact Hcur|].
        intros Heq. apply (f_equal length) in Heq. rewrite length_app in Heq.
        simpl in Heq. lia.
      * apply update_same.
      * intros p. destruct (decide (p = cur ++ [c])) as [->|Hne].
        -- right. apply update_same.
        -- left. apply update_other. exact Hne.
Qed.

Lemma valid_parts_canonical (filename : string) :
  canonical (arcname_parts filename) = true.
Proof.
  unfold canonical. apply forallb_forall. intros c Hc.
  pose proof (arcname_parts_valid filename) as Hv.
  rewrite List.Forall_forall in Hv. rewrite (valid_part_not_dotdot c (Hv c Hc)).
  reflexivity.
Qed.

Lemma last_char_None (s : string) : last_char s = None -> s = "".
Proof.
  induction s as [|c s IH]; [reflexivity|]. simpl.
  destruct s; [discriminate|]. intros H. specialize (IH H). discriminate.
Qed.

Lemma empty_dir_root (fs : filesystem) (d : Path) :
  canonical d = true -> empty_dir fs d ->
  walk fs [] d = Some d /\ fs d = Some Dir /\ fs [] = Some Dir.
Proof.
  intros Hc [Hdir _]. unfold is_dir, stat in Hdir.
  destruct (walk fs [] d) as [q|] eqn:Hw; [|discriminate].
  pose proof (walk_canonical fs d [] q Hc Hw) as Hq. simpl in Hq. subst q.
  destruct (fs d) as [[|]|] eqn:Hd; try discriminate.
  split; [reflexivity|]. split; [reflexivity|].
  destruct d as [|c d]; [exact Hd|].
  apply (walk_dirs fs (c :: d) [] (c :: d) Hc Hw [] (c :: d)); [reflexivity | discriminate].
Qed.

(** Below an empty directory nothing is in the way of [makedirs]. *)
Lemma empty_dir_free (fs : filesystem) (d u b a : Path) :
  canonical d = true -> empty_dir fs d ->
  d ++ u = b ++ a -> b <> [] ->
  fs b = Some Dir \/ fs b = None.
Proof.
  intros Hc He Hsplit Hb.
  destruct (empty_dir_root fs d Hc He) as [Hw [Hd _]].
  apply List.app_eq_app in Hsplit. destruct Hsplit as [l [[H1 H2] | [H1 H2]]].
  - destruct l as [|x l].
    + rewrite app_nil_r in H1. subst b. auto.
    + left. apply (walk_dirs fs d [] d Hc Hw b (x :: l)); [exact H1 | discriminate].
  - destruct l as [|x l].
    + rewrite app_nil_r in H1. subst b. auto.
    + right. destruct He as [_ He]. apply He.
      * apply is_under_iff. eauto.
      * rewrite H1. intros Heq. apply (f_equal length) in Heq.
        rewrite length_app in Heq. simpl in Heq. lia.
Qed.

(** Into an empty directory a member with a name that keeps at least one
    part, and that is not a directory member, is always extracted. *)
Lemma extract_member_fresh (fs : filesystem) (targetpath : Path)
    (name content : string) :
  canonical targetpath = true ->
  empty_dir fs targetpath ->
  arcname_parts name <> [] ->
  (forall c, last_char name = Some c -> c <> "/"%char) ->
  (extract_member targetpath name content fs).1 = true.
Proof.
  intros Hc He Hparts Hfile.
  destruct (empty_dir_root fs targetpath Hc He) as [Hw [Hd Hroot]].
  pose proof (valid_parts_canonical name) as Hpc.
  unfold extract_member.
  set (P := arcname_parts name) in *.
  destruct (exists_last Hparts) as [U [x HP]].
  assert (Hup : removelast (targetpath ++ P) = targetpath ++ U).
  { rewrite HP, app_assoc. apply removelast_last. }
  rewrite Hup.
  assert (HcU : canonical (targetpath ++ U) = true).
  { rewrite canonical_app, Hc. rewrite HP, canonical_app in Hpc.
    apply andb_true_iff in Hpc. destruct Hpc as [-> _]. reflexivity. }
  assert (Hcx : canonical [x] = true).
  { rewrite HP, canonical_app in Hpc. apply andb_true_iff in Hpc. tauto. }
  assert (HtP : fs (targetpath ++ P) = None).
  { destruct He as [_ He]. apply He; [apply is_under_iff; eauto|].
    intros Heq. apply (f_equal length) in Heq. rewrite length_app in Heq.
    destruct P; [contradiction | simpl in Heq; lia]. }
  assert (Hstep :
    exists fs1,
      (if negb (path_exists fs (targetpath ++ U))
       then makedirs (targetpath ++ U) fs else (true, fs)) = (true, fs1) /\
      walk fs1 [] (targetpath ++ U) = Some (targetpath ++ U) /\
      fs1 (targetpath ++ U) = Some Dir /\
      fs1 (targetpath ++ P) = None).
  { destruct (path_exists fs (targetpath ++ U)) eqn:Hex; cbn [negb].
    - exists fs. split; [reflexivity|].
      unfold path_exists, stat in Hex.
      destruct (walk fs [] (targetpath ++ U)) as [q|] eqn:HwU; [|discriminate].
      pose proof (walk_canonical fs _ [] q HcU HwU) as Hq. simpl in Hq. subst q.
      split; [reflexivity|]. split; [|exact HtP].
      destruct U as [|u U].
      + rewrite app_nil_r. exact Hd.
      + destruct He as [_ He]. rewrite He in Hex; [discriminate | |].
        * apply is_under_iff. eauto.
        * intros Heq. apply (f_equal length) in Heq. rewrite length_app in Heq.
          simpl in Heq. lia.
    - unfold makedirs.
      destruct (makedirs_from_ok (targetpath ++ U) [] fs HcU Hroot) as [M1 [M2 M3]].
      { intros b a Hsplit Hb c. simpl.
        destruct (empty_dir_free fs targetpath U b a Hc He Hsplit Hb) as [-> | ->];
          discriminate. }
      destruct (makedirs_from [] (targetpath ++ U) fs) as [ok fs1] eqn:Hmk.
      cbn [fst snd] in M1, M2, M3. subst ok. exists fs1.
      split; [reflexivity|]. split; [exact M2|]. split; [exact M3|].
      pose proof (makedirs_from_changes (targetpath ++ U) [] fs (targetpath ++ P)) as Hch.
      rewrite Hmk in Hch. cbn [snd] in Hch.
      destruct Hch as [E | [_ [_ [a [b [_ [Hsplit Hb]]]]]]]; [rewrite E; exact HtP|].
      exfalso. simpl in Hb. apply (f_equal length) in Hsplit, Hb.
      rewrite HP in Hb. rewrite !length_app in Hsplit, Hb. simpl in Hb. lia. }
  destruct Hstep as [fs1 [-> [Hw1 [Hd1 Hn1]]]].
  destruct (last_char name) as [c|] eqn:Hlast.
  2:{ apply last_char_None in Hlast. subst name. contradiction Hparts. reflexivity. }
  destruct (Ascii.eqb c "/") eqn:E.
  { apply Ascii.eqb_eq in E. exfalso. eapply Hfile; [reflexivity | exact E]. }
  unfold write_text.
  assert (HwP : walk fs1 [] (targetpath ++ P) = Some (targetpath ++ P)).
  { rewrite HP, app_assoc, walk_app, Hw1. simpl. rewrite Hd1.
    rewrite step_canonical by exact Hcx. reflexivity. }
  rewrite HwP, Hn1. reflexivity.
Qed.

(** C7, on the code: an archive with an absolute name and a name that
    climbs out is extracted without any error; the two members land
    inside the target directory and nothing appears at [/etc/passwd]. *)
Lemma unsafe_names_are_extracted :
  (extract_zip_to_directory (Some [("/etc/passwd", "x"); ("../evil", "e")])
     ["tmp"; "previews"; "t"] root_disk).1 = true /\
  read_text (extract_zip_to_directory (Some [("/etc/passwd", "x"); ("../evil", "e")])
               ["tmp"; "previews"; "t"] root_disk).2
            ["tmp"; "previews"; "t"; "etc"; "passwd"] = Some "x" /\
  read_text (extract_zip_to_directory (Some [("/etc/passwd", "x"); ("../evil", "e")])
               ["tmp"; "previews"; "t"] root_disk).2
            ["tmp"; "previews"; "t"; "evil"] = Some "e" /\
  (extract_zip_to_directory (Some [("/etc/passwd", "x"); ("../evil", "e")])
     ["tmp"; "previews"; "t"] root_disk).2 ["etc"; "passwd"] = None.
Proof. repeat split; vm_compute; reflexivity. Qed.

(** C7, amended: extraction into a directory [/a/b/...] without [..]
    rejects no member for being absolute or for climbing out. A leading
    slash or [../] is dropped and the member is extracted as the name
    without it; where it succeeds the content is at the target followed
    by the kept parts of the name; and into an empty target directory an
    archive of one file member whose name keeps a part always succeeds.
    Extraction fails on a member with an empty name. Whether it fails or
    not, the disk changes only below the target directory, apart from the
    creation of the target's own missing ancestors. *)
Theorem extraction_sanitises
    (zip_data : archive) (target_dir : Path) (fs : filesystem)
    (name content : string) :
  canonical target_dir = true ->
  only_below target_dir fs (extract_zip_to_directory zip_data target_dir fs).2 /\
  (name <> "" ->
   extract_member target_dir ("/" +:+ name) content fs
     = extract_member target_dir name content fs /\
   extract_member target_dir ("../" +:+ name) content fs
     = extract_member target_dir name content fs) /\
  (forall fs',
     extract_member target_dir name content fs = (true, fs') ->
     (forall c, last_char name = Some c -> c <> "/"%char) ->
     read_text fs' (target_dir ++ arcname_parts name) = Some content /\
     is_under (target_dir ++ arcname_parts name) target_dir = true) /\
  (empty_dir fs target_dir ->
   arcname_parts name <> [] ->
   (forall c, last_char name = Some c -> c <> "/"%char) ->
   (extract_zip_to_directory (Some [(name, content)]) target_dir fs).1 = true /\
   read_text (extract_zip_to_directory (Some [(name, content)]) target_dir fs).2
             (target_dir ++ arcname_parts name) = Some content) /\
  (forall members,
     zip_data = Some members -> In "" members.*1 ->
     (extract_zip_to_directory zip_data target_dir fs).1 = false).
Proof.
  intros Hc. split; [apply extract_zip_only_below; exact Hc|].
  split; [apply extract_member_sanitised|]. split; [|split].
  - intros fs' He Hfile. split; [eapply extract_member_lands; eassumption|].
    apply is_under_iff. eauto.
  - intros He Hparts Hfile.
    destruct (empty_dir_root fs target_dir Hc He) as [Hw [Hd _]].
    unfold extract_zip_to_directory, makedirs.
    rewrite (makedirs_from_existing fs target_dir [] target_dir Hc Hw Hd).
    unfold extractall. cbn [fmap list_fmap fst extract_names getinfo].
    rewrite String.eqb_refl.
    pose proof (extract_member_fresh fs target_dir name content Hc He Hparts Hfile) as Hok.
    destruct (extract_member target_dir name content fs) as [ok fs'] eqn:Hm.
    cbn [fst] in Hok. subst ok. cbn [fst snd]. split; [reflexivity|].
    eapply extract_member_lands; eassumption.
  - intros members -> Hin. unfold extract_zip_to_directory.
    destruct (makedirs target_dir fs) as [[|] fs1]; [|reflexivity].
    apply extract_names_empty_name. exact Hin.
Qed.

Lemma extraction_sanitises_witness :
  only_below ["tmp"; "previews"; "t"] root_disk
    (extract_zip_to_directory (Some [("/etc/passwd", "x"); ("../evil", "e")])
       ["tmp"; "previews"; "t"] root_disk).2.
Proof.
  apply (extraction_sanitises (Some [("/etc/passwd", "x"); ("../evil", "e")])
           ["tmp"; "previews"; "t"] root_disk "etc/passwd" "x").
  reflexivity.
Defined.

(** ** The two substitutions *)

Lemma strip_lit_app (l r : list ascii) : strip_lit l (l ++ r) = Some r.
Proof.
  induction l as [|a l IH]; simpl; [reflexivity|].
  rewrite Ascii.eqb_refl. exact IH.
Qed.

Lemma strip_lit_Some (l s r : list ascii) : strip_lit l s = Some r -> s = l ++ r.
Proof.
  revert s. induction l as [|a l IH]; intros s H; simpl in *.
  - congruence.
  - destruct s as [|b s]; [discriminate|].
    destruct (Ascii.eqb_spec a b); [|discriminate].
    subst. f_equal. apply IH. exact H.
Qed.

Section Greedy.
Context {R : Type} (c : ascii -> bool) (k : list ascii -> list ascii -> option R).

(** No way of cutting the text gives a result: the repetition fails. *)
Lemma greedy_none (s acc : list ascii) :
  (forall x y, s = x ++ y -> forallb c x = true -> k (acc ++ x) y = None) ->
  greedy c acc s k = None.
Proof.
  revert acc. induction s as [|h t IH]; intros acc H; simpl.
  - rewrite <- (app_nil_r acc). apply H; reflexivity.
  - assert (Hk : k acc (h :: t) = None).
    { rewrite <- (app_nil_r acc). apply H; reflexivity. }
    destruct (c h) eqn:Hc; [|exact Hk].
    rewrite IH; [exact Hk|].
    intros x y -> Hx. rewrite <- app_assoc. simpl. apply H; [reflexivity|].
    simpl. rewrite Hc. exact Hx.
Qed.

(** The repetition stops after [x] when the rest succeeds there and at no
    longer run. *)
Lemma greedy_pick (x y acc : list ascii) (r : R) :
  forallb c x = true ->
  k (acc ++ x) y = Some r ->
  (forall z w, y = z ++ w -> z <> [] -> forallb c z = true ->
               k (acc ++ x ++ z) w = None) ->
  greedy c acc (x ++ y) k = Some r.
Proof.
  revert acc. induction x as [|h x IH]; intros acc Hx Hk Hlonger.
  - simpl. rewrite app_nil_r in Hk. destruct y as [|h t]; simpl; [exact Hk|].
    destruct (c h) eqn:Hc; [|exact Hk].
    rewrite greedy_none; [exact Hk|].
    intros x' y' -> Hx'. rewrite <- app_assoc. simpl.
    apply (Hlonger (h :: x') y'); [reflexivity | discriminate |].
    simpl. rewrite Hc. exact Hx'.
  - simpl in Hx. apply andb_true_iff in Hx. destruct Hx as [Hh Hx].
    simpl. rewrite Hh. rewrite IH; [reflexivity | exact Hx | |].
    + rewrite <- app_assoc. exact Hk.
    + intros z w Hy Hz Hcz. rewrite <- app_assoc. simpl. apply Hlonger; assumption.
Qed.

(** The repetition takes all of [x] when what follows is not in the
    class and the rest succeeds there. *)
Lemma greedy_all (x y acc : list ascii) (r : R) :
  forallb c x = true ->
  match y with [] => True | h :: _ => c h = false end ->
  k (acc ++ x) y = Some r ->
  greedy c acc (x ++ y) k = Some r.
Proof.
  intros Hx Hy Hk. apply greedy_pick; [exact Hx | exact Hk |].
  intros z w -> Hz Hcz. destruct z as [|h z]; [contradiction|].
  simpl in *. rewrite Hy in Hcz. discriminate.
Qed.
End Greedy.

Lemma forallb_plain_split (l : list ascii) :
  forallb (fun c => not_quote c && not_gt c) l = true ->
  forallb not_quote l = true /\ forallb not_gt l = true.
Proof.
  induction l as [|a l IH]; simpl; [auto|].
  intros H. apply andb_true_iff in H. destruct H as [Ha Hl].
  apply andb_true_iff in Ha. destruct Ha as [Ha1 Ha2].
  destruct (IH Hl) as [H1 H2]. rewrite Ha1, Ha2, H1, H2. auto.
Qed.

Lemma is_quote_not_quote (q : ascii) : is_quote q = true -> not_quote q = false.
Proof. unfold not_quote. intros ->. reflexivity. Qed.

Lemma is_quote_not_gt (q : ascii) : is_quote q = true -> not_gt q = true.
Proof.
  unfold is_quote, not_gt. intros H. apply orb_true_iff in H.
  destruct H as [H|H]; apply Ascii.eqb_eq in H; subst; reflexivity.
Qed.

(** The value and the end of the tag: the second and third groups. *)
Lemma match_value_and_tail (g1 v tail post : list ascii) (q2 : ascii) :
  v <> [] ->
  forallb not_quote v = true ->
  is_quote q2 = true ->
  forallb not_gt tail = true ->
  match_groups [[Plus not_quote]; [One is_quote; Star not_gt; Lit (lit ">")]] [g1]
               (v ++ q2 :: tail ++ lit ">" ++ post)
  = Some ([g1; v; q2 :: tail ++ lit ">"], post).
Proof.
  intros Hv Hnq Hq2 Htail. destruct v as [|h v]; [contradiction|].
  simpl in Hnq. apply andb_true_iff in Hnq. destruct Hnq as [Hh Hnq].
  cbn [match_groups match_atoms app]. rewrite Hh.
  apply greedy_all; [exact Hnq | apply is_quote_not_quote; exact Hq2 |].
  cbn [match_groups match_atoms app]. rewrite Hq2.
  apply greedy_all; [exact Htail | reflexivity |].
  cbn [match_atoms]. change (lit ">" ++ post) with (lit ">" ++ post).
  rewrite strip_lit_app. reflexivity.
Qed.

(** Text without [>] in front of a [>]: a [>]-free prefix of the whole
    is a prefix of that text. *)
Lemma prefix_before_gt (x r s2 post : list ascii) :
  forallb not_gt x = true ->
  r ++ lit ">" ++ post = x ++ s2 ->
  exists l, r = x ++ l.
Proof.
  revert r. induction x as [|h x IH]; intros r Hx H.
  - exists r. reflexivity.
  - simpl in Hx. apply andb_true_iff in Hx. destruct Hx as [Hh Hx].
    destruct r as [|a r].
    + simpl in H. injection H as <- _. discriminate.
    + simpl in H. injection H as <- H. destruct (IH r Hx H) as [l ->].
      exists l. reflexivity.
Qed.

(** A second copy of [a ++ [q]] that starts after the first character of
    [a ++ q1 :: w] lies inside [w], when [a] holds no quote. *)
Lemma second_copy_inside (a w z l : list ascii) (q1 q : ascii) :
  forallb not_quote a = true ->
  is_quote q1 = true ->
  z <> [] ->
  a ++ q1 :: w = z ++ a ++ q :: l ->
  exists u, w = u ++ a ++ q :: l.
Proof.
  intros Ha Hq1 Hz H.
  change (a ++ q1 :: w) with (a ++ [q1] ++ w) in H. rewrite app_assoc in H.
  apply List.app_eq_app in H. destruct H as [l' [[H1 H2] | [H1 H2]]].
  - destruct l' as [|b l'] using rev_ind.
    + exists []. simpl in H2. symmetry. exact H2.
    + exfalso. clear IHl'. rewrite app_assoc in H1.
      apply List.app_inj_tail in H1. destruct H1 as [H1 <-].
      assert (Hlen : (length (l' ++ [q1]) <= length a)%nat).
      { rewrite H1, !length_app. simpl. destruct z; [contradiction|]. simpl. lia. }
      assert (Hin : In q1 a).
      { assert (Hpre : exists a2, a = (l' ++ [q1]) ++ a2).
        { clear - H2 Hlen. revert a H2 Hlen.
          induction (l' ++ [q1]) as [|c m IHm]; intros a H2 Hlen.
          - exists a. reflexivity.
          - destruct a as [|c' a]; [simpl in Hlen; lia|].
            simpl in H2. injection H2 as -> H2. simpl in Hlen.
            destruct (IHm a H2 ltac:(lia)) as [a2 ->]. exists a2. reflexivity. }
        destruct Hpre as [a2 ->]. apply in_or_app. left. apply in_or_app. right.
        left. reflexivity. }
      rewrite forallb_forall in Ha. specialize (Ha q1 Hin).
      unfold not_quote in Ha. rewrite Hq1 in Ha. discriminate.
  - exists l'. exact H2.
Qed.

(** The first group: after the tag name the run of characters other
    than [>] is cut at the last place where the attribute and a quote
    follow and the rest of the pattern matches. *)
Lemma match_first_group {R : Type} (k : list ascii -> list ascii -> option R)
    (tag attr : string) (attrs v tail post : list ascii) (q1 q2 : ascii) (r : R) :
  forallb (fun c => not_quote c && not_gt c) (lit attr) = true ->
  attrs <> [] ->
  forallb not_gt attrs = true ->
  is_quote q1 = true ->
  is_quote q2 = true ->
  forallb not_gt v = true ->
  forallb not_gt tail = true ->
  (forall u w q, is_quote q = true -> v ++ q2 :: tail <> u ++ lit attr ++ q :: w) ->
  k (lit tag ++ attrs ++ lit attr ++ [q1]) (v ++ q2 :: tail ++ lit ">" ++ post) = Some r ->
  match_atoms [Lit (lit tag); Plus not_gt; Lit (lit attr); One is_quote] []
              (lit tag ++ attrs ++ lit attr ++ q1 :: v ++ q2 :: tail ++ lit ">" ++ post) k
  = Some r.
Proof.
  intros Hattr Hattrs Hngt Hq1 Hq2 Hvg Htail Hlater Hk.
  apply forallb_plain_split in Hattr. destruct Hattr as [Haq Hag].
  destruct attrs as [|a0 attrs]; [contradiction|].
  simpl in Hngt. apply andb_true_iff in Hngt. destruct Hngt as [Ha0 Hngt].
  cbn [match_atoms]. rewrite strip_lit_app.
  cbn [app]. rewrite Ha0.
  apply greedy_pick; [exact Hngt | |].
  - rewrite strip_lit_app. rewrite Hq1. rewrite <- Hk. f_equal.
    rewrite <- !app_assoc. reflexivity.
  - intros z w Hsplit Hz Hcz.
    destruct (strip_lit (lit attr) w) as [s1|] eqn:Hs; [|reflexivity].
    apply strip_lit_Some in Hs. subst w.
    destruct s1 as [|q s2]; [reflexivity|].
    destruct (is_quote q) eqn:Hq; [|reflexivity].
    exfalso.
    assert (Hx : forallb not_gt (z ++ lit attr ++ [q]) = true).
    { rewrite !forallb_app, Hcz, Hag. simpl. rewrite (is_quote_not_gt q Hq). reflexivity. }
    assert (Hr : forallb not_gt (lit attr ++ q1 :: v ++ q2 :: tail) = true).
    { rewrite forallb_app, Hag. simpl. rewrite (is_quote_not_gt q1 Hq1).
      rewrite forallb_app, Hvg. simpl. rewrite (is_quote_not_gt q2 Hq2). exact Htail. }
    assert (Heq : (lit attr ++ q1 :: v ++ q2 :: tail) ++ lit ">" ++ post
                  = (z ++ lit attr ++ [q]) ++ s2).
    { rewrite <- !app_assoc. simpl. rewrite <- !app_assoc. simpl.
      exact Hsplit. }
    destruct (prefix_before_gt _ _ _ _ Hx Heq) as [l Hl].
    rewrite <- !app_assoc in Hl. simpl in Hl.
    destruct (second_copy_inside _ _ _ _ _ _ Haq Hq1 Hz Hl) as [u Hu].
    exact (Hlater u l q Hq Hu).
Qed.

Lemma match_groups_cons (g : list atom) (gs : pattern) (caps : list (list ascii))
    (s : list ascii) :
  match_groups (g :: gs) caps s
  = match_atoms g [] s (fun cap s' => match_groups gs (caps ++ [cap]) s').
Proof. reflexivity. Qed.

(** The whole pattern at the start of a tag. *)
Lemma match_ref_tag (tag attr : string) (attrs v tail post : list ascii) (q1 q2 : ascii) :
  forallb (fun c => not_quote c && not_gt c) (lit attr) = true ->
  attrs <> [] ->
  forallb not_gt attrs = true ->
  is_quote q1 = true ->
  is_quote q2 = true ->
  v <> [] ->
  forallb (fun c => not_quote c && not_gt c) v = true ->
  forallb not_gt tail = true ->
  (forall u w q, is_quote q = true -> v ++ q2 :: tail <> u ++ lit attr ++ q :: w) ->
  match_at (ref_pattern tag attr)
           (lit tag ++ attrs ++ lit attr ++ q1 :: v ++ q2 :: tail ++ lit ">" ++ post)
  = Some ([lit tag ++ attrs ++ lit attr ++ [q1]; v; q2 :: tail ++ lit ">"], post).
Proof.
  intros Hattr Hattrs Hngt Hq1 Hq2 Hv Hplain Htail Hlater.
  apply forallb_plain_split in Hplain. destruct Hplain as [Hvq Hvg].
  unfold match_at, ref_pattern. rewrite match_groups_cons.
  apply match_first_group; try assumption.
  cbn [app]. apply match_value_and_tail; assumption.
Qed.

Lemma occurs_unfold (needle hay : list ascii) :
  occurs needle hay =
  match strip_lit needle hay with
  | Some _ => true
  | None => match hay with [] => false | _ :: hay' => occurs needle hay' end
  end.
Proof. destruct hay; reflexivity. Qed.

Lemma attr_later_unfold (attr hay : list ascii) :
  attr_later attr hay =
  attr_here attr hay ||
  match hay with [] => false | _ :: hay' => attr_later attr hay' end.
Proof. destruct hay; reflexivity. Qed.

Lemma occurs_false (needle hay : list ascii) :
  occurs needle hay = false -> forall u w, hay <> u ++ needle ++ w.
Proof.
  intros H u. revert hay H. induction u as [|a u IH]; intros hay H w Heq; subst hay.
  - rewrite occurs_unfold in H. cbn [app] in H. rewrite strip_lit_app in H.
    discriminate.
  - rewrite occurs_unfold in H. cbn [app] in H.
    destruct (strip_lit needle (a :: u ++ needle ++ w)); [discriminate|].
    exact (IH _ H w eq_refl).
Qed.

Lemma attr_later_false (attr hay : list ascii) :
  attr_later attr hay = false ->
  forall u w q, is_quote q = true -> hay <> u ++ attr ++ q :: w.
Proof.
  intros H u. revert hay H. induction u as [|a u IH]; intros hay H w q Hq Heq; subst hay.
  - rewrite attr_later_unfold in H. apply orb_false_iff in H. destruct H as [H _].
    unfold attr_here in H. cbn [app] in H. rewrite strip_lit_app, Hq in H.
    discriminate.
  - rewrite attr_later_unfold in H. apply orb_false_iff in H. destruct H as [_ H].
    cbn [app] in H. exact (IH _ H w q Hq eq_refl).
Qed.

(** [re.sub] passes text in which no match starts. *)
Lemma re_sub_no_match (pat : pattern) (repl : list (list ascii) -> list ascii)
    (pre s : list ascii) :
  (forall u w, pre = u ++ w -> w <> [] -> match_at pat (w ++ s) = None) ->
  re_sub pat repl (pre ++ s) = pre ++ re_sub pat repl s.
Proof.
  unfold re_sub. induction pre as [|x pre IH]; intros H; [reflexivity|].
  simpl. assert (Hm : match_at pat (x :: pre ++ s) = None).
  { apply (H [] (x :: pre)); [reflexivity | discriminate]. }
  rewrite Hm. f_equal. apply IH. intros u w -> Hw.
  apply (H (x :: u) w); [reflexivity | exact Hw].
Qed.

Lemma sub_from_skip (pat : pattern) (repl : list (list ascii) -> list ascii)
    (s : list ascii) (n : nat) :
  sub_from pat repl n s = sub_from pat repl 0 (drop n s).
Proof.
  revert n. induction s as [|x s IH]; intros n.
  - destruct n; reflexivity.
  - destruct n as [|n]; [reflexivity|]. simpl. apply IH.
Qed.

(** [re.sub] replaces a match and goes on after it. *)
Lemma re_sub_match (pat : pattern) (repl : list (list ascii) -> list ascii)
    (m post : list ascii) (caps : list (list ascii)) :
  m <> [] ->
  match_at pat (m ++ post) = Some (caps, post) ->
  re_sub pat repl (m ++ post) = repl caps ++ re_sub pat repl post.
Proof.
  intros Hm H. destruct m as [|x m]; [contradiction|].
  unfold re_sub. cbn [sub_from app]. cbn [app] in H. rewrite H. f_equal.
  rewrite sub_from_skip. f_equal.
  replace (length (x :: m ++ post) - length post - 1)%nat with (length m)
    by (simpl; rewrite length_app; lia).
  apply drop_app_length.
Qed.

(** A pattern of the endpoint matches only where its tag name is. *)
Lemma match_at_needs_tag (tag attr : string) (s : list ascii) :
  strip_lit (lit tag) s = None -> match_at (ref_pattern tag attr) s = None.
Proof.
  intros H. unfold match_at, ref_pattern. rewrite match_groups_cons.
  cbn [match_atoms]. rewrite H. reflexivity.
Qed.

(** A tag name whose first character does not come back in it cannot
    start in front of a copy of itself and run into it. *)
Lemma tag_not_straddling (t pre rest : list ascii) (c0 : ascii) (t' : list ascii) :
  t = c0 :: t' ->
  ~ In c0 t' ->
  occurs t pre = false ->
  forall u w, pre = u ++ w -> w <> [] -> strip_lit t (w ++ t ++ rest) = None.
Proof.
  intros Ht Hc0 Hocc u w Hpre Hw.
  destruct (strip_lit t (w ++ t ++ rest)) as [y|] eqn:Hs; [exfalso|reflexivity].
  apply strip_lit_Some in Hs. apply List.app_eq_app in Hs.
  destruct Hs as [l [[H1 H2] | [H1 H2]]].
  - apply (occurs_false t pre Hocc u l). rewrite Hpre, H1. reflexivity.
  - destruct l as [|h l].
    + rewrite app_nil_r in H1.
      apply (occurs_false t pre Hocc u []). rewrite Hpre, H1, app_nil_r. reflexivity.
    + destruct w as [|c w']; [contradiction|].
      rewrite Ht in H1, H2. simpl in H1, H2.
      injection H1 as <- H1. injection H2 as <- _.
      apply Hc0. rewrite H1. apply in_or_app. right. left. reflexivity.
Qed.

Lemma rewrite_ref_value (token : string) (g1 g3 : list ascii) (v : string) :
  rewrite_ref token [g1; lit v; g3] = g1 ++ lit (rewritten_value token v) ++ g3.
Proof.
  unfold rewrite_ref, rewritten_value, lit.
  rewrite String.string_of_list_ascii_of_string.
  destruct (startswith v "http" || startswith v "//" || startswith v "/preview/");
    reflexivity.
Qed.

(** One pass of [re.sub] over a page whose first tag of the kind is well
    formed. *)
Lemma ref_sub_first_tag (tag attr token : string) (c0 : ascii) (t' : list ascii)
    (pre attrs tail post : list ascii) (q1 q2 : ascii) (v : string) :
  lit tag = c0 :: t' ->
  ~ In c0 t' ->
  forallb (fun c => not_quote c && not_gt c) (lit attr) = true ->
  occurs (lit tag) pre = false ->
  attrs <> [] ->
  forallb not_gt attrs = true ->
  is_quote q1 = true ->
  is_quote q2 = true ->
  v <> "" ->
  forallb (fun c => not_quote c && not_gt c) (lit v) = true ->
  forallb not_gt tail = true ->
  attr_later (lit attr) (lit v ++ q2 :: tail) = false ->
  re_sub (ref_pattern tag attr) (rewrite_ref token)
         (pre ++ lit tag ++ attrs ++ lit attr ++ q1 :: lit v ++ q2 :: tail ++ lit ">" ++ post)
  = pre ++ lit tag ++ attrs ++ lit attr ++ q1 :: lit (rewritten_value token v)
        ++ q2 :: tail ++ lit ">" ++ re_sub (ref_pattern tag attr) (rewrite_ref token) post.
Proof.
  intros Ht Hc0 Hattr Hocc Hattrs Hngt Hq1 Hq2 Hv Hplain Htail Hlater.
  rewrite re_sub_no_match.
  2:{ intros u w Hpre Hw. apply match_at_needs_tag.
      eapply tag_not_straddling; eassumption. }
  f_equal.
  assert (Hvl : lit v <> []) by (destruct v; [contradiction | discriminate]).
  pose proof (match_ref_tag tag attr attrs (lit v) tail post q1 q2 Hattr Hattrs Hngt
                Hq1 Hq2 Hvl Hplain Htail (attr_later_false _ _ Hlater)) as Hm.
  set (m := lit tag ++ attrs ++ lit attr ++ q1 :: lit v ++ q2 :: tail ++ lit ">").
  assert (Hmp : lit tag ++ attrs ++ lit attr ++ q1 :: lit v ++ q2 :: tail ++ lit ">" ++ post
                = m ++ post).
  { unfold m. rewrite <- !app_assoc. simpl. rewrite <- !app_assoc. simpl.
    rewrite <- !app_assoc. reflexivity. }
  rewrite Hmp in Hm |- *.
  rewrite (re_sub_match _ _ m post _ ltac:(unfold m; rewrite Ht; discriminate) Hm).
  rewrite rewrite_ref_value.
  rewrite <- !app_assoc. simpl. rewrite <- !app_assoc. reflexivity.
Qed.

(** The example of the specification: relative references get the
    prefix of the token, a reference to another host keeps its value. *)
Example rewrite_html_example :
  rewrite_html "T"
    ("<link href=" +:+ DQ +:+ "styles/main.css" +:+ DQ +:+ ">" +:+
     "<script src=" +:+ DQ +:+ "scripts/main.js" +:+ DQ +:+ "></script>" +:+
     "<script src=" +:+ DQ +:+ "https://cdn.example.com/x.js" +:+ DQ +:+ "></script>")
  = "<link href=" +:+ DQ +:+ "/preview/T/styles/main.css" +:+ DQ +:+ ">" +:+
    "<script src=" +:+ DQ +:+ "/preview/T/scripts/main.js" +:+ DQ +:+ "></script>" +:+
    "<script src=" +:+ DQ +:+ "https://cdn.example.com/x.js" +:+ DQ +:+ "></script>".
Proof. vm_compute. reflexivity. Qed.

(** C4, on the code: a value with a scheme other than [http] or [https]
    is absolute for the specification and is rewritten all the same, and
    a relative value that begins with the letters [http] is left as it
    is. *)
Lemma other_schemes_are_rewritten :
  already_absolute "ftp://example.com/a.css" = true /\
  rewrite_html "T" "<link href='ftp://example.com/a.css'>"
    = "<link href='/preview/T/ftp://example.com/a.css'>" /\
  already_absolute "httpdocs/x.js" = false /\
  rewrite_html "T" "<script src='httpdocs/x.js'></script>"
    = "<script src='httpdocs/x.js'></script>".
Proof. repeat split; vm_compute; reflexivity. Qed.

(** C4, amended: in a page whose first [<link] tag has, after at least
    one character other than [>], its last [href=] directly followed by a
    quote, a value without quotes and without [>], a quote, and then no
    [>] before the one that closes the tag, the substitution of links
    leaves the value as it is when it starts with [http], [//] or
    [/preview/] and otherwise replaces it by [/preview/<token>/] followed
    by the value without its leading slashes; the text before the tag is
    kept and the substitution goes on after the tag. The same holds for
    the substitution of scripts with [<script] and [src=]. Values with
    other schemes are therefore rewritten, and values that merely begin
    with [http] are not. *)
Theorem reference_rewrite
    (token : string) (pre attrs tail post : list ascii) (q1 q2 : ascii) (v : string) :
  attrs <> [] ->
  forallb not_gt attrs = true ->
  is_quote q1 = true ->
  is_quote q2 = true ->
  v <> "" ->
  forallb (fun c => not_quote c && not_gt c) (lit v) = true ->
  forallb not_gt tail = true ->
  (occurs (lit "<link") pre = false ->
   attr_later (lit "href=") (lit v ++ q2 :: tail) = false ->
   re_sub link_pattern (rewrite_link token)
     (pre ++ lit "<link" ++ attrs ++ lit "href=" ++ q1 :: lit v ++ q2 :: tail
          ++ lit ">" ++ post)
   = pre ++ lit "<link" ++ attrs ++ lit "href=" ++ q1 :: lit (rewritten_value token v)
         ++ q2 :: tail ++ lit ">" ++ re_sub link_pattern (rewrite_link token) post) /\
  (occurs (lit "<script") pre = false ->
   attr_later (lit "src=") (lit v ++ q2 :: tail) = false ->
   re_sub script_pattern (rewrite_script token)
     (pre ++ lit "<script" ++ attrs ++ lit "src=" ++ q1 :: lit v ++ q2 :: tail
          ++ lit ">" ++ post)
   = pre ++ lit "<script" ++ attrs ++ lit "src=" ++ q1 :: lit (rewritten_value token v)
         ++ q2 :: tail ++ lit ">" ++ re_sub script_pattern (rewrite_script token) post) /\
  (startswith v "http" || startswith v "//" || startswith v "/preview/" = true ->
   rewritten_value token v = v) /\
  (startswith v "http" || startswith v "//" || startswith v "/preview/" = false ->
   rewritten_value token v = "/preview/" +:+ token +:+ "/" +:+ lstrip_slash v).
Proof.
  intros Hattrs Hngt Hq1 Hq2 Hv Hplain Htail.
  split; [|split; [|split]].
  - intros Hocc Hlater.
    apply (ref_sub_first_tag "<link" "href=" token "<"%char (lit "link"));
      try assumption; try reflexivity.
    simpl. intros [H|[H|[H|[H|[]]]]]; discriminate.
  - intros Hocc Hlater.
    apply (ref_sub_first_tag "<script" "src=" token "<"%char (lit "script"));
      try assumption; try reflexivity.
    simpl. intros [H|[H|[H|[H|[H|[H|[]]]]]]]; discriminate.
  - unfold rewritten_value. intros ->. reflexivity.
  - unfold rewritten_value. intros ->. reflexivity.
Qed.

Lemma reference_rewrite_witness :
  re_sub link_pattern (rewrite_link "T")
    (lit "<html><link rel='stylesheet' href='/styles/main.css' media='all'></html>")
  = lit "<html><link rel='stylesheet' href='/preview/T/styles/main.css' media='all'></html>".
Proof.
  apply (proj1 (reference_rewrite "T" (lit "<html>") (lit " rel='stylesheet' ")
                  (lit " media='all'") (lit "</html>") squote squote "/styles/main.css"
                  ltac:(discriminate) eq_refl eq_refl eq_refl ltac:(discriminate)
                  eq_refl eq_refl));
    reflexivity.
Defined.

(** ** From creation to serving *)

(** The example of the specification run through the model: a page and
    its style sheet are provisioned, the entry page comes back with the
    reference rewritten, the style sheet comes back as a file of type
    [text/css]. *)
Example end_to_end :
  match run 40 (create_preview demo_world
                  (Some [ ("index.html", "<html><link href='a.css'></html>");
                          ("a.css", "body{}") ])
                  "http://localhost" 0) empty_state with
  | Some (Created info, st) =>
      preview_url info = "http://localhost/preview/t" /\
      option_map fst (run 20 (serve_preview demo_world "t" "" 1) st)
        = Some (HTMLResponse "<html><link href='/preview/t/a.css'></html>" "text/html") /\
      option_map fst (run 20 (serve_preview demo_world "t" "a.css" 1) st)
        = Some (FileResponse ["tmp"; "previews"; "t"; "a.css"] "text/css") /\
      response_body (disk st) (FileResponse ["tmp"; "previews"; "t"; "a.css"] "text/css")
        = Some "body{}"
  | _ => False
  end.
Proof. vm_compute. repeat split; reflexivity. Qed.

(** * Further properties of the code *)

(** ** Sweeps *)

Lemma shrinks_refl (fs : filesystem) : shrinks fs fs.
Proof. intros p x H. exact H. Qed.

Lemma shrinks_trans (fs1 fs2 fs3 : filesystem) :
  shrinks fs1 fs2 -> shrinks fs2 fs3 -> shrinks fs1 fs3.
Proof. intros H12 H23 p x H. apply H12, H23, H. Qed.

Lemma rmtree_shrinks (d : Path) (fs : filesystem) : shrinks fs (rmtree d fs).
Proof.
  intros p x. unfold rmtree. destruct (is_under p (resolve d)); [discriminate|tauto].
Qed.

Lemma walk_shrinks (fs fs' : filesystem) (rest cur q : Path) :
  shrinks fs fs' -> walk fs' cur rest = Some q -> walk fs cur rest = Some q.
Proof.
  intros Hs. revert cur. induction rest as [|c rest IH]; intros cur; simpl; [tauto|].
  destruct (fs' cur) as [[|]|] eqn:E; try discriminate.
  rewrite (Hs _ _ E). apply IH.
Qed.

Lemma path_exists_shrinks (fs fs' : filesystem) (p : Path) :
  shrinks fs fs' -> path_exists fs p = false -> path_exists fs' p = false.
Proof.
  intros Hs. unfold path_exists, stat.
  destruct (walk fs' [] p) as [q|] eqn:W; [|reflexivity].
  rewrite (walk_shrinks _ _ _ _ _ Hs W).
  destruct (fs' q) as [x|] eqn:E; [|reflexivity].
  rewrite (Hs _ _ E). discriminate.
Qed.

Lemma torn_down_disk_shrinks (token : string) (pv : Preview) (st : State) :
  shrinks (disk st) (disk (torn_down token pv st)).
Proof.
  simpl. destruct (path_exists (disk st) (path pv)).
  - apply rmtree_shrinks.
  - apply shrinks_refl.
Qed.

Lemma torn_down_disk_frame (token : string) (pv : Preview) (st : State) (p : Path) :
  is_under p (resolve (path pv)) = false ->
  disk (torn_down token pv st) p = disk st p.
Proof.
  intros H. simpl. destruct (path_exists (disk st) (path pv)); [|reflexivity].
  unfold rmtree. rewrite H. reflexivity.
Qed.

(** The loop of the sweep: the listed tokens are removed one after the
    other, each with its process and its directory. *)
Lemma for_each_remove (ts : list string) (st : State) :
  lock st = false ->
  exists st',
    returns (for_each ts _remove_preview) st tt st' /\
    lock st' = false /\
    (forall k, previews st' !! k
               = if bool_decide (k ∈ ts) then None else previews st !! k) /\
    (forall n, n ∈ alive st' <->
               n ∈ alive st /\
               forall k pv, k ∈ ts -> previews st !! k = Some pv -> process pv <> n) /\
    shrinks (disk st) (disk st') /\
    (forall k pv, k ∈ ts -> previews st !! k = Some pv ->
                  path_exists (disk st') (path pv) = false) /\
    (forall p, (forall k pv, k ∈ ts -> previews st !! k = Some pv ->
                             is_under p (resolve (path pv)) = false) ->
               disk st' p = disk st p).
Proof.
  revert st. induction ts as [|t ts IH]; intros st Hl.
  - exists st. split; [apply returns_Ret|]. split; [exact Hl|].
    split; [intros k; reflexivity|].
    split; [intros n; split; [intros H; split; [exact H|intros k pv Hk; inversion Hk]|tauto]|].
    split; [apply shrinks_refl|].
    split; [intros k pv Hk; inversion Hk|reflexivity].
  - destruct (previews st !! t) as [pv0|] eqn:E0.
    + pose proof (remove_preview_free t pv0 st Hl E0) as Hr.
      destruct (IH (torn_down t pv0 st) eq_refl)
        as (st' & Hrun & Hl' & Hp & Ha & Hs & Hgone & Hframe).
      exists st'. split; [|split; [exact Hl'|]].
      { cbn [for_each]. eapply returns_bind; [exact Hr|exact Hrun]. }
      split; [|split; [|split; [|split]]].
      * intros k. rewrite Hp. simpl.
        destruct (decide (k = t)) as [->|Hne].
        -- rewrite lookup_delete_eq.
           rewrite (bool_decide_eq_true_2 (t ∈ t :: ts)) by left.
           destruct (bool_decide (t ∈ ts)); reflexivity.
        -- rewrite lookup_delete_ne by congruence.
           destruct (bool_decide (k ∈ ts)) eqn:B.
           ++ apply bool_decide_eq_true_1 in B.
              rewrite (bool_decide_eq_true_2 (k ∈ t :: ts)) by (right; exact B).
              reflexivity.
           ++ apply bool_decide_eq_false_1 in B.
              rewrite (bool_decide_eq_false_2 (k ∈ t :: ts)); [reflexivity|].
              intros H. apply elem_of_cons in H. destruct H; [congruence|tauto].
      * intros n. rewrite Ha. simpl. split.
        -- intros [Hin Hno]. apply elem_of_difference in Hin. destruct Hin as [Hin Hn0].
           split; [exact Hin|]. intros k pv Hk Hkpv.
           destruct (decide (k = t)) as [->|Hne].
           ++ rewrite E0 in Hkpv. inversion Hkpv; subst pv. set_solver.
           ++ apply elem_of_cons in Hk. destruct Hk as [|Hk]; [congruence|].
              apply (Hno k pv Hk). rewrite lookup_delete_ne by congruence. exact Hkpv.
        -- intros [Hin Hno]. split.
           ++ apply elem_of_difference. split; [exact Hin|].
              pose proof (Hno t pv0 ltac:(left) E0). set_solver.
           ++ intros k pv Hk Hkpv.
              destruct (decide (k = t)) as [->|Hne].
              ** rewrite lookup_delete_eq in Hkpv. discriminate.
              ** rewrite lookup_delete_ne in Hkpv by congruence.
                 apply (Hno k pv); [right; exact Hk|exact Hkpv].
      * eapply shrinks_trans; [apply (torn_down_disk_shrinks t pv0 st)|exact Hs].
      * intros k pv Hk Hkpv.
        destruct (decide (k = t)) as [->|Hne].
        -- rewrite E0 in Hkpv. inversion Hkpv; subst pv.
           apply (path_exists_shrinks _ _ _ Hs). apply torn_down_dir_gone.
        -- apply elem_of_cons in Hk. destruct Hk as [|Hk]; [congruence|].
           apply (Hgone k pv Hk). simpl. rewrite lookup_delete_ne by congruence. exact Hkpv.
      * intros p Hp'. rewrite Hframe.
        -- apply torn_down_disk_frame. apply (Hp' t pv0); [left|exact E0].
        -- intros k pv Hk Hkpv. simpl in Hkpv.
           destruct (decide (k = t)) as [->|Hne].
           ++ rewrite lookup_delete_eq in Hkpv. discriminate.
           ++ rewrite lookup_delete_ne in Hkpv by congruence.
              apply (Hp' k pv); [right; exact Hk|exact Hkpv].
    + pose proof (remove_preview_absent t st E0) as Hr.
      destruct (IH st Hl) as (st' & Hrun & Hl' & Hp & Ha & Hs & Hgone & Hframe).
      exists st'. split; [|split; [exact Hl'|]].
      { cbn [for_each]. eapply returns_bind; [exact Hr|exact Hrun]. }
      split; [|split; [|split; [|split]]].
      * intros k. rewrite Hp.
        destruct (decide (k = t)) as [->|Hne].
        -- rewrite (bool_decide_eq_true_2 (t ∈ t :: ts)) by left.
           rewrite E0. destruct (bool_decide (t ∈ ts)); reflexivity.
        -- destruct (bool_decide (k ∈ ts)) eqn:B.
           ++ apply bool_decide_eq_true_1 in B.
              rewrite (bool_decide_eq_true_2 (k ∈ t :: ts)) by (right; exact B).
              reflexivity.
           ++ apply bool_decide_eq_false_1 in B.
              rewrite (bool_decide_eq_false_2 (k ∈ t :: ts)); [reflexivity|].
              intros H. apply elem_of_cons in H. destruct H; [congruence|tauto].
      * intros n. rewrite Ha. split.
        -- intros [Hin Hno]. split; [exact Hin|]. intros k pv Hk Hkpv.
           apply elem_of_cons in Hk. destruct Hk as [->|Hk]; [congruence|].
           apply (Hno k pv Hk Hkpv).
        -- intros [Hin Hno]. split; [exact Hin|]. intros k pv Hk.
           apply Hno. right. exact Hk.
      * exact Hs.
      * intros k pv Hk Hkpv.
        apply elem_of_cons in Hk. destruct Hk as [->|Hk]; [congruence|].
        apply (Hgone k pv Hk Hkpv).
      * intros p Hp'. apply Hframe. intros k pv Hk. apply Hp'. right. exact Hk.
Qed.

Lemma expired_tokens_spec (t : Z) (st : State) (k : string) :
  k ∈ expired_tokens t st <->
  exists pv, previews st !! k = Some pv /\ expires_at pv <= t.
Proof.
  unfold expired_tokens. rewrite list_elem_of_fmap. split.
  - intros [[k' pv] [-> Hin]]. apply list_elem_of_In, filter_In in Hin.
    destruct Hin as [Hin Hle]. apply list_elem_of_In, elem_of_map_to_list in Hin.
    exists pv. split; [exact Hin|]. apply Z.leb_le. exact Hle.
  - intros [pv [Hk Hle]]. exists (k, pv). split; [reflexivity|].
    apply list_elem_of_In, filter_In. split.
    + apply list_elem_of_In, elem_of_map_to_list. exact Hk.
    + apply Z.leb_le. exact Hle.
Qed.

Lemma collect_expired (t : Z) (st : State) :
  lock st = false ->
  returns (Acquire (ts <- get (expired_tokens t) ;; Release (Ret ts))) st
          (expired_tokens t st) st.
Proof.
  intros Hl. exists 4%nat. destruct st as [m l d a]. simpl in *. subst l. reflexivity.
Qed.

Lemma cleanup_expired_run (t : Z) (st : State) :
  lock st = false ->
  exists st',
    returns (cleanup_expired t) st tt st' /\
    lock st' = false /\
    previews st' = filter (fun kv => t < expires_at kv.2) (previews st) /\
    (forall k pv, previews st !! k = Some pv -> expires_at pv <= t ->
                  (process pv ∉ alive st') /\
                  path_exists (disk st') (path pv) = false) /\
    (forall n, n ∈ alive st' <->
               n ∈ alive st /\
               forall k pv, previews st !! k = Some pv -> expires_at pv <= t ->
                            process pv <> n) /\
    (forall p, (forall k pv, previews st !! k = Some pv -> expires_at pv <= t ->
                             is_under p (resolve (path pv)) = false) ->
               disk st' p = disk st p).
Proof.
  intros Hl.
  destruct (for_each_remove (expired_tokens t st) st Hl)
    as (st' & Hrun & Hl' & Hp & Ha & Hs & Hgone & Hframe).
  assert (Halive : forall n, n ∈ alive st' <->
             n ∈ alive st /\
             forall k pv, previews st !! k = Some pv -> expires_at pv <= t ->
                          process pv <> n).
  { intros n. rewrite Ha. split; intros [Hin Hno]; (split; [exact Hin|]).
    - intros k pv Hk Hle. apply (Hno k pv); [|exact Hk].
      apply expired_tokens_spec. exists pv. tauto.
    - intros k pv Hk Hkpv. apply expired_tokens_spec in Hk.
      destruct Hk as [pv' [Hk' Hle]]. rewrite Hkpv in Hk'. inversion Hk'; subst pv'.
      apply (Hno k pv Hkpv Hle). }
  exists st'. split; [|split; [exact Hl'|split; [|split; [|split]]]].
  - unfold cleanup_expired. eapply returns_bind; [|exact Hrun].
    apply (collect_expired t st Hl).
  - apply map_eq. intros k. rewrite Hp.
    destruct (bool_decide (k ∈ expired_tokens t st)) eqn:B.
    + apply bool_decide_eq_true_1, expired_tokens_spec in B.
      destruct B as [pv [Hk Hle]]. symmetry. apply map_lookup_filter_None.
      right. intros x Hx. rewrite Hk in Hx. inversion Hx; subst x. simpl. lia.
    + apply bool_decide_eq_false_1 in B.
      destruct (previews st !! k) as [pv|] eqn:Hk.
      * symmetry. apply map_lookup_filter_Some. split; [exact Hk|]. simpl.
        destruct (Z_lt_le_dec t (expires_at pv)) as [Hlt|Hle]; [exact Hlt|].
        exfalso. apply B, expired_tokens_spec. exists pv. tauto.
      * symmetry. apply map_lookup_filter_None. left. exact Hk.
  - intros k pv Hk Hle. split.
    + intros Hin. apply Halive in Hin. destruct Hin as [_ Hno].
      exact (Hno k pv Hk Hle eq_refl).
    + apply (Hgone k pv); [|exact Hk]. apply expired_tokens_spec. exists pv. tauto.
  - exact Halive.
  - intros p Hp'. apply Hframe. intros k pv Hk Hkpv.
    apply expired_tokens_spec in Hk. destruct Hk as [pv' [Hk' Hle]].
    rewrite Hkpv in Hk'. inversion Hk'; subst pv'. apply (Hp' k pv Hkpv Hle).
Qed.

(** X3: the sweep of the background thread removes the expired previews,
    with their processes and directories, and nothing else. *)
Theorem cleanup_expired_sweeps (t : Z) (st : State) :
  lock st = false ->
  exists st',
    returns (cleanup_expired t) st tt st' /\
    lock st' = false /\
    previews st' = filter (fun kv => t < expires_at kv.2) (previews st) /\
    (forall k pv, previews st !! k = Some pv -> expires_at pv <= t ->
                  (process pv ∉ alive st') /\
                  path_exists (disk st') (path pv) = false) /\
    (forall n, n ∈ alive st' <->
               n ∈ alive st /\
               forall k pv, previews st !! k = Some pv -> expires_at pv <= t ->
                            process pv <> n) /\
    (forall p, (forall k pv, previews st !! k = Some pv -> expires_at pv <= t ->
                             is_under p (resolve (path pv)) = false) ->
               disk st' p = disk st p).
Proof. apply cleanup_expired_run. Qed.

Lemma cleanup_expired_sweeps_witness :
  exists st',
    returns (cleanup_expired 600) demo_state tt st' /\
    lock st' = false /\
    previews st' = filter (fun kv => 600 < expires_at kv.2) (previews demo_state).
Proof.
  destruct (cleanup_expired_sweeps 600 demo_state eq_refl) as (st' & H1 & H2 & H3 & _).
  exists st'. split; [exact H1|]. split; [exact H2|exact H3].
Defined.

Lemma list_previews (isoformat : Z -> string) (st : State) :
  lock st = false ->
  returns (Acquire (r <- get (fun st => summary isoformat <$> previews st) ;;
                    Release (Ret r))) st
          (summary isoformat <$> previews st) st.
Proof.
  intros Hl. exists 4%nat. destruct st as [m l d a]. simpl in *. subst l. reflexivity.
Qed.

Lemma get_all_previews_run (isoformat : Z -> string) (now : Z) (st : State) :
  lock st = false ->
  exists st',
    returns (get_all_previews isoformat now) st
            (summary isoformat <$> filter (fun kv => now < expires_at kv.2) (previews st))
            st' /\
    previews st' = filter (fun kv => now < expires_at kv.2) (previews st) /\
    lock st' = false /\
    (forall k pv, previews st !! k = Some pv -> expires_at pv <= now ->
                  (process pv ∉ alive st') /\
                  path_exists (disk st') (path pv) = false).
Proof.
  intros Hl.
  destruct (cleanup_expired_run now st Hl) as (st' & Hrun & Hl' & Hp & Hgone & _).
  exists st'. split; [|split; [exact Hp|split; [exact Hl'|exact Hgone]]].
  unfold get_all_previews. eapply returns_bind; [exact Hrun|].
  rewrite <- Hp. apply (list_previews isoformat st' Hl').
Qed.

(** X4: the listing holds the previews that have not expired, and the
    expired ones are swept on the way. *)
Theorem get_all_previews_lists_live (isoformat : Z -> string) (now : Z) (st : State) :
  lock st = false ->
  exists st',
    returns (get_all_previews isoformat now) st
            (summary isoformat <$> filter (fun kv => now < expires_at kv.2) (previews st))
            st' /\
    previews st' = filter (fun kv => now < expires_at kv.2) (previews st) /\
    lock st' = false /\
    (forall k pv, previews st !! k = Some pv -> expires_at pv <= now ->
                  (process pv ∉ alive st') /\
                  path_exists (disk st') (path pv) = false).
Proof. apply get_all_previews_run. Qed.

Lemma get_all_previews_lists_live_witness :
  exists st',
    returns (get_all_previews (fun _ => "1970-01-01T00:00:00") 600) demo_state
            (summary (fun _ => "1970-01-01T00:00:00")
               <$> filter (fun kv => 600 < expires_at kv.2) (previews demo_state))
            st' /\
    previews st' = filter (fun kv => 600 < expires_at kv.2) (previews demo_state).
Proof.
  destruct (get_all_previews_lists_live (fun _ => "1970-01-01T00:00:00") 600
              demo_state eq_refl) as (st' & H1 & H2 & _).
  exists st'. split; [exact H1|exact H2].
Defined.

(** X1: what is registered is found, for ten minutes. *)
Theorem register_then_get
    (token : string) (preview_dir : Path) (port : Z) (pid : nat) (now : Z) (st : State) :
  lock st = false ->
  exists st1,
    returns (register_preview token preview_dir port pid now) st tt st1 /\
    (forall now', now' < now + 600 ->
       returns (get_preview token now') st1
               (Some (mkPreview preview_dir port pid (now + 600) now)) st1) /\
    (forall now', now + 600 <= now' -> hangs (get_preview token now') st1) /\
    (forall k, k <> token -> previews st1 !! k = previews st !! k) /\
    disk st1 = disk st /\ alive st1 = alive st /\ lock st1 = false.
Proof.
  intros Hl.
  exists (set_previews (<[token := mkPreview preview_dir port pid (now + 600) now]>
                          (previews st)) st).
  split; [apply register_preview_free; exact Hl|].
  split; [|split; [|split; [|split; [reflexivity|split; [reflexivity|exact Hl]]]]].
  - intros now' Hlt. apply get_preview_live; [exact Hl| |exact Hlt].
    simpl. apply lookup_insert_eq.
  - intros now' Hle.
    apply (get_preview_expired token (mkPreview preview_dir port pid (now + 600) now));
      [exact Hl| |exact Hle].
    simpl. apply lookup_insert_eq.
  - intros k Hne. simpl. apply lookup_insert_ne. congruence.
Qed.

Lemma register_then_get_witness :
  exists st1,
    returns (register_preview "n" ["tmp"; "previews"; "n"] 3001 8 100) demo_state tt st1 /\
    returns (get_preview "n" 200) st1
            (Some (mkPreview ["tmp"; "previews"; "n"] 3001 8 (100 + 600) 100)) st1.
Proof.
  destruct (register_then_get "n" ["tmp"; "previews"; "n"] 3001 8 100 demo_state eq_refl)
    as (st1 & H1 & H2 & _).
  exists st1. split; [exact H1|apply (H2 200); lia].
Defined.

(** X5: a request for a preview that has expired and is still registered
    gets no answer. *)
Theorem expired_token_requests_hang
    (w : World) (token file_path : string) (pv : Preview) (now : Z) (st : State) :
  lock st = false ->
  previews st !! token = Some pv ->
  expires_at pv <= now ->
  hangs (serve_preview w token file_path now) st /\
  hangs (stop_preview token now) st /\
  hangs (stop_preview_endpoint token now) st.
Proof.
  intros Hl Hp Hle.
  pose proof (get_preview_expired token pv now st Hl Hp Hle) as Hh.
  split; [|split].
  - unfold serve_preview. apply hangs_bind. exact Hh.
  - unfold stop_preview. apply hangs_bind. exact Hh.
  - unfold stop_preview_endpoint. apply hangs_bind.
    unfold stop_preview. apply hangs_bind. exact Hh.
Qed.

Lemma expired_token_requests_hang_witness :
  hangs (serve_preview demo_world "t" "" 600) demo_state /\
  hangs (stop_preview "t" 600) demo_state /\
  hangs (stop_preview_endpoint "t" 600) demo_state.
Proof.
  apply (expired_token_requests_hang demo_world "t" "" demo_preview 600 demo_state);
    [reflexivity|reflexivity|simpl; lia].
Defined.

(** ** What an answer depends on *)

Lemma walk_same (fs fs' : filesystem) (rest cur : Path) :
  canonical rest = true ->
  (forall b a, rest = b ++ a -> fs (cur ++ b) = fs' (cur ++ b)) ->
  walk fs cur rest = walk fs' cur rest.
Proof.
  revert cur. induction rest as [|c rest IH]; intros cur Hc H; [reflexivity|].
  simpl. pose proof (H [] (c :: rest) eq_refl) as H0. rewrite app_nil_r in H0.
  rewrite <- H0. destruct (fs cur) as [[|]|]; try reflexivity.
  change (c :: rest) with ([c] ++ rest) in Hc. rewrite canonical_app in Hc.
  apply andb_true_iff in Hc. destruct Hc as [Hc1 Hc2].
  rewrite (step_canonical cur c Hc1). apply IH; [exact Hc2|].
  intros b a Hba. rewrite <- app_assoc. apply (H ([c] ++ b) a). simpl. congruence.
Qed.

Lemma stat_same (fs fs' : filesystem) (p : Path) :
  canonical p = true ->
  (forall b a, p = b ++ a -> fs b = fs' b) ->
  stat fs p = stat fs' p.
Proof.
  intros Hc H. unfold stat.
  rewrite (walk_same fs fs' p [] Hc) by (intros b a Hba; apply (H b a Hba)).
  destruct (walk fs' [] p) as [q|] eqn:W; [|reflexivity].
  apply walk_canonical in W; [|exact Hc]. simpl in W. subst q.
  apply (H p []). rewrite app_nil_r. reflexivity.
Qed.

Lemma stat_agree (d : Path) (fs fs' : filesystem) (r : Path) :
  canonical (d ++ r) = true ->
  agree_around d fs fs' ->
  stat fs (d ++ r) = stat fs' (d ++ r).
Proof.
  intros Hc Ha. apply stat_same; [exact Hc|].
  intros b a Hba. apply Ha.
  apply (prefix_of_extension d r a b b Hba eq_refl).
Qed.

Lemma has_index_congr (fs fs' : filesystem) (p : Path) :
  find_index_file fs [p] = find_index_file fs' [p] -> has_index fs p = has_index fs' p.
Proof. unfold has_index. intros ->. reflexivity. Qed.

Section Frame.

Variables (d : Path) (fs fs' : filesystem).
Hypothesis Hd : canonical d = true.
Hypothesis Hagree : agree_around d fs fs'.

Lemma path_exists_agree (r : Path) :
  canonical r = true -> path_exists fs (d ++ r) = path_exists fs' (d ++ r).
Proof.
  intros Hr. unfold path_exists. rewrite (stat_agree d fs fs' r); [reflexivity| |exact Hagree].
  rewrite canonical_app, Hd, Hr. reflexivity.
Qed.

Lemma is_file_agree (r : Path) :
  canonical r = true -> is_file fs (d ++ r) = is_file fs' (d ++ r).
Proof.
  intros Hr. unfold is_file. rewrite (stat_agree d fs fs' r); [reflexivity| |exact Hagree].
  rewrite canonical_app, Hd, Hr. reflexivity.
Qed.

Lemma is_dir_agree (r : Path) :
  canonical r = true -> is_dir fs (d ++ r) = is_dir fs' (d ++ r).
Proof.
  intros Hr. unfold is_dir. rewrite (stat_agree d fs fs' r); [reflexivity| |exact Hagree].
  rewrite canonical_app, Hd, Hr. reflexivity.
Qed.

Lemma read_text_agree (r : Path) :
  canonical r = true -> read_text fs (d ++ r) = read_text fs' (d ++ r).
Proof.
  intros Hr. unfold read_text. rewrite (stat_agree d fs fs' r); [reflexivity| |exact Hagree].
  rewrite canonical_app, Hd, Hr. reflexivity.
Qed.

Lemma read_text_utf8_agree (r : Path) :
  canonical r = true -> read_text_utf8 fs (d ++ r) = read_text_utf8 fs' (d ++ r).
Proof. intros Hr. unfold read_text_utf8. rewrite (read_text_agree r Hr). reflexivity. Qed.

Lemma find_index_file_agree (rs : list Path) :
  Forall (fun r => canonical r = true) rs ->
  find_index_file fs (List.map (app d) rs) = find_index_file fs' (List.map (app d) rs).
Proof.
  induction 1 as [|r rs Hr _ IH]; [reflexivity|].
  cbn [List.map find_index_file]. rewrite IH.
  unfold index_files, first_index.
  change ((d ++ r) // "index.html") with ((d ++ r) ++ ["index.html"]).
  change ((d ++ r) // "index.htm") with ((d ++ r) ++ ["index.htm"]).
  rewrite <- !app_assoc.
  assert (C1 : canonical (r ++ ["index.html"]) = true)
    by (rewrite canonical_app, Hr; reflexivity).
  assert (C2 : canonical (r ++ ["index.htm"]) = true)
    by (rewrite canonical_app, Hr; reflexivity).
  rewrite (path_exists_agree _ C1), (is_file_agree _ C1).
  rewrite (path_exists_agree _ C2), (is_file_agree _ C2).
  reflexivity.
Qed.

Lemma has_index_agree (r : Path) :
  canonical r = true -> has_index fs (d ++ r) = has_index fs' (d ++ r).
Proof.
  intros Hr. apply has_index_congr.
  apply (find_index_file_agree [r]). constructor; [exact Hr|constructor].
Qed.

Lemma find_static_dir_agree : find_static_dir fs d = find_static_dir fs' d.
Proof.
  unfold find_static_dir, first_build_dir.
  change (d // "dist") with (d ++ ["dist"]).
  change (d // "build") with (d ++ ["build"]).
  change (d // "out") with (d ++ ["out"]).
  change (d // "public") with (d ++ ["public"]).
  rewrite !(path_exists_agree [_]), !(is_dir_agree [_]), !(has_index_agree [_])
    by reflexivity.
  pose proof (has_index_agree [] eq_refl) as H0. rewrite app_nil_r in H0.
  rewrite H0. reflexivity.
Qed.

End Frame.

Lemma lstrip_slash_relative (s : string) : startswith (lstrip_slash s) "/" = false.
Proof.
  induction s as [|c s IH]; [reflexivity|].
  cbn [lstrip_slash]. destruct (Ascii.eqb c "/") eqn:E; [exact IH|].
  cbn [startswith]. rewrite Ascii.eqb_sym, E. reflexivity.
Qed.

Lemma joinpath_lstrip (p : Path) (s : string) :
  p // lstrip_slash s = p ++ parse_parts (lstrip_slash s).
Proof. unfold joinpath. rewrite lstrip_slash_relative. reflexivity. Qed.

Section FrameOfAnswers.

Variables (d : Path) (fs fs' : filesystem).
Hypothesis Hd : canonical d = true.
Hypothesis Hagree : agree_around d fs fs'.

Lemma find_index_file_below (dirs : list Path) :
  Forall (below d) dirs -> find_index_file fs dirs = find_index_file fs' dirs.
Proof.
  induction 1 as [|p dirs [r [-> Hr]] _ IH]; [reflexivity|].
  cbn [find_index_file]. rewrite IH.
  pose proof (find_index_file_agree d fs fs' Hd Hagree [r]) as H.
  cbn [List.map find_index_file] in H.
  assert (H' : first_index fs (d ++ r) index_files = first_index fs' (d ++ r) index_files).
  { assert (Hf : Forall (fun r => canonical r = true) [r])
      by (constructor; [exact Hr|constructor]).
    specialize (H Hf).
    destruct (first_index fs (d ++ r) index_files),
             (first_index fs' (d ++ r) index_files); congruence. }
  rewrite H'. reflexivity.
Qed.

Lemma find_index_file_is_below (dirs : list Path) (p : Path) :
  Forall (below d) dirs -> find_index_file fs dirs = Some p -> below d p.
Proof.
  intros Hb Hf. apply find_index_file_found in Hf.
  destruct Hf as [_ [dir [Hin Hp]]].
  rewrite List.Forall_forall in Hb. destruct (Hb dir Hin) as [r [-> Hr]].
  destruct Hp as [-> | ->]; rewrite <- app_assoc; eexists; (split; [reflexivity|]);
    rewrite canonical_app, Hr; reflexivity.
Qed.

Lemma below_static : below d (find_static_dir fs d).
Proof.
  destruct (find_static_dir_cases fs d) as [-> | [sub [Hin ->]]].
  - exists []. rewrite app_nil_r. split; reflexivity.
  - exists [sub]. split; [reflexivity|].
    simpl in Hin. destruct Hin as [<-|[<-|[<-|[<-|[]]]]]; reflexivity.
Qed.

Lemma below_self : below d d.
Proof. exists []. rewrite app_nil_r. split; reflexivity. Qed.

Lemma search_locations_agree (static_dir : Path) :
  below d static_dir ->
  [static_dir; d] ++
    List.filter (path_exists fs) (List.map (joinpath d) ["dist"; "build"; "out"; "public"])
  = [static_dir; d] ++
    List.filter (path_exists fs') (List.map (joinpath d) ["dist"; "build"; "out"; "public"])
  /\ Forall (below d)
       ([static_dir; d] ++
        List.filter (path_exists fs)
          (List.map (joinpath d) ["dist"; "build"; "out"; "public"])).
Proof.
  intros Hs.
  change (List.map (joinpath d) ["dist"; "build"; "out"; "public"])
    with [d ++ ["dist"]; d ++ ["build"]; d ++ ["out"]; d ++ ["public"]].
  cbn [List.filter].
  rewrite !(path_exists_agree d fs fs' Hd Hagree [_]) by reflexivity.
  split; [reflexivity|].
  assert (B : forall c, canonical [c] = true -> below d (d ++ [c]))
    by (intros c Hc; exists [c]; split; [reflexivity|exact Hc]).
  repeat constructor; try exact Hs; try exact below_self.
  destruct (path_exists fs' (d ++ ["dist"])), (path_exists fs' (d ++ ["build"])),
           (path_exists fs' (d ++ ["out"])), (path_exists fs' (d ++ ["public"]));
    repeat constructor; apply B; reflexivity.
Qed.

Lemma find_main_entry_agree :
  find_main_entry fs (d // "src") = find_main_entry fs' (d // "src").
Proof.
  unfold find_main_entry, main_entries.
  change (d // "src") with (d ++ ["src"]). cbn [List.find].
  change ((d ++ ["src"]) // "main.tsx") with ((d ++ ["src"]) ++ ["main.tsx"]).
  change ((d ++ ["src"]) // "main.jsx") with ((d ++ ["src"]) ++ ["main.jsx"]).
  change ((d ++ ["src"]) // "main.ts") with ((d ++ ["src"]) ++ ["main.ts"]).
  change ((d ++ ["src"]) // "main.js") with ((d ++ ["src"]) ++ ["main.js"]).
  change ((d ++ ["src"]) // "index.tsx") with ((d ++ ["src"]) ++ ["index.tsx"]).
  change ((d ++ ["src"]) // "index.jsx") with ((d ++ ["src"]) ++ ["index.jsx"]).
  rewrite <- !app_assoc.
  repeat match goal with
         | |- context [path_exists fs (d ++ ?r)] =>
             rewrite (path_exists_agree d fs fs' Hd Hagree r) by reflexivity
         end.
  reflexivity.
Qed.

Lemma is_react_project_agree (w : World) :
  is_react_project w fs (d // "package.json") = is_react_project w fs' (d // "package.json").
Proof.
  unfold is_react_project. change (d // "package.json") with (d ++ ["package.json"]).
  rewrite (path_exists_agree d fs fs' Hd Hagree [_]) by reflexivity.
  rewrite (read_text_agree d fs fs' Hd Hagree [_]) by reflexivity.
  reflexivity.
Qed.

Lemma write_text_agree (r : Path) (content : string) :
  canonical r = true ->
  match write_text fs (d ++ r) content, write_text fs' (d ++ r) content with
  | Some _, Some _ | None, None => True
  | _, _ => False
  end.
Proof.
  intros Hr. unfold write_text.
  assert (Hc : canonical (d ++ r) = true) by (rewrite canonical_app, Hd, Hr; reflexivity).
  assert (Hpre : forall b a, d ++ r = b ++ a -> fs b = fs' b).
  { intros b a Hba. apply Hagree. apply (prefix_of_extension d r a b b Hba eq_refl). }
  rewrite (walk_same fs fs' (d ++ r) [] Hc) by (intros b a Hba; apply (Hpre b a Hba)).
  destruct (walk fs' [] (d ++ r)) as [q|] eqn:W; [|exact I].
  apply walk_canonical in W; [|exact Hc]. simpl in W. subst q.
  rewrite (Hpre (d ++ r) []) by (rewrite app_nil_r; reflexivity).
  destruct (fs' (d ++ r)) as [[|]|]; exact I.
Qed.

Lemma serve_index_agree (w : World) (token : string) (static_dir : Path) :
  below d static_dir ->
  (serve_index w fs token d static_dir).1 = (serve_index w fs' token d static_dir).1.
Proof.
  intros Hs. unfold serve_index.
  destruct (search_locations_agree static_dir Hs) as [Hloc Hbelow].
  rewrite <- Hloc.
  rewrite <- (find_index_file_below _ Hbelow).
  destruct (find_index_file fs _) as [index_path|] eqn:Hf.
  - destruct (find_index_file_is_below _ _ Hbelow Hf) as [r [-> Hr]].
    rewrite <- (read_text_utf8_agree d fs fs' Hd Hagree r Hr).
    destruct (read_text_utf8 fs (d ++ r)); reflexivity.
  - rewrite <- find_main_entry_agree, <- is_react_project_agree.
    change (d // "package.json") with (d ++ ["package.json"]).
    change (d // "src") with (d ++ ["src"]).
    rewrite <- !(path_exists_agree d fs fs' Hd Hagree [_]) by reflexivity.
    destruct (path_exists fs (d ++ ["package.json"]) || path_exists fs (d ++ ["src"]));
      [|reflexivity].
    destruct Hs as [s [-> Hs]].
    change ((d ++ s) // "index.html") with ((d ++ s) ++ ["index.html"]).
    rewrite <- app_assoc.
    assert (Hc : canonical (s ++ ["index.html"]) = true)
      by (rewrite canonical_app, Hs; reflexivity).
    match goal with
    | |- context [write_text fs ?p ?c] =>
        pose proof (write_text_agree (s ++ ["index.html"]) c Hc) as Hw;
        destruct (write_text fs p c), (write_text fs' p c)
    end; try reflexivity; contradiction.
Qed.

Lemma serve_file_agree (static_dir : Path) (file_path : string) :
  below d static_dir ->
  canonical (parse_parts (lstrip_slash file_path)) = true ->
  serve_file fs d static_dir file_path = serve_file fs' d static_dir file_path.
Proof.
  intros [s [-> Hs]] Hp. unfold serve_file.
  rewrite !joinpath_lstrip.
  set (parts := parse_parts (lstrip_slash file_path)) in *.
  rewrite <- !(app_assoc d s parts).
  assert (Hc : canonical (s ++ parts) = true) by (rewrite canonical_app, Hs, Hp; reflexivity).
  rewrite <- !(path_exists_agree d fs fs' Hd Hagree _ Hc).
  rewrite <- !(is_file_agree d fs fs' Hd Hagree _ Hc).
  rewrite <- !(is_dir_agree d fs fs' Hd Hagree _ Hc).
  rewrite <- !(path_exists_agree d fs fs' Hd Hagree _ Hp).
  rewrite <- !(is_file_agree d fs fs' Hd Hagree _ Hp).
  assert (Hi : find_index_file fs (@cons Path (d ++ s ++ parts) (@nil Path))
               = find_index_file fs' (@cons Path (d ++ s ++ parts) (@nil Path))).
  { apply find_index_file_below. constructor; [|constructor].
    exists (s ++ parts). split; [reflexivity|exact Hc]. }
  rewrite <- Hi. reflexivity.
Qed.

(** The answer is read off the session directory: what differs
    elsewhere on the disk does not change it. *)
Lemma serve_files_agree (w : World) (token file_path : string) :
  canonical (parse_parts (lstrip_slash file_path)) = true ->
  (serve_files w fs token d file_path).1 = (serve_files w fs' token d file_path).1.
Proof.
  intros Hp. unfold serve_files.
  rewrite <- (find_static_dir_agree d fs fs' Hd Hagree).
  destruct (String.eqb file_path "" || String.eqb file_path "/").
  - apply serve_index_agree. apply below_static.
  - cbn [fst]. apply serve_file_agree; [apply below_static|exact Hp].
Qed.

End FrameOfAnswers.

(** ** One preview and the others *)

Lemma canonical_preview_directory (token : string) :
  token <> ".." -> canonical (create_preview_directory token) = true.
Proof.
  intros H. unfold create_preview_directory, PREVIEW_BASE_DIR, canonical. cbn [app forallb].
  destruct (String.eqb_spec token ".."); [contradiction|reflexivity].
Qed.

Lemma rmtree_agree_around (token other : string) (fs : filesystem) :
  other <> token -> token <> ".." ->
  agree_around (create_preview_directory other)
               (rmtree (create_preview_directory token) fs) fs.
Proof.
  intros Hne Ht p Hp. unfold rmtree.
  rewrite (canonical_resolve _ (canonical_preview_directory token Ht)).
  destruct (is_under p (create_preview_directory token)) eqn:E; [|reflexivity].
  exfalso. apply is_under_iff in E. destruct E as [r ->].
  unfold create_preview_directory, PREVIEW_BASE_DIR in Hp. cbn [app] in Hp.
  destruct Hp as [Hp|Hp]; apply is_under_iff in Hp; destruct Hp as [r' Hr'];
    cbn [app] in Hr'.
  - inversion Hr'. congruence.
  - destruct r as [|x r]; cbn [app] in Hr'; inversion Hr'. congruence.
Qed.

Lemma agree_around_sym (d : Path) (fs fs' : filesystem) :
  agree_around d fs fs' -> agree_around d fs' fs.
Proof. intros H p Hp. symmetry. apply H. exact Hp. Qed.

(** X6: stopping one preview leaves the others as they are. *)
Theorem stop_leaves_other_previews
    (w : World) (token other : string) (pv pv' : Preview) (now : Z) (st : State) :
  lock st = false ->
  previews st !! token = Some pv ->
  now < expires_at pv ->
  path pv = create_preview_directory token ->
  previews st !! other = Some pv' ->
  path pv' = create_preview_directory other ->
  other <> token -> token <> ".." -> other <> ".." ->
  exists st',
    returns (stop_preview token now) st true st' /\
    previews st' !! other = Some pv' /\
    (process pv' <> process pv -> process pv' ∈ alive st -> process pv' ∈ alive st') /\
    (forall p, is_under p (path pv') = true -> disk st' p = disk st p) /\
    (forall file_path now',
       canonical (parse_parts (lstrip_slash file_path)) = true ->
       now' < expires_at pv' ->
       exists r s1 s2,
         returns (serve_preview w other file_path now') st r s1 /\
         returns (serve_preview w other file_path now') st' r s2).
Proof.
  intros Hl Hp Hlt Hpath Hp' Hpath' Hne Ht Ho.
  exists (torn_down token pv st).
  assert (Hagree : agree_around (path pv') (disk (torn_down token pv st)) (disk st)).
  { simpl. destruct (path_exists (disk st) (path pv)).
    - rewrite Hpath, Hpath'. apply rmtree_agree_around; assumption.
    - intros p _. reflexivity. }
  assert (Hother : previews (torn_down token pv st) !! other = Some pv').
  { simpl. rewrite lookup_delete_ne by congruence. exact Hp'. }
  split; [apply stop_preview_live; assumption|].
  split; [exact Hother|].
  split; [|split].
  - intros Hpid Hin. simpl. set_solver.
  - intros p Hu. apply Hagree. left. exact Hu.
  - intros file_path now' Hc Hlt'.
    eexists _, _, _. split.
    + apply (serve_preview_live w other file_path pv' now' st Hl Hp' Hlt').
    + rewrite <- (serve_files_agree (path pv') (disk (torn_down token pv st)) (disk st)
                    ltac:(rewrite Hpath'; apply canonical_preview_directory; exact Ho)
                    Hagree w other file_path Hc).
      apply (serve_preview_live w other file_path pv' now' (torn_down token pv st)
               eq_refl Hother Hlt').
Qed.

Lemma stop_leaves_other_previews_witness :
  exists st',
    returns (stop_preview "t" 10) shared_state true st' /\
    previews st' !! "b" = Some built_preview.
Proof.
  destruct (stop_leaves_other_previews demo_world "t" "b" demo_preview built_preview 10
              shared_state)
    as (st' & H1 & H2 & _);
    [reflexivity|reflexivity|simpl; lia|reflexivity|reflexivity|reflexivity
    |discriminate|discriminate|discriminate|].
  exists st'. split; [exact H1|exact H2].
Defined.

(** ** The port and the outcomes of a creation *)

Lemma find_port_from (w : World) (start_port : Z) (n a : nat) :
  match first_free_port w (List.map (fun i => start_port + Z.of_nat i) (seq a n)) with
  | Some port =>
      exists i, (a <= i < a + n)%nat /\ port = start_port + Z.of_nat i /\
                valid_port port = true /\ port_answers w port = false /\
                forall j, (a <= j < i)%nat ->
                          valid_port (start_port + Z.of_nat j) = true /\
                          port_answers w (start_port + Z.of_nat j) = true
  | None =>
      (exists i, (a <= i < a + n)%nat /\
                 valid_port (start_port + Z.of_nat i) = false /\
                 forall j, (a <= j < i)%nat ->
                           valid_port (start_port + Z.of_nat j) = true /\
                           port_answers w (start_port + Z.of_nat j) = true) \/
      (forall j, (a <= j < a + n)%nat ->
                 valid_port (start_port + Z.of_nat j) = true /\
                 port_answers w (start_port + Z.of_nat j) = true)
  end.
Proof.
  revert a. induction n as [|n IH]; intros a; cbn [seq List.map first_free_port].
  - right. intros j Hj. lia.
  - destruct (valid_port (start_port + Z.of_nat a)) eqn:V; cbn [negb].
    + destruct (port_answers w (start_port + Z.of_nat a)) eqn:E; cbn [negb].
      * specialize (IH (S a)).
        assert (Hstep : forall i (P : nat -> Prop),
                  (forall j, (S a <= j < i)%nat -> P j) -> P a ->
                  forall j, (a <= j < i)%nat -> P j).
        { intros i P HP Ha j Hj. destruct (decide (j = a)) as [->|Hne]; [exact Ha|].
          apply HP. lia. }
        destruct (first_free_port w _) as [port|].
        -- destruct IH as (i & Hi & -> & Hv & Hfree & Hbusy).
           exists i. split; [lia|]. split; [reflexivity|]. split; [exact Hv|].
           split; [exact Hfree|].
           apply (Hstep i (fun j => valid_port (start_port + Z.of_nat j) = true /\
                                    port_answers w (start_port + Z.of_nat j) = true));
             [exact Hbusy|split; assumption].
        -- destruct IH as [(i & Hi & Hv & Hbusy)|Hall].
           ++ left. exists i. split; [lia|]. split; [exact Hv|].
              apply (Hstep i (fun j => valid_port (start_port + Z.of_nat j) = true /\
                                       port_answers w (start_port + Z.of_nat j) = true));
                [exact Hbusy|split; assumption].
           ++ right.
              apply (Hstep (a + S n)%nat
                       (fun j => valid_port (start_port + Z.of_nat j) = true /\
                                 port_answers w (start_port + Z.of_nat j) = true));
                [|split; assumption].
              intros j Hj. apply Hall. lia.
      * exists a. split; [lia|]. split; [reflexivity|]. split; [exact V|].
        split; [exact E|]. intros j Hj. lia.
    + left. exists a. split; [lia|]. split; [exact V|]. intros j Hj. lia.
Qed.

(** X9: the port is the first of the hundred that refuses a connection;
    the search raises when all hundred answer, and when it comes to a
    number that is no port before it finds one. *)
Theorem find_available_port_first_free (w : World) (start_port : Z) :
  match find_available_port w start_port with
  | Some port =>
      start_port <= port < start_port + 100 /\
      0 <= port <= 65535 /\
      port_answers w port = false /\
      forall q, start_port <= q < port -> 0 <= q <= 65535 /\ port_answers w q = true
  | None =>
      (exists bad, start_port <= bad < start_port + 100 /\
                   ~ 0 <= bad <= 65535 /\
                   forall q, start_port <= q < bad ->
                             0 <= q <= 65535 /\ port_answers w q = true) \/
      (forall q, start_port <= q < start_port + 100 ->
                 0 <= q <= 65535 /\ port_answers w q = true)
  end.
Proof.
  assert (Hv : forall q, valid_port q = true <-> 0 <= q <= 65535)
    by (intros q; unfold valid_port; lia).
  assert (Hat : forall q, start_port <= q ->
                          q = start_port + Z.of_nat (Z.to_nat (q - start_port)))
    by (intros q Hq; lia).
  unfold find_available_port.
  pose proof (find_port_from w start_port 100 0) as H.
  destruct (first_free_port w _) as [port|].
  - destruct H as (i & Hi & -> & Hvalid & Hfree & Hbusy).
    split; [lia|]. split; [apply Hv; exact Hvalid|]. split; [exact Hfree|].
    intros q Hq. rewrite (Hat q) by lia. rewrite <- Hv. apply Hbusy. lia.
  - destruct H as [(i & Hi & Hbad & Hbusy)|Hall].
    + left. exists (start_port + Z.of_nat i). split; [lia|]. split.
      * rewrite <- Hv. rewrite Hbad. discriminate.
      * intros q Hq. rewrite (Hat q) by lia. rewrite <- Hv. apply Hbusy. lia.
    + right. intros q Hq. rewrite (Hat q) by lia. rewrite <- Hv. apply Hall. lia.
Qed.

Lemma cleanup_on_error_returns (preview_dir : Path) (st : State) :
  exists st',
    returns (cleanup_on_error preview_dir) st NotCreated st' /\
    previews st' = previews st /\ alive st' = alive st /\ lock st' = lock st /\
    path_exists (disk st') preview_dir = false.
Proof.
  eexists. split.
  - unfold cleanup_on_error. eapply returns_bind; [apply returns_Do_Ret|apply returns_Ret].
  - cbn [fst snd]. destruct (path_exists (disk st) preview_dir) eqn:E.
    + cbn. repeat split. apply rmtree_gone.
    + repeat split. exact E.
Qed.

Lemma create_preview_run
    (w : World) (zip_data : archive) (base_url : string) (now : Z) (st : State) :
  lock st = false ->
  exists r st',
    returns (create_preview w zip_data base_url now) st r st' /\
    lock st' = false /\
    match r with
    | Created info =>
        preview_token info = uuid4 w /\
        preview_url info = base_url +:+ "/preview/" +:+ uuid4 w /\
        find_available_port w 3000 = Some (info_port info) /\
        exists pid,
          previews st' = <[uuid4 w := mkPreview (create_preview_directory (uuid4 w))
                                                (info_port info) pid (now + 600) now]>
                           (previews st) /\
          alive st' = {[pid]} ∪ alive st /\
          popen w (find_static_files (disk st') (create_preview_directory (uuid4 w)))
                (info_port info) = Some pid
    | NotCreated =>
        previews st' = previews st /\ alive st' = alive st /\
        path_exists (disk st') (create_preview_directory (uuid4 w)) = false
    | CreationRaised =>
        previews st' = previews st /\ alive st' = alive st /\
        (makedirs (create_preview_directory (uuid4 w)) (disk st)).1 = false
    end.
Proof.
  intros Hl. unfold create_preview.
  set (dir := create_preview_directory (uuid4 w)).
  destruct (makedirs dir (disk st)) as [made fs1] eqn:Hmk.
  destruct made.
  2:{ eexists _, _. split; [|split].
      - eapply returns_bind; [apply returns_Do_Ret|]. cbn beta. rewrite Hmk.
        cbn [fst snd negb]. apply returns_Ret.
      - exact Hl.
      - repeat split. }
  destruct (extract_zip_to_directory zip_data dir fs1) as [extracted fs2] eqn:Hex.
  destruct extracted.
  2:{ destruct (cleanup_on_error_returns dir (set_disk fs2 (set_disk fs1 st)))
        as (st' & Hrun & Hp & Ha & Hl' & Hgone).
      exists NotCreated, st'. split; [|split].
      - eapply returns_bind; [apply returns_Do_Ret|]. cbn beta. rewrite Hmk.
        cbn [fst snd negb].
        eapply returns_bind; [apply returns_Do_Ret|]. cbn beta.
        cbn [disk set_disk]. rewrite Hex. cbn [fst snd negb]. exact Hrun.
      - rewrite Hl'. exact Hl.
      - rewrite Hp, Ha. repeat split. exact Hgone. }
  destruct (install_dependencies w dir fs2) as [installed fs3] eqn:Hi.
  destruct (build_project w dir fs3) as [built fs4] eqn:Hb.
  set (st4 := set_disk fs4 (set_disk fs3 (set_disk fs2 (set_disk fs1 st)))).
  assert (Hpre : forall (k : prog creation) r st',
             returns k st4 r st' ->
             returns (made <- Do (fun st => let '(ok, fs') := makedirs dir (disk st) in
                                            (ok, set_disk fs' st)) Ret ;;
                      if negb made then Ret CreationRaised else
                      extracted <- Do (fun st =>
                                     let '(ok, fs') :=
                                       extract_zip_to_directory zip_data dir (disk st) in
                                     (ok, set_disk fs' st)) Ret ;;
                      if negb extracted then cleanup_on_error dir else
                      Do (fun st => let '(ok, fs') := install_dependencies w dir (disk st) in
                                    (ok, set_disk fs' st)) Ret ;;
                      Do (fun st => let '(ok, fs') := build_project w dir (disk st) in
                                    (ok, set_disk fs' st)) Ret ;;
                      k) st r st').
  { intros k r st' Hk.
    eapply returns_bind; [apply returns_Do_Ret|]. cbn beta. rewrite Hmk.
    cbn [fst snd negb].
    eapply returns_bind; [apply returns_Do_Ret|]. cbn beta.
    cbn [disk set_disk]. rewrite Hex. cbn [fst snd negb].
    eapply returns_bind; [apply returns_Do_Ret|]. cbn beta. cbn [disk set_disk].
    rewrite Hi. cbn [fst snd].
    eapply returns_bind; [apply returns_Do_Ret|]. cbn beta. cbn [disk set_disk].
    rewrite Hb. cbn [fst snd]. exact Hk. }
  destruct (find_available_port w 3000) as [port|] eqn:Hport.
  2:{ destruct (cleanup_on_error_returns dir st4) as (st' & Hrun & Hp & Ha & Hl' & Hgone).
      exists NotCreated, st'. split; [apply Hpre; exact Hrun|].
      split; [rewrite Hl'; exact Hl|]. rewrite Hp, Ha. repeat split. exact Hgone. }
  destruct (popen w (find_static_files fs4 dir) port) as [pid|] eqn:Hpopen.
  2:{ destruct (cleanup_on_error_returns dir st4) as (st' & Hrun & Hp & Ha & Hl' & Hgone).
      exists NotCreated, st'. split; [|split].
      - apply Hpre.
        eapply returns_bind; [apply returns_Do_Ret|]. cbn beta.
        unfold start_preview_server. cbn [disk set_disk st4]. rewrite Hpopen.
        cbn [fst snd]. exact Hrun.
      - rewrite Hl'. exact Hl.
      - rewrite Hp, Ha. repeat split. exact Hgone. }
  eexists (Created _), _. split; [|split].
  - apply Hpre.
    eapply returns_bind; [apply returns_Do_Ret|]. cbn beta.
    unfold start_preview_server. cbn [disk set_disk st4]. rewrite Hpopen. cbn [fst snd].
    eapply returns_bind; [apply register_preview_free; exact Hl|].
    apply returns_Ret.
  - exact Hl.
  - cbn. repeat split. exists pid. repeat split. exact Hpopen.
Qed.

(** X10: a creation always ends, and one that fails leaves nothing behind. *)
Theorem create_preview_outcomes
    (w : World) (zip_data : archive) (base_url : string) (now : Z) (st : State) :
  lock st = false ->
  exists r st',
    returns (create_preview w zip_data base_url now) st r st' /\
    lock st' = false /\
    match r with
    | Created info =>
        preview_token info = uuid4 w /\
        preview_url info = base_url +:+ "/preview/" +:+ uuid4 w /\
        find_available_port w 3000 = Some (info_port info) /\
        exists pid,
          previews st' = <[uuid4 w := mkPreview (create_preview_directory (uuid4 w))
                                                (info_port info) pid (now + 600) now]>
                           (previews st) /\
          alive st' = {[pid]} ∪ alive st /\
          popen w (find_static_files (disk st') (create_preview_directory (uuid4 w)))
                (info_port info) = Some pid
    | NotCreated =>
        previews st' = previews st /\ alive st' = alive st /\
        path_exists (disk st') (create_preview_directory (uuid4 w)) = false
    | CreationRaised =>
        previews st' = previews st /\ alive st' = alive st /\
        (makedirs (create_preview_directory (uuid4 w)) (disk st)).1 = false
    end.
Proof. apply create_preview_run. Qed.

Lemma create_preview_outcomes_witness :
  exists r st',
    returns (create_preview demo_world None "http://localhost" 5) empty_state r st' /\
    lock st' = false.
Proof.
  destruct (create_preview_outcomes demo_world None "http://localhost" 5 empty_state eq_refl)
    as (r & st' & H1 & H2 & _).
  exists r, st'. split; [exact H1|exact H2].
Defined.

(** ** The page a build leaves out *)

Lemma write_text_stat (fs fs' : filesystem) (p : Path) (c : string) :
  write_text fs p c = Some fs' ->
  exists q, walk fs [] p = Some q /\ fs q <> Some Dir /\
    (forall q', fs' q' = if path_eqb q' q then Some (File c) else fs q') /\
    forall p', stat fs' p' =
               match walk fs [] p' with
               | Some q' => if path_eqb q' q then Some (File c) else fs q'
               | None => None
               end.
Proof.
  unfold write_text. destruct (walk fs [] p) as [q|] eqn:W; [|discriminate].
  intros H. exists q. split; [reflexivity|].
  assert (Hq : fs q <> Some Dir) by (destruct (fs q) as [[|]|]; congruence).
  split; [exact Hq|].
  assert (Hfs : fs' = update fs q (File c)) by (destruct (fs q) as [[|]|]; congruence).
  split; [intros q'; rewrite Hfs; reflexivity|].
  intros p'. unfold stat. rewrite Hfs, walk_update_file by exact Hq.
  destruct (walk fs [] p') as [q'|]; reflexivity.
Qed.

Lemma is_dir_walk (fs : filesystem) (p : Path) :
  is_dir fs p = true -> exists q, walk fs [] p = Some q /\ fs q = Some Dir.
Proof.
  unfold is_dir, stat. destruct (walk fs [] p) as [q|]; [|discriminate].
  destruct (fs q) as [[|]|] eqn:E; try discriminate. intros _. exists q. tauto.
Qed.

Lemma walk_into (fs : filesystem) (p q : Path) (c : string) :
  walk fs [] p = Some q -> fs q = Some Dir -> String.eqb c ".." = false ->
  walk fs [] (p ++ [c]) = Some (q ++ [c]).
Proof.
  intros W Hq Hc. rewrite walk_app, W. simpl. rewrite Hq. unfold step. rewrite Hc.
  reflexivity.
Qed.

Lemma snoc_neq {A : Type} (l : list A) (x : A) : l <> l ++ [x].
Proof.
  intros H. apply (f_equal length) in H. rewrite length_app in H. simpl in H. lia.
Qed.

Lemma existsb_build (scripts : list string) :
  In "build" scripts -> existsb (String.eqb "build") scripts = true.
Proof.
  intros H. apply existsb_exists. exists "build". split; [exact H|reflexivity].
Qed.

Lemma has_index_file (fs : filesystem) (d : Path) :
  is_file fs (d ++ ["index.html"]) = true -> has_index fs d = true.
Proof.
  intros H. rewrite has_index_entry_page. unfold contains_entry_page. rewrite H. reflexivity.
Qed.

(** X11: a build that leaves [dist] without a page gets the page of the
    project root, and then both rules choose [dist]. *)
Theorem build_copies_entry_page
    (w : World) (preview_dir : Path) (fs fs1 : filesystem)
    (text page : string) (scripts : list string) :
  read_text fs (preview_dir // "package.json") = Some text ->
  json_scripts w text = Some scripts ->
  In "build" scripts ->
  npm_run_build w fs = (Exited 0, fs1) ->
  is_dir fs1 (preview_dir // "dist") = true ->
  path_exists fs1 (preview_dir // "dist" // "index.html") = false ->
  read_text fs1 (preview_dir // "index.html") = Some page ->
  exists fs2,
    build_project w preview_dir fs = (true, fs2) /\
    read_text fs2 (preview_dir // "dist" // "index.html") = Some page /\
    (forall q, fs2 q = fs1 q \/ (fs1 q = None /\ fs2 q = Some (File page))) /\
    find_static_dir fs2 preview_dir = preview_dir // "dist" /\
    find_static_files fs2 preview_dir = preview_dir // "dist".
Proof.
  intros Hpkg Hjson Hin Hbuild Hdist Hnone Hpage.
  change (preview_dir // "dist" // "index.html")
    with ((preview_dir ++ ["dist"]) ++ ["index.html"]) in *.
  change (preview_dir // "dist") with (preview_dir ++ ["dist"]) in *.
  destruct (is_dir_walk _ _ Hdist) as (qd & Wd & Hqd).
  pose proof (walk_into fs1 _ qd "index.html" Wd Hqd eq_refl) as Wi.
  assert (Hfree : fs1 (qd ++ ["index.html"]) = None).
  { unfold path_exists, stat in Hnone. rewrite Wi in Hnone.
    destruct (fs1 (qd ++ ["index.html"])); [discriminate|reflexivity]. }
  destruct (write_text fs1 ((preview_dir ++ ["dist"]) ++ ["index.html"]) page)
    as [fs2|] eqn:Hw.
  2:{ unfold write_text in Hw. rewrite Wi, Hfree in Hw. discriminate. }
  destruct (write_text_stat _ _ _ _ Hw) as (q & Wq & _ & Hnode & Hstat).
  rewrite Wi in Wq. inversion Wq; subst q. clear Wq.
  pose proof (write_then_read _ _ _ _ Hw) as Hread.
  assert (Hdir2 : is_dir fs2 (preview_dir ++ ["dist"]) = true).
  { unfold is_dir. rewrite Hstat, Wd. unfold path_eqb.
    rewrite bool_decide_eq_false_2 by apply snoc_neq. rewrite Hqd. reflexivity. }
  exists fs2. split; [|split; [exact Hread|split; [|split]]].
  - unfold build_project.
    rewrite (is_file_exists _ _ (read_text_is_file _ _ _ Hpkg)). cbn [negb].
    rewrite Hpkg, Hjson, (existsb_build _ Hin). cbn [negb]. rewrite Hbuild.
    change (0 =? 0) with true. cbn [negb].
    change (preview_dir // "dist" // "index.html")
      with ((preview_dir ++ ["dist"]) ++ ["index.html"]).
    change (preview_dir // "dist") with (preview_dir ++ ["dist"]).
    unfold path_exists at 1. unfold is_dir in Hdist.
    destruct (stat fs1 (preview_dir ++ ["dist"])) as [[|]|]; try discriminate.
    rewrite Hnone.
    rewrite (is_file_exists _ _ (read_text_is_file _ _ _ Hpage)).
    unfold copy_file. rewrite Hpage, Hw. reflexivity.
  - intros q. rewrite Hnode. unfold path_eqb. case_bool_decide as Heq; [|left; reflexivity].
    right. subst q. split; [exact Hfree|reflexivity].
  - rewrite find_static_dir_priority. unfold serving_root_by_priority, entry_directory.
    rewrite Hdir2. unfold contains_entry_page.
    rewrite (read_text_is_file _ _ _ Hread). reflexivity.
  - rewrite find_static_files_first. rewrite Hdir2. reflexivity.
Qed.

Lemma build_copies_entry_page_witness :
  exists fs2,
    build_project vite_world ["tmp"; "previews"; "v"] vite_disk = (true, fs2) /\
    read_text fs2 (["tmp"; "previews"; "v"] // "dist" // "index.html")
      = Some "<script src='/src/main.js'></script>".
Proof.
  destruct (build_copies_entry_page vite_world ["tmp"; "previews"; "v"] vite_disk
              (update vite_disk ["tmp"; "previews"; "v"; "dist"] Dir)
              "{}" "<script src='/src/main.js'></script>" ["dev"; "build"])
    as (fs2 & H1 & H2 & _);
    [reflexivity|reflexivity|simpl; tauto|reflexivity|reflexivity|reflexivity|reflexivity|].
  exists fs2. split; [exact H1|exact H2].
Defined.

(** ** Pages without references, and the type of a file *)

Lemma re_sub_nothing (tag attr : string) (repl : list (list ascii) -> list ascii)
    (s : list ascii) :
  occurs (lit tag) s = false ->
  re_sub (ref_pattern tag attr) repl s = s.
Proof.
  intros Hocc.
  pose proof (re_sub_no_match (ref_pattern tag attr) repl s []) as H.
  rewrite app_nil_r in H. rewrite H.
  - apply app_nil_r.
  - intros u w Hs Hw. rewrite app_nil_r. apply match_at_needs_tag.
    destruct (strip_lit (lit tag) w) as [r|] eqn:E; [|reflexivity].
    apply strip_lit_Some in E. exfalso.
    apply (occurs_false _ _ Hocc u r). rewrite Hs, E. reflexivity.
Qed.

(** X18: a page without link and script tags is sent as it is. *)
Theorem rewrite_html_without_tags (token page : string) :
  occurs (lit "<link") (lit page) = false ->
  occurs (lit "<script") (lit page) = false ->
  rewrite_html token page = page.
Proof.
  intros Hl Hs. unfold rewrite_html, link_pattern, script_pattern.
  rewrite (re_sub_nothing "<link" "href=") by exact Hl.
  rewrite (re_sub_nothing "<script" "src=") by exact Hs.
  apply String.string_of_list_ascii_of_string.
Qed.

Lemma rewrite_html_without_tags_witness :
  rewrite_html "t" "<html><body><h1>Hello</h1></body></html>"
  = "<html><body><h1>Hello</h1></body></html>".
Proof. apply rewrite_html_without_tags; reflexivity. Defined.

Lemma lit_app (a b : string) : lit (a +:+ b) = lit a ++ lit b.
Proof.
  unfold lit. induction a as [|c a IH]; [reflexivity|].
  change (String c a +:+ b) with (String c (a +:+ b)).
  cbn [String.list_ascii_of_string]. rewrite IH. reflexivity.
Qed.

Lemma string_of_lit (s : string) (l : list ascii) :
  lit s = l -> String.string_of_list_ascii l = s.
Proof. intros <-. apply String.string_of_list_ascii_of_string. Qed.

(** ** The made-up page, rewritten *)

Lemma fallback_index_shape (main_entry : string) :
  lit (fallback_index main_entry)
  = lit fallback_head ++ lit "<script" ++ lit (" type=" +:+ DQ +:+ "module" +:+ DQ +:+ " ")
      ++ lit "src=" ++ dquote :: lit ("/src/" +:+ main_entry) ++ dquote :: []
      ++ lit ">" ++ lit fallback_foot.
Proof. unfold fallback_index. rewrite !lit_app. reflexivity. Qed.

Lemma proxied_index_shape (token main_entry : string) :
  lit (proxied_index token main_entry)
  = lit fallback_head ++ lit "<script" ++ lit (" type=" +:+ DQ +:+ "module" +:+ DQ +:+ " ")
      ++ lit "src=" ++ dquote :: lit (rewritten_value token ("/src/" +:+ main_entry))
      ++ dquote :: [] ++ lit ">" ++ lit fallback_foot.
Proof.
  unfold proxied_index.
  change (rewritten_value token ("/src/" +:+ main_entry))
    with ("/preview/" +:+ token +:+ "/src/" +:+ main_entry).
  rewrite !lit_app, <- !app_assoc. reflexivity.
Qed.

Lemma rewrite_fallback_index_when (token main_entry : string) :
  occurs (lit "<link") (lit (fallback_index main_entry)) = false ->
  forallb (fun c => not_quote c && not_gt c) (lit ("/src/" +:+ main_entry)) = true ->
  attr_later (lit "src=") (lit ("/src/" +:+ main_entry) ++ [dquote]) = false ->
  rewrite_html token (fallback_index main_entry) = proxied_index token main_entry.
Proof.
  intros Hlink Hplain Hattr.
  unfold rewrite_html, link_pattern, script_pattern, rewrite_script. apply string_of_lit.
  rewrite (re_sub_nothing "<link" "href=") by exact Hlink.
  rewrite fallback_index_shape, proxied_index_shape.
  rewrite (ref_sub_first_tag "<script" "src=" token "<"%char (lit "script"));
    try assumption; try reflexivity; try discriminate.
  simpl. intros [H|[H|[H|[H|[H|[H|[]]]]]]]; discriminate.
Qed.

(** The page made up for any of the entry scripts the endpoint looks
    for. *)
Lemma rewrite_fallback_index (token main_entry : string) :
  In main_entry main_entries ->
  rewrite_html token (fallback_index main_entry) = proxied_index token main_entry.
Proof.
  intros Hin. unfold main_entries in Hin. simpl in Hin.
  destruct Hin as [<-|[<-|[<-|[<-|[<-|[<-|[]]]]]]];
    apply rewrite_fallback_index_when; reflexivity.
Qed.

(** ** The page the endpoint makes up *)

Lemma has_index_first (fs : filesystem) (dir : Path) :
  has_index fs dir = false -> first_index fs dir index_files = None.
Proof.
  unfold has_index. cbn [find_index_file].
  destruct (first_index fs dir index_files); [discriminate|reflexivity].
Qed.

Lemma find_index_file_none (fs : filesystem) (dirs : list Path) :
  Forall (fun dir => has_index fs dir = false) dirs -> find_index_file fs dirs = None.
Proof.
  induction 1 as [|dir dirs H _ IH]; [reflexivity|].
  cbn [find_index_file]. rewrite (has_index_first _ _ H). exact IH.
Qed.

Lemma find_index_file_head (fs : filesystem) (dir : Path) (dirs : list Path) :
  is_file fs (dir ++ ["index.html"]) = true ->
  find_index_file fs (dir :: dirs) = Some (dir ++ ["index.html"]).
Proof.
  intros H. cbn [find_index_file]. unfold index_files. cbn [first_index].
  change (dir // "index.html") with (dir ++ ["index.html"]).
  rewrite (is_file_exists _ _ H), H. reflexivity.
Qed.

Lemma mime_of_index_html (dir : Path) : get_mime_type (dir ++ ["index.html"]) = "text/html".
Proof. unfold get_mime_type, suffix. rewrite last_snoc. reflexivity. Qed.

Lemma write_text_other (fs fs' : filesystem) (p p' : Path) (c : string) :
  canonical p = true -> canonical p' = true -> p' <> p ->
  write_text fs p c = Some fs' -> stat fs' p' = stat fs p'.
Proof.
  intros Hp Hp' Hne Hw.
  destruct (write_text_stat _ _ _ _ Hw) as (q & Wq & _ & _ & Hstat).
  apply walk_canonical in Wq; [|exact Hp]. simpl in Wq. subst q.
  rewrite Hstat. unfold stat.
  destruct (walk fs [] p') as [q'|] eqn:W'; [|reflexivity].
  apply walk_canonical in W'; [|exact Hp']. simpl in W'. subst q'.
  unfold path_eqb. rewrite bool_decide_eq_false_2 by exact Hne. reflexivity.
Qed.

Lemma write_text_into_dir (fs : filesystem) (dir : Path) (name c : string) :
  canonical dir = true ->
  String.eqb name ".." = false ->
  is_dir fs dir = true ->
  is_dir fs (dir ++ [name]) = false ->
  write_text fs (dir ++ [name]) c = Some (update fs (dir ++ [name]) (File c)).
Proof.
  intros Hc Hn Hd Hnd.
  destruct (is_dir_walk _ _ Hd) as (q & W & Hq).
  pose proof (walk_canonical _ _ _ _ Hc W) as Eq. simpl in Eq. subst q.
  pose proof (walk_into fs dir dir name W Hq Hn) as Wi.
  unfold write_text. rewrite Wi.
  unfold is_dir, stat in Hnd. rewrite Wi in Hnd.
  destruct (fs (dir ++ [name])) as [[|]|]; try reflexivity. discriminate.
Qed.

Lemma entry_false (fs : filesystem) (dir : Path) :
  has_index fs dir = false -> entry_directory fs dir = false.
Proof.
  intros H. unfold entry_directory. rewrite <- has_index_entry_page, H.
  apply andb_false_r.
Qed.

(** X15: the page made up for a project without entry page is written to
    the serving root, and the next request for the entry page gets the
    same answer from it. *)
Theorem synthesized_entry_page_is_kept
    (w : World) (fs : filesystem) (token : string) (preview_dir : Path) :
  canonical preview_dir = true ->
  has_index fs preview_dir = false ->
  (forall sub, In sub ["dist"; "build"; "out"; "public"] ->
               has_index fs (preview_dir ++ [sub]) = false) ->
  path_exists fs (preview_dir // "package.json") || path_exists fs (preview_dir // "src")
    = true ->
  is_dir fs (find_static_dir fs preview_dir // "index.html") = false ->
  exists main_entry fs',
    In main_entry main_entries /\
    serve_files w fs token preview_dir ""
      = (HTMLResponse (proxied_index token main_entry) "text/html", fs') /\
    read_text fs' (find_static_dir fs preview_dir // "index.html")
      = Some (fallback_index main_entry) /\
    (forall q, q <> find_static_dir fs preview_dir // "index.html" -> fs' q = fs q) /\
    serve_files w fs' token preview_dir ""
      = (HTMLResponse (proxied_index token main_entry) "text/html", fs').
Proof.
  intros Hd H0 Hsub Hweb Hnd.
  set (static := find_static_dir fs preview_dir) in *.
  assert (Hdist := Hsub "dist" ltac:(simpl; tauto)).
  assert (Hbuild := Hsub "build" ltac:(simpl; tauto)).
  assert (Hout := Hsub "out" ltac:(simpl; tauto)).
  assert (Hpublic := Hsub "public" ltac:(simpl; tauto)).
  assert (Hstatic : static = if is_dir fs (preview_dir ++ ["dist"])
                             then preview_dir ++ ["dist"] else preview_dir).
  { unfold static. rewrite find_static_dir_priority. unfold serving_root_by_priority.
    rewrite !entry_false by assumption.
    rewrite <- has_index_entry_page, H0. reflexivity. }
  assert (Hroot : is_dir fs preview_dir = true).
  { change (preview_dir // "package.json") with (preview_dir ++ ["package.json"]) in Hweb.
    change (preview_dir // "src") with (preview_dir ++ ["src"]) in Hweb.
    apply orb_true_iff in Hweb. unfold path_exists in Hweb.
    destruct Hweb as [H|H].
    - destruct (stat fs (preview_dir ++ ["package.json"])) eqn:E; [|discriminate].
      eapply stat_snoc_dir. exact E.
    - destruct (stat fs (preview_dir ++ ["src"])) eqn:E; [|discriminate].
      eapply stat_snoc_dir. exact E. }
  assert (Hsdir : is_dir fs static = true).
  { rewrite Hstatic. destruct (is_dir fs (preview_dir ++ ["dist"])) eqn:E; assumption. }
  assert (Hscan : canonical static = true).
  { rewrite Hstatic. destruct (is_dir fs (preview_dir ++ ["dist"]));
      [rewrite canonical_app, Hd; reflexivity|exact Hd]. }
  assert (Hsidx : has_index fs static = false).
  { rewrite Hstatic. destruct (is_dir fs (preview_dir ++ ["dist"])); assumption. }
  change (static // "index.html") with (static ++ ["index.html"]) in *.
  set (page :=
         if is_react_project w fs (preview_dir // "package.json")
         then fallback_index (default "main.jsx" (find_main_entry fs (preview_dir // "src")))
         else fallback_index (default "main.js" (find_main_entry fs (preview_dir // "src")))).
  assert (Hpage : exists main_entry,
             In main_entry main_entries /\ page = fallback_index main_entry).
  { unfold page.
    assert (Hd1 : forall dflt, In dflt main_entries ->
              In (default dflt (find_main_entry fs (preview_dir // "src"))) main_entries).
    { intros dflt Hdflt. unfold find_main_entry.
      destruct (path_exists fs (preview_dir // "src")); [|exact Hdflt].
      destruct (List.find _ main_entries) as [e|] eqn:Hfind; [|exact Hdflt].
      apply find_some in Hfind. tauto. }
    destruct (is_react_project w fs _); eexists; (split; [|reflexivity]);
      apply Hd1; unfold main_entries; simpl; tauto. }
  pose proof (write_text_into_dir fs static "index.html" page Hscan eq_refl Hsdir Hnd) as Hw.
  set (fs' := update fs (static ++ ["index.html"]) (File page)) in *.
  pose proof (write_then_read _ _ _ _ Hw) as Hread.
  assert (Hfirst : serve_files w fs token preview_dir "" = (HTMLResponse (rewrite_html token page) "text/html", fs')).
  { unfold serve_files. cbn [String.eqb orb]. fold static. unfold serve_index.
    rewrite find_index_file_none.
    - rewrite Hweb. fold page.
      change (static // "index.html") with (static ++ ["index.html"]).
      rewrite Hw. reflexivity.
    - apply Forall_app. split; [repeat constructor; assumption|].
      change (List.map (joinpath preview_dir) ["dist"; "build"; "out"; "public"])
        with [preview_dir ++ ["dist"]; preview_dir ++ ["build"];
              preview_dir ++ ["out"]; preview_dir ++ ["public"]].
      cbn [List.filter].
      destruct (path_exists fs (preview_dir ++ ["dist"])),
               (path_exists fs (preview_dir ++ ["build"])),
               (path_exists fs (preview_dir ++ ["out"])),
               (path_exists fs (preview_dir ++ ["public"]));
        repeat constructor; assumption. }
  assert (Hother : forall p, canonical p = true -> p <> static ++ ["index.html"] ->
                             stat fs' p = stat fs p).
  { intros p Hp Hne. apply (write_text_other fs fs' (static ++ ["index.html"]) p page);
      [rewrite canonical_app, Hscan; reflexivity|exact Hp|exact Hne|exact Hw]. }
  assert (Hstatic' : find_static_dir fs' preview_dir = static).
  { rewrite find_static_dir_priority. unfold serving_root_by_priority, entry_directory,
      contains_entry_page.
    rewrite Hstatic in *. destruct (is_dir fs (preview_dir ++ ["dist"])) eqn:Edist.
    - unfold is_dir at 1. rewrite Hother;
        [|rewrite canonical_app, Hd; reflexivity|apply snoc_neq].
      fold (is_dir fs (preview_dir ++ ["dist"])). rewrite Edist.
      rewrite (read_text_is_file _ _ _ Hread). reflexivity.
    - assert (Hsame : forall sub name,
                 canonical [sub] = true -> canonical [name] = true ->
                 is_file fs' ((preview_dir ++ [sub]) ++ [name])
                 = is_file fs ((preview_dir ++ [sub]) ++ [name])).
      { intros sub name Hs Hn. unfold is_file. rewrite Hother; [reflexivity| |].
        - rewrite !canonical_app, Hd, Hs, Hn. reflexivity.
        - intros E. apply (f_equal length) in E. rewrite !length_app in E. simpl in E. lia. }
      rewrite !Hsame by reflexivity.
      fold (contains_entry_page fs (preview_dir ++ ["dist"])).
      fold (contains_entry_page fs (preview_dir ++ ["build"])).
      fold (contains_entry_page fs (preview_dir ++ ["out"])).
      fold (contains_entry_page fs (preview_dir ++ ["public"])).
      rewrite <- !has_index_entry_page, Hdist, Hbuild, Hout, Hpublic.
      rewrite !andb_false_r.
      rewrite (read_text_is_file _ _ _ Hread). reflexivity. }
  destruct Hpage as [main_entry [Hentry Hpage]]. exists main_entry, fs'.
  rewrite <- (rewrite_fallback_index token main_entry Hentry), <- Hpage.
  split; [exact Hentry|]. split; [exact Hfirst|]. split; [exact Hread|]. split.
  - intros q Hq. unfold fs', update, path_eqb.
    rewrite bool_decide_eq_false_2 by exact Hq. reflexivity.
  - unfold serve_files. cbn [String.eqb orb]. rewrite Hstatic'. unfold serve_index.
    cbn [app].
    rewrite (find_index_file_head fs' static _ (read_text_is_file _ _ _ Hread)).
    rewrite (write_then_read_utf8 _ _ _ _ Hw), Hpage.
    rewrite (decode_fallback_index _ Hentry), mime_of_index_html. reflexivity.
Qed.

Lemma synthesized_entry_page_is_kept_witness :
  exists main_entry fs',
    serve_files vite_world bare_disk "v" ["tmp"; "previews"; "v"] ""
      = (HTMLResponse (proxied_index "v" main_entry) "text/html", fs') /\
    read_text fs' (find_static_dir bare_disk ["tmp"; "previews"; "v"] // "index.html")
      = Some (fallback_index main_entry).
Proof.
  destruct (synthesized_entry_page_is_kept vite_world bare_disk "v" ["tmp"; "previews"; "v"])
    as (main_entry & fs' & _ & H1 & H2 & _);
    [reflexivity|reflexivity| |reflexivity|reflexivity|].
  - intros sub Hin. simpl in Hin.
    destruct Hin as [<-|[<-|[<-|[<-|[]]]]]; reflexivity.
  - exists main_entry, fs'. split; [exact H1|exact H2].
Defined.

Lemma startswith_empty (s : string) : startswith s "" = true.
Proof. destruct s; reflexivity. Qed.

Lemma contains_dot_cons (c : ascii) (s : string) :
  contains (String c s) "." = Ascii.eqb c "." || contains s ".".
Proof.
  cbn [contains startswith]. rewrite startswith_empty, andb_true_r.
  rewrite Ascii.eqb_sym. reflexivity.
Qed.

Lemma rfind_dot_none (s : string) : contains s "." = false -> rfind_dot s = None.
Proof.
  induction s as [|c s IH]; [reflexivity|].
  rewrite contains_dot_cons. intros H. apply orb_false_iff in H. destruct H as [Hc Hs].
  cbn [rfind_dot]. rewrite (IH Hs), Hc. reflexivity.
Qed.

Lemma rfind_dot_last (stem ext : string) :
  contains ext "." = false -> rfind_dot (stem +:+ "." +:+ ext) = Some ("." +:+ ext).
Proof.
  intros H. induction stem as [|c stem IH].
  - change ("" +:+ "." +:+ ext) with (String "." ext).
    cbn [rfind_dot]. rewrite (rfind_dot_none _ H). reflexivity.
  - change (String c stem +:+ "." +:+ ext) with (String c (stem +:+ "." +:+ ext)).
    cbn [rfind_dot]. rewrite IH. reflexivity.
Qed.

Lemma lower_app (a b : string) : lower (a +:+ b) = lower a +:+ lower b.
Proof.
  induction a as [|c a IH]; [reflexivity|].
  change (String c a +:+ b) with (String c (a +:+ b)). cbn [lower]. rewrite IH. reflexivity.
Qed.

(** X17: the type of a file follows the extension of its name, whatever
    the case of its letters; a name without extension, a name that is
    only an extension and a name that ends in a dot get the default. *)
Theorem get_mime_type_by_extension (dir : Path) :
  (forall stem ext,
     stem <> "" -> ext <> "" -> contains ext "." = false ->
     get_mime_type (dir ++ [stem +:+ "." +:+ ext])
     = default "application/octet-stream" (assoc ("." +:+ lower ext) mime_types)) /\
  (forall name,
     contains name "." = false ->
     get_mime_type (dir ++ [name]) = "application/octet-stream") /\
  (forall ext,
     contains ext "." = false ->
     get_mime_type (dir ++ ["." +:+ ext]) = "application/octet-stream") /\
  (forall stem, get_mime_type (dir ++ [stem +:+ "."]) = "application/octet-stream").
Proof.
  split; [|split; [|split]].
  - intros stem ext Hs He Hd. unfold get_mime_type, suffix. rewrite last_snoc.
    destruct stem as [|c stem]; [contradiction|].
    change (String c stem +:+ "." +:+ ext) with (String c (stem +:+ "." +:+ ext)).
    cbn [name_suffix]. rewrite (rfind_dot_last _ _ Hd).
    destruct ext as [|e ext]; [contradiction|].
    change ("." +:+ String e ext) with (String "." (String e ext)).
    reflexivity.
  - intros name Hd. unfold get_mime_type, suffix. rewrite last_snoc.
    destruct name as [|c name]; [reflexivity|].
    rewrite contains_dot_cons in Hd. apply orb_false_iff in Hd. destruct Hd as [_ Hd].
    cbn [name_suffix]. rewrite (rfind_dot_none _ Hd). reflexivity.
  - intros ext Hd. unfold get_mime_type, suffix. rewrite last_snoc.
    change ("." +:+ ext) with (String "." ext).
    cbn [name_suffix]. rewrite (rfind_dot_none _ Hd). reflexivity.
  - intros stem. unfold get_mime_type, suffix. rewrite last_snoc.
    destruct stem as [|c stem]; [reflexivity|].
    change (String c stem +:+ ".") with (String c (stem +:+ "." +:+ "")).
    cbn [name_suffix]. rewrite (rfind_dot_last stem "" eq_refl). reflexivity.
Qed.

Lemma get_mime_type_by_extension_witness :
  get_mime_type (["tmp"; "previews"; "t"] ++ ["INDEX" +:+ "." +:+ "HTML"])
  = default "application/octet-stream" (assoc ("." +:+ lower "HTML") mime_types).
Proof.
  apply (proj1 (get_mime_type_by_extension ["tmp"; "previews"; "t"]));
    [discriminate|discriminate|reflexivity].
Defined.

(** ** Requests without [..] *)

Lemma resolve_app_canonical (a parts : Path) :
  canonical parts = true -> resolve (a ++ parts) = resolve a ++ parts.
Proof. intros H. rewrite resolve_app. apply fold_step_canonical. exact H. Qed.

Lemma serve_file_nul (fs : filesystem) (preview_dir static_dir : Path)
    (file_path : string) :
  contains file_path NUL = true ->
  serve_file fs preview_dir static_dir file_path = HTTPException 403.
Proof. intros H. unfold serve_file. rewrite H. reflexivity. Qed.

Lemma serve_file_canonical
    (fs : filesystem) (preview_dir static_dir : Path) (file_path : string) :
  canonical (parse_parts (lstrip_slash file_path)) = true ->
  contains file_path NUL = false ->
  serve_file fs preview_dir static_dir file_path <> HTTPException 403 /\
  (is_file fs (static_dir ++ parse_parts (lstrip_slash file_path)) = true ->
   serve_file fs preview_dir static_dir file_path
   = FileResponse (static_dir ++ parse_parts (lstrip_slash file_path))
                  (get_mime_type (static_dir ++ parse_parts (lstrip_slash file_path)))) /\
  (path_exists fs (static_dir ++ parse_parts (lstrip_slash file_path)) = false ->
   is_file fs (preview_dir ++ parse_parts (lstrip_slash file_path)) = true ->
   static_dir <> preview_dir ->
   serve_file fs preview_dir static_dir file_path
   = FileResponse (preview_dir ++ parse_parts (lstrip_slash file_path))
                  (get_mime_type (preview_dir ++ parse_parts (lstrip_slash file_path)))) /\
  (path_exists fs (static_dir ++ parse_parts (lstrip_slash file_path)) = false ->
   is_file fs (preview_dir ++ parse_parts (lstrip_slash file_path)) = false ->
   serve_file fs preview_dir static_dir file_path = HTTPException 404).
Proof.
  intros Hc Hnul. unfold serve_file. rewrite Hnul, !joinpath_lstrip.
  set (parts := parse_parts (lstrip_slash file_path)) in *.
  rewrite !(resolve_app_canonical _ _ Hc), !relative_to_app.
  split; [|split; [|split]].
  - repeat match goal with
           | |- context [if ?b then _ else _] => destruct b
           | |- context [match ?o with Some _ => _ | None => _ end] => destruct o
           end; discriminate.
  - intros Hf. rewrite (is_file_exists _ _ Hf), Hf. reflexivity.
  - intros Hn Hf Hne. rewrite Hn, (is_file_exists _ _ Hf), Hf.
    unfold path_eqb. rewrite bool_decide_eq_false_2; [reflexivity|].
    intros E. apply app_inv_tail in E. congruence.
  - intros Hn Hf. rewrite Hn, Hf.
    destruct (path_exists fs (preview_dir ++ parts) && _); reflexivity.
Qed.

(** X16: a request path without [..] is denied exactly when it holds a
    NUL character. Without one, and with names within the limits of the
    operating system, it gets the file of that name below the serving
    root, else the one below the session directory, else 404. *)
Theorem request_without_dotdot
    (fs : filesystem) (preview_dir static_dir : Path) (file_path : string) :
  canonical (parse_parts (lstrip_slash file_path)) = true ->
  (serve_file fs preview_dir static_dir file_path = HTTPException 403 <->
   contains file_path NUL = true) /\
  (contains file_path NUL = false ->
   within_limits (static_dir ++ parse_parts (lstrip_slash file_path)) = true ->
   within_limits (preview_dir ++ parse_parts (lstrip_slash file_path)) = true ->
   (is_file fs (static_dir ++ parse_parts (lstrip_slash file_path)) = true ->
    serve_file fs preview_dir static_dir file_path
    = FileResponse (static_dir ++ parse_parts (lstrip_slash file_path))
                   (get_mime_type (static_dir ++ parse_parts (lstrip_slash file_path)))) /\
   (path_exists fs (static_dir ++ parse_parts (lstrip_slash file_path)) = false ->
    is_file fs (preview_dir ++ parse_parts (lstrip_slash file_path)) = true ->
    static_dir <> preview_dir ->
    serve_file fs preview_dir static_dir file_path
    = FileResponse (preview_dir ++ parse_parts (lstrip_slash file_path))
                   (get_mime_type (preview_dir ++ parse_parts (lstrip_slash file_path)))) /\
   (path_exists fs (static_dir ++ parse_parts (lstrip_slash file_path)) = false ->
    is_file fs (preview_dir ++ parse_parts (lstrip_slash file_path)) = false ->
    serve_file fs preview_dir static_dir file_path = HTTPException 404)).
Proof.
  intros Hc. split.
  - split.
    + intros H403. destruct (contains file_path NUL) eqn:Hnul; [reflexivity|].
      destruct (serve_file_canonical fs preview_dir static_dir file_path Hc Hnul)
        as [Hne _]. contradiction.
    + apply serve_file_nul.
  - intros Hnul _ _.
    apply (serve_file_canonical fs preview_dir static_dir file_path Hc Hnul).
Qed.

Lemma request_without_dotdot_witness :
  serve_file built_disk ["tmp"; "previews"; "b"] ["tmp"; "previews"; "b"; "dist"]
             "/etc/passwd"
  = FileResponse ["tmp"; "previews"; "b"; "etc"; "passwd"] "application/octet-stream".
Proof.
  apply (proj1 (proj2 (proj2 (request_without_dotdot built_disk ["tmp"; "previews"; "b"]
                                ["tmp"; "previews"; "b"; "dist"] "/etc/passwd" eq_refl)
                             eq_refl eq_refl eq_refl))
               eq_refl eq_refl).
  discriminate.
Defined.

(** ** Extraction of a whole archive *)

Lemma app_neq_self {A : Type} (l r : list A) : r <> [] -> l <> l ++ r.
Proof.
  intros Hr H. apply (f_equal length) in H. rewrite length_app in H.
  destruct r; [contradiction|simpl in H; lia].
Qed.

Lemma split_snoc {A : Type} (b a U : list A) (x : A) :
  b ++ a = U ++ [x] -> a <> [] -> exists a', a = a' ++ [x] /\ U = b ++ a'.
Proof.
  intros H Ha. destruct (exists_last Ha) as [a' [y ->]].
  rewrite app_assoc in H. apply app_inj_tail in H. destruct H as [H ->].
  exists a'. split; [reflexivity|symmetry; exact H].
Qed.

Lemma walk_prefix (fs : filesystem) (a b : Path) :
  canonical a = true ->
  walk fs [] (a ++ b) = Some (a ++ b) -> walk fs [] a = Some a.
Proof.
  intros Ha H. rewrite walk_app in H.
  destruct (walk fs [] a) as [q|] eqn:W; [|discriminate].
  apply walk_canonical in W; [|exact Ha]. simpl in W. subst q. reflexivity.
Qed.

Section Step.

Variable target : Path.
Hypothesis Hc : canonical target = true.

Lemma extracted_above (done : list member) (fs : filesystem) (b l : Path) :
  extracted target done fs -> target = b ++ l -> fs b = Some Dir.
Proof.
  intros E Hsplit. destruct l as [|y l].
  - rewrite app_nil_r in Hsplit. subst b. apply (ex_target _ _ _ E).
  - apply (walk_dirs fs target [] target Hc (ex_walk _ _ _ E) b (y :: l) Hsplit).
    discriminate.
Qed.

Lemma extract_member_step (done : list member) (fs : filesystem)
    (name content : string) :
  extracted target done fs ->
  arcname_parts name <> [] ->
  (forall c, last_char name = Some c -> c <> "/"%char) ->
  (forall n c, In (n, c) done ->
     is_under (arcname_parts n) (arcname_parts name) = false /\
     is_under (arcname_parts name) (arcname_parts n) = false) ->
  exists fs',
    extract_member target name content fs = (true, fs') /\
    extracted target (done ++ [(name, content)]) fs'.
Proof.
  intros E Hparts Hfile Hclash.
  pose proof (valid_parts_canonical name) as Hpc.
  unfold extract_member.
  set (P := arcname_parts name) in *.
  destruct (exists_last Hparts) as [U [x HP]].
  assert (Hup : removelast (target ++ P) = target ++ U).
  { rewrite HP, app_assoc. apply removelast_last. }
  rewrite Hup.
  assert (HcU' : canonical U = true).
  { rewrite HP, canonical_app in Hpc. apply andb_true_iff in Hpc. tauto. }
  assert (HcU : canonical (target ++ U) = true) by (rewrite canonical_app, Hc, HcU'; reflexivity).
  assert (Hcx : canonical [x] = true).
  { rewrite HP, canonical_app in Hpc. apply andb_true_iff in Hpc. tauto. }
  (* no member is a file on the way to the new one *)
  assert (Hnofile : forall b a, U = b ++ a -> b <> [] ->
                               forall c, fs (target ++ b) <> Some (File c)).
  { intros b a HU Hb c Hf.
    destruct (ex_only_files _ _ _ E b c Hb Hf) as [n [Hin Hn]].
    destruct (Hclash n c Hin) as [_ H2].
    assert (is_under P (arcname_parts n) = true).
    { apply is_under_iff. exists (a ++ [x]). rewrite HP, HU, <- Hn, <- app_assoc.
      reflexivity. }
    congruence. }
  assert (HtP : fs (target ++ P) = None).
  { destruct (fs (target ++ P)) as [[c|]|] eqn:Hf; [| |reflexivity]; exfalso.
    - destruct (ex_only_files _ _ _ E P c Hparts Hf) as [n [Hin Hn]].
      destruct (Hclash n c Hin) as [H1 _].
      rewrite <- Hn in H1. unfold is_under in H1. rewrite relative_to_refl in H1.
      discriminate.
    - destruct (ex_only_dirs _ _ _ E P Hparts Hf) as [n [c [a [Hin [Ha Hn]]]]].
      destruct (Hclash n c Hin) as [H1 _].
      assert (is_under (arcname_parts n) P = true) by (apply is_under_iff; eauto).
      congruence. }
  assert (Hstep :
    exists fs1,
      (if negb (path_exists fs (target ++ U))
       then makedirs (target ++ U) fs else (true, fs)) = (true, fs1) /\
      walk fs1 [] (target ++ U) = Some (target ++ U) /\
      fs1 (target ++ U) = Some Dir /\
      (forall p, fs1 p = fs p \/
                 (fs p = None /\ fs1 p = Some Dir /\
                  exists b a, b <> [] /\ U = b ++ a /\ p = target ++ b))).
  { destruct (path_exists fs (target ++ U)) eqn:Hex; cbn [negb].
    - exists fs. split; [reflexivity|].
      unfold path_exists, stat in Hex.
      destruct (walk fs [] (target ++ U)) as [q|] eqn:HwU; [|discriminate].
      pose proof (walk_canonical fs _ [] q HcU HwU) as Hq. simpl in Hq. subst q.
      split; [reflexivity|]. split; [|intros p; left; reflexivity].
      destruct U as [|u U].
      + rewrite app_nil_r. apply (ex_target _ _ _ E).
      + destruct (fs (target ++ u :: U)) as [[c|]|] eqn:Hf; [|reflexivity|discriminate].
        exfalso. apply (Hnofile (u :: U) [] ltac:(rewrite app_nil_r; reflexivity)
                          ltac:(discriminate) c Hf).
    - unfold makedirs.
      destruct (makedirs_from_ok (target ++ U) [] fs HcU (ex_root _ _ _ E)) as [M1 [M2 M3]].
      { intros b a Hsplit Hb c. simpl.
        apply app_eq_app in Hsplit. destruct Hsplit as [l [[H1 H2]|[H1 H2]]].
        - rewrite (extracted_above done fs b l E H1). discriminate.
        - subst b. destruct l as [|y l].
          + rewrite app_nil_r, (ex_target _ _ _ E). discriminate.
          + apply (Hnofile (y :: l) a H2). discriminate. }
      destruct (makedirs_from [] (target ++ U) fs) as [ok fs1] eqn:Hmk.
      cbn [fst snd] in M1, M2, M3. subst ok. exists fs1.
      split; [reflexivity|]. split; [exact M2|]. split; [exact M3|].
      intros p.
      pose proof (makedirs_from_changes (target ++ U) [] fs p) as Hch.
      rewrite Hmk in Hch. cbn [snd] in Hch.
      destruct Hch as [Heq | [Hn [Hd [a [b [Hb [Hsplit Hp]]]]]]]; [left; exact Heq|].
      right. split; [exact Hn|]. split; [exact Hd|]. simpl in Hp. subst p.
      apply app_eq_app in Hsplit. destruct Hsplit as [l [[H1 H2]|[H1 H2]]].
      + rewrite (extracted_above done fs b l E H1) in Hn. discriminate.
      + subst b. destruct l as [|y l].
        * rewrite app_nil_r, (ex_target _ _ _ E) in Hn. discriminate.
        * exists (y :: l), a. split; [discriminate|]. split; [exact H2|reflexivity]. }
  destruct Hstep as [fs1 [-> [Hw1 [Hd1 Hch]]]].
  assert (Hkeep : forall p n, fs p = Some n -> fs1 p = Some n).
  { intros p n Hp. destruct (Hch p) as [->|[Hn _]]; [exact Hp|congruence]. }
  assert (Hn1 : fs1 (target ++ P) = None).
  { destruct (Hch (target ++ P)) as [->|[_ [_ [b [a [Hb [HU Hp]]]]]]]; [exact HtP|].
    exfalso. apply app_inv_head in Hp.
    pose proof (f_equal length HP) as L1. pose proof (f_equal length HU) as L2.
    pose proof (f_equal length Hp) as L3.
    rewrite !length_app in L1, L2. simpl in L1. lia. }
  assert (HwP : walk fs1 [] (target ++ P) = Some (target ++ P)).
  { rewrite HP, app_assoc, walk_app, Hw1. simpl. rewrite Hd1.
    rewrite (step_canonical _ _ Hcx). reflexivity. }
  destruct (last_char name) as [c|] eqn:Hlast.
  2:{ apply last_char_None in Hlast. subst name. contradiction Hparts. reflexivity. }
  destruct (Ascii.eqb c "/") eqn:Hslash.
  { apply Ascii.eqb_eq in Hslash. exfalso. apply (Hfile c eq_refl Hslash). }
  unfold write_text. rewrite HwP, Hn1.
  eexists. split; [reflexivity|].
  set (fs2 := update fs1 (target ++ P) (File content)).
  assert (Hother : forall p, p <> target ++ P -> fs2 p = fs1 p).
  { intros p Hp. apply update_other. exact Hp. }
  assert (Hnew : fs2 (target ++ P) = Some (File content)) by apply update_same.
  assert (Hlonger : forall b l, target = b ++ l -> b <> target ++ P).
  { intros b l Hsplit Heq. rewrite Hsplit, <- app_assoc in Heq.
    apply (app_neq_self b (l ++ P)); [|exact Heq].
    destruct l; [exact Hparts|discriminate]. }
  constructor.
  - rewrite Hother by (apply (Hlonger [] target); reflexivity).
    apply Hkeep, (ex_root _ _ _ E).
  - unfold fs2. rewrite walk_update_file by (rewrite Hn1; discriminate).
    apply (walk_prefix fs1 target U Hc Hw1).
  - rewrite Hother by (apply (Hlonger target []); symmetry; apply app_nil_r).
    apply Hkeep, (ex_target _ _ _ E).
  - intros n c0 Hin. apply in_app_or in Hin. destruct Hin as [Hin|[Heq|[]]].
    + rewrite Hother.
      * apply Hkeep, (ex_files _ _ _ E n c0 Hin).
      * intros Heq. apply app_inv_head in Heq.
        destruct (Hclash n c0 Hin) as [H1 _]. rewrite Heq in H1.
        unfold is_under in H1. rewrite relative_to_refl in H1. discriminate.
    + inversion Heq; subst n c0. exact Hnew.
  - intros n c0 b a Hin Hsplit Ha. apply in_app_or in Hin. destruct Hin as [Hin|[Heq|[]]].
    + rewrite Hother.
      * apply Hkeep, (ex_dirs _ _ _ E n c0 b a Hin Hsplit Ha).
      * intros Heq. apply app_inv_head in Heq. subst b.
        destruct (Hclash n c0 Hin) as [H1 _].
        assert (is_under (arcname_parts n) P = true) by (apply is_under_iff; eauto).
        congruence.
    + inversion Heq; subst n c0. fold P in Hsplit.
      rewrite Hother by (intros Heq'; apply app_inv_head in Heq'; subst b;
                         apply (app_neq_self P a Ha); exact Hsplit).
      rewrite HP in Hsplit. symmetry in Hsplit.
      destruct (split_snoc b a U x Hsplit Ha) as [a' [-> HU]].
      destruct a' as [|y a'].
      * rewrite app_nil_r in HU. subst b. exact Hd1.
      * apply (walk_dirs fs1 (target ++ U) [] (target ++ U) HcU Hw1 (target ++ b) (y :: a'));
          [rewrite HU, app_assoc; reflexivity|discriminate].
  - intros r c0 Hr Hf.
    destruct (decide (r = P)) as [->|Hne].
    + rewrite Hnew in Hf. inversion Hf; subst c0.
      exists name. split; [apply in_or_app; right; left; reflexivity|reflexivity].
    + rewrite Hother in Hf by (intros Heq; apply app_inv_head in Heq; contradiction).
      destruct (Hch (target ++ r)) as [Heq|[_ [Hd _]]]; [|congruence].
      rewrite Heq in Hf.
      destruct (ex_only_files _ _ _ E r c0 Hr Hf) as [n [Hin Hn]].
      exists n. split; [apply in_or_app; left; exact Hin|exact Hn].
  - intros r Hr Hdir.
    destruct (decide (r = P)) as [->|Hne]; [rewrite Hnew in Hdir; discriminate|].
    rewrite Hother in Hdir by (intros Heq; apply app_inv_head in Heq; contradiction).
    destruct (Hch (target ++ r)) as [Heq|[_ [_ [b [a [Hb [HU Hp]]]]]]].
    + rewrite Heq in Hdir.
      destruct (ex_only_dirs _ _ _ E r Hr Hdir) as [n [c0 [a [Hin [Ha Hn]]]]].
      exists n, c0, a. split; [apply in_or_app; left; exact Hin|]. tauto.
    + apply app_inv_head in Hp. subst r.
      exists name, content, (a ++ [x]).
      split; [apply in_or_app; right; left; reflexivity|].
      split; [destruct a; discriminate|].
      fold P. rewrite HP, HU, <- app_assoc. reflexivity.
Qed.

End Step.

Lemma file_entry_spec (name : string) :
  file_entry name = true ->
  arcname_parts name <> [] /\ (forall c, last_char name = Some c -> c <> "/"%char).
Proof.
  unfold file_entry. destruct (arcname_parts name); [discriminate|].
  destruct (last_char name) as [c|]; [|discriminate].
  intros H. split; [discriminate|]. intros c' [= <-] ->. discriminate.
Qed.

Lemma no_clash_app (l1 l2 : list Path) (p : Path) :
  no_clash (l1 ++ p :: l2) = true ->
  forall q, In q l1 -> is_under q p = false /\ is_under p q = false.
Proof.
  induction l1 as [|a l1 IH]; intros H q Hin; [destruct Hin|].
  cbn [app no_clash] in H. apply andb_true_iff in H. destruct H as [Ha Hrest].
  destruct Hin as [<-|Hin]; [|apply (IH Hrest q Hin)].
  rewrite forallb_forall in Ha.
  specialize (Ha p ltac:(apply in_or_app; right; left; reflexivity)).
  apply andb_true_iff in Ha. destruct Ha as [H1 H2].
  apply negb_true_iff in H1, H2. tauto.
Qed.

Lemma getinfo_in (name : string) (members : list member) (c : string) :
  getinfo name members = Some c -> In (name, c) members.
Proof.
  induction members as [|[n0 c0] ms IH]; [discriminate|].
  cbn [getinfo]. destruct (getinfo name ms) as [c'|].
  - intros [= ->]. right. apply IH. reflexivity.
  - destruct (String.eqb_spec n0 name) as [->|]; [|discriminate].
    intros [= ->]. left. reflexivity.
Qed.

Lemma getinfo_no_clash (members : list member) :
  no_clash (List.map (fun m => arcname_parts m.1) members) = true ->
  forall n c, In (n, c) members -> getinfo n members = Some c.
Proof.
  induction members as [|[n0 c0] ms IH]; intros H n c Hin; [destruct Hin|].
  cbn [List.map no_clash fst] in H. apply andb_true_iff in H. destruct H as [H0 Hrest].
  cbn [getinfo]. destruct Hin as [[= -> ->]|Hin].
  - destruct (getinfo n ms) as [c'|] eqn:G.
    + exfalso. apply getinfo_in in G. rewrite forallb_forall in H0.
      specialize (H0 (arcname_parts n) ltac:(apply (in_map (fun m => arcname_parts m.1) ms (n, c')); exact G)).
      unfold is_under in H0. rewrite relative_to_refl in H0. discriminate.
    + rewrite String.eqb_refl. reflexivity.
  - rewrite (IH Hrest n c Hin). reflexivity.
Qed.

Lemma walk_all_dirs (fs : filesystem) (rest cur : Path) :
  canonical rest = true ->
  (forall b a, rest = b ++ a -> a <> [] -> fs (cur ++ b) = Some Dir) ->
  walk fs cur rest = Some (cur ++ rest).
Proof.
  revert cur. induction rest as [|c rest IH]; intros cur Hc H.
  - rewrite app_nil_r. reflexivity.
  - change (c :: rest) with ([c] ++ rest) in Hc. rewrite canonical_app in Hc.
    apply andb_true_iff in Hc. destruct Hc as [Hc1 Hc2].
    cbn [walk]. pose proof (H [] (c :: rest) eq_refl ltac:(discriminate)) as H0.
    rewrite app_nil_r in H0. rewrite H0, (step_canonical _ _ Hc1), IH.
    + rewrite <- app_assoc. reflexivity.
    + exact Hc2.
    + intros b a Hsplit Ha. rewrite <- app_assoc. apply (H ([c] ++ b) a); [|exact Ha].
      simpl. congruence.
Qed.

Section Archive.

Variable target : Path.
Hypothesis Hc : canonical target = true.

Lemma extracted_read (done : list member) (fs : filesystem) (n c : string) :
  extracted target done fs -> In (n, c) done ->
  read_text fs (target ++ arcname_parts n) = Some c.
Proof.
  intros E Hin. unfold read_text, stat.
  rewrite walk_app, (ex_walk _ _ _ E).
  rewrite (walk_all_dirs fs (arcname_parts n) target (valid_parts_canonical n)).
  - rewrite (ex_files _ _ _ E n c Hin). reflexivity.
  - intros b a Hsplit Ha. apply (ex_dirs _ _ _ E n c b a Hin Hsplit Ha).
Qed.

Lemma extracted_start (fs : filesystem) : empty_dir fs target -> extracted target [] fs.
Proof.
  intros He. destruct (empty_dir_root fs target Hc He) as [Hw [Hd Hroot]].
  assert (Hnone : forall r, r <> [] -> fs (target ++ r) = None).
  { intros r Hr. destruct He as [_ He]. apply He; [apply is_under_iff; eauto|].
    intros Heq. symmetry in Heq. revert Heq. apply app_neq_self. exact Hr. }
  constructor; try assumption.
  - intros n c [].
  - intros n c b a [].
  - intros r c Hr Hf. rewrite (Hnone r Hr) in Hf. discriminate.
  - intros r Hr Hf. rewrite (Hnone r Hr) in Hf. discriminate.
Qed.

Lemma extract_names_all (members todo done : list member) (fs : filesystem) :
  (forall n c, In (n, c) todo -> getinfo n members = Some c) ->
  forallb (fun m => file_entry m.1) todo = true ->
  no_clash (List.map (fun m => arcname_parts m.1) (done ++ todo)) = true ->
  extracted target done fs ->
  exists fs',
    extract_names target todo.*1 members fs = (true, fs') /\
    extracted target (done ++ todo) fs'.
Proof.
  revert done fs. induction todo as [|[name content] todo IH]; intros done fs Hget Hfile Hno E.
  - exists fs. rewrite app_nil_r. split; [reflexivity|exact E].
  - cbn [forallb fst] in Hfile. apply andb_true_iff in Hfile. destruct Hfile as [Hf Hfile].
    destruct (file_entry_spec _ Hf) as [Hparts Hlast].
    cbn [fmap list_fmap fst]. cbn [extract_names].
    rewrite (Hget name content ltac:(left; reflexivity)).
    destruct (extract_member_step target Hc done fs name content E Hparts Hlast)
      as [fs1 [Hex E1]].
    { intros n c Hin. rewrite map_app in Hno. cbn [List.map fst] in Hno.
      apply (no_clash_app _ _ _ Hno (arcname_parts n)).
      apply (in_map (fun m => arcname_parts m.1) done (n, c)). exact Hin. }
    rewrite Hex.
    destruct (IH (done ++ [(name, content)]) fs1) as [fs' [Hrun E']].
    + intros n c Hin. apply Hget. right. exact Hin.
    + exact Hfile.
    + rewrite <- app_assoc. exact Hno.
    + exact E1.
    + exists fs'. split; [exact Hrun|]. rewrite <- app_assoc in E'. exact E'.
Qed.

End Archive.

Lemma extraction_round_trip_run
    (members : list member) (target : Path) (fs : filesystem) :
  canonical target = true ->
  empty_dir fs target ->
  forallb (fun m => file_entry m.1) members = true ->
  no_clash (List.map (fun m => arcname_parts m.1) members) = true ->
  exists fs',
    extract_zip_to_directory (Some members) target fs = (true, fs') /\
    (forall name content, In (name, content) members ->
       read_text fs' (target ++ arcname_parts name) = Some content) /\
    (forall p c, is_under p target = true -> fs' p = Some (File c) ->
       exists name, In (name, c) members /\ p = target ++ arcname_parts name) /\
    extracted target members fs'.
Proof.
  intros Hc He Hfile Hno.
  destruct (empty_dir_root fs target Hc He) as [Hw [Hd Hroot]].
  destruct (extract_names_all target Hc members members [] fs
              (getinfo_no_clash members Hno) Hfile Hno (extracted_start target Hc fs He))
    as [fs' [Hrun E]].
  cbn [app] in E.
  exists fs'. split; [|split; [|split; [|exact E]]].
  - unfold extract_zip_to_directory, makedirs.
    rewrite (makedirs_from_existing fs target [] target Hc Hw Hd).
    unfold extractall. exact Hrun.
  - intros name content Hin. apply (extracted_read target members fs' name content E Hin).
  - intros p c Hu Hf. apply is_under_iff in Hu. destruct Hu as [r ->].
    destruct r as [|x r].
    + rewrite app_nil_r, (ex_target _ _ _ E) in Hf. discriminate.
    + destruct (ex_only_files _ _ _ E (x :: r) c ltac:(discriminate) Hf) as [n [Hin Hn]].
      exists n. split; [exact Hin|]. rewrite Hn. reflexivity.
Qed.

(** X12: an archive of files whose paths do not clash is unpacked whole:
    every member is read back at its path, and no other file is made. *)
Theorem extraction_round_trip
    (members : list member) (target : Path) (fs : filesystem) :
  canonical target = true ->
  empty_dir fs target ->
  forallb (fun m => file_entry m.1) members = true ->
  no_clash (List.map (fun m => arcname_parts m.1) members) = true ->
  exists fs',
    extract_zip_to_directory (Some members) target fs = (true, fs') /\
    (forall name content, In (name, content) members ->
       read_text fs' (target ++ arcname_parts name) = Some content) /\
    (forall p c, is_under p target = true -> fs' p = Some (File c) ->
       exists name, In (name, c) members /\ p = target ++ arcname_parts name).
Proof.
  intros Hc He Hfile Hno.
  destruct (extraction_round_trip_run members target fs Hc He Hfile Hno)
    as (fs' & H1 & H2 & H3 & _).
  exists fs'. split; [exact H1|]. split; [exact H2|exact H3].
Qed.

Lemma fresh_directory_empty :
  empty_dir (makedirs ["tmp"; "previews"; "t"] root_disk).2 ["tmp"; "previews"; "t"].
Proof.
  split; [reflexivity|]. intros p Hu Hne. vm_compute.
  apply is_under_iff in Hu. destruct Hu as [r ->].
  destruct r as [|x r]; [contradiction Hne; reflexivity|].
  unfold path_eqb. repeat (rewrite bool_decide_eq_false_2 by discriminate).
  reflexivity.
Qed.

Lemma extraction_round_trip_witness :
  exists fs',
    extract_zip_to_directory
      (Some [("index.html", "<h1>hi</h1>"); ("/styles/main.css", "body{}");
             ("scripts/../scripts/main.js", "let x")])
      ["tmp"; "previews"; "t"] (makedirs ["tmp"; "previews"; "t"] root_disk).2
    = (true, fs') /\
    read_text fs' ["tmp"; "previews"; "t"; "styles"; "main.css"] = Some "body{}".
Proof.
  destruct (extraction_round_trip
              [("index.html", "<h1>hi</h1>"); ("/styles/main.css", "body{}");
               ("scripts/../scripts/main.js", "let x")]
              ["tmp"; "previews"; "t"] (makedirs ["tmp"; "previews"; "t"] root_disk).2)
    as (fs' & H1 & H2 & _);
    [reflexivity|exact fresh_directory_empty|reflexivity|reflexivity|].
  exists fs'. split; [exact H1|].
  apply (H2 "/styles/main.css" "body{}"). simpl. tauto.
Defined.

(** ** From the generated files to the disk of the preview *)

Lemma write_files_all (files : list FileCode) (zf : list member) :
  forallb (fun f => file_entry (archive_name f)) files = true ->
  write_files zf files
  = Some (zf ++ List.map (fun f => (archive_name f, code f)) files).
Proof.
  revert zf. induction files as [|f files IH]; intros zf H.
  - rewrite app_nil_r. reflexivity.
  - cbn [forallb] in H. apply andb_true_iff in H. destruct H as [Hf H].
    cbn [write_files]. unfold writestr. fold (archive_name f).
    unfold file_entry in Hf.
    destruct (arcname_parts (archive_name f)); [discriminate|].
    destruct (last_char (archive_name f)); [|discriminate].
    rewrite (IH _ H), <- app_assoc. reflexivity.
Qed.

Lemma create_preview_created
    (w : World) (zip_data : archive) (base_url : string) (now : Z) (st : State)
    (fs1 fs2 : filesystem) (port : Z) (pid : nat) :
  lock st = false ->
  makedirs (create_preview_directory (uuid4 w)) (disk st) = (true, fs1) ->
  extract_zip_to_directory zip_data (create_preview_directory (uuid4 w)) fs1 = (true, fs2) ->
  path_exists fs2 (create_preview_directory (uuid4 w) // "package.json") = false ->
  find_available_port w 3000 = Some port ->
  popen w (find_static_files fs2 (create_preview_directory (uuid4 w))) port = Some pid ->
  exists st',
    returns (create_preview w zip_data base_url now) st
      (Created (mkPreviewInfo (base_url +:+ "/preview/" +:+ uuid4 w) (uuid4 w)
                              (now + 600) port)) st' /\
    disk st' = fs2 /\ lock st' = false /\
    previews st' !! uuid4 w
      = Some (mkPreview (create_preview_directory (uuid4 w)) port pid (now + 600) now).
Proof.
  intros Hl Hmk Hex Hpkg Hport Hpopen.
  eexists. split.
  - unfold create_preview.
    eapply returns_bind; [apply returns_Do_Ret|]. cbn beta. rewrite Hmk. cbn [fst snd negb].
    eapply returns_bind; [apply returns_Do_Ret|]. cbn beta.
    cbn [disk set_disk]. rewrite Hex. cbn [fst snd negb].
    eapply returns_bind; [apply returns_Do_Ret|]. cbn beta. cbn [disk set_disk].
    unfold install_dependencies. rewrite Hpkg. cbn [negb fst snd].
    eapply returns_bind; [apply returns_Do_Ret|]. cbn beta. cbn [disk set_disk].
    unfold build_project. rewrite Hpkg. cbn [negb fst snd].
    rewrite Hport.
    eapply returns_bind; [apply returns_Do_Ret|]. cbn beta.
    unfold start_preview_server. cbn [disk set_disk]. rewrite Hpopen. cbn [fst snd].
    eapply returns_bind; [apply register_preview_free; exact Hl|].
    apply returns_Ret.
  - cbn. rewrite lookup_insert_eq. split; [reflexivity|]. split; [exact Hl|reflexivity].
Qed.

Lemma extracted_absent (target : Path) (done : list member) (fs : filesystem) (name : string) :
  canonical target = true ->
  String.eqb name ".." = false ->
  extracted target done fs ->
  (forall n c, In (n, c) done -> is_under (arcname_parts n) [name] = false) ->
  path_exists fs (target ++ [name]) = false.
Proof.
  intros Hc Hn E Hno. unfold path_exists, stat.
  rewrite (walk_into fs target target name (ex_walk _ _ _ E) (ex_target _ _ _ E) Hn).
  destruct (fs (target ++ [name])) as [[c|]|] eqn:Hf; [| |reflexivity]; exfalso.
  - destruct (ex_only_files _ _ _ E [name] c ltac:(discriminate) Hf) as [n [Hin Hparts]].
    specialize (Hno n c Hin). rewrite <- Hparts in Hno.
    unfold is_under in Hno. rewrite relative_to_refl in Hno. discriminate.
  - destruct (ex_only_dirs _ _ _ E [name] ltac:(discriminate) Hf) as [n [c [a [Hin [_ Hparts]]]]].
    specialize (Hno n c Hin).
    assert (is_under (arcname_parts n) [name] = true) by (apply is_under_iff; eauto).
    congruence.
Qed.

Lemma existsb_map_lower (files : list FileCode) :
  existsb (fun f => contains (lower (filepath f)) "index.html") files = false ->
  existsb (fun fp => contains fp "index.html")
          (List.map (fun f => lower (filepath f)) files) = false.
Proof.
  induction files as [|f files IH]; [reflexivity|].
  cbn [existsb List.map]. intros H. apply orb_false_iff in H. destruct H as [H1 H2].
  rewrite H1, (IH H2). reflexivity.
Qed.

Lemma in_members (files : list FileCode) (n c : string) :
  In (n, c) (List.map (fun f => (archive_name f, code f)) files) ->
  exists f, In f files /\ n = archive_name f /\ c = code f.
Proof.
  intros Hin. apply in_map_iff in Hin. destruct Hin as [f [[= <- <-] Hf]].
  exists f. tauto.
Qed.

Lemma fallback_is_added (files : list FileCode) :
  existsb (fun f => contains (lower (filepath f)) "index.html") files = false ->
  In (mkFileCode "index.html" fallback_page) (downloader_agent files).1.
Proof.
  intros Hnone. unfold downloader_agent. cbn [fst].
  rewrite existsb_map_lower by exact Hnone. cbn [negb].
  apply in_or_app. right. left. reflexivity.
Qed.

(** The generated files go through the downloader and the preview
    server: the archive holds them under their names, the creation
    succeeds, and the disk of the preview is the unpacked archive. *)
Lemma provisioned_run
    (w : World) (PREVIEW_BASE_URL : option string) (files : list FileCode)
    (now : Z) (st : State) (fs1 : filesystem) (port : Z) :
  lock st = false ->
  uuid4 w <> ".." ->
  makedirs (create_preview_directory (uuid4 w)) (disk st) = (true, fs1) ->
  empty_dir fs1 (create_preview_directory (uuid4 w)) ->
  forallb (fun f => file_entry (archive_name f)) (downloader_agent files).1 = true ->
  no_clash (List.map site_path (downloader_agent files).1) = true ->
  forallb (fun f => negb (is_under (site_path f) ["package.json"]))
          (downloader_agent files).1 = true ->
  find_available_port w 3000 = Some port ->
  (forall static_dir, popen w static_dir port <> None) ->
  exists pid st',
    (downloader_agent files).2
      = Some (List.map (fun f => (archive_name f, code f)) (downloader_agent files).1) /\
    returns (preview_server_agent w PREVIEW_BASE_URL
               (Some (Some (List.map (fun f => (archive_name f, code f))
                                     (downloader_agent files).1))) now) st
            (Created (mkPreviewInfo
                        (default "http://localhost:8000" PREVIEW_BASE_URL
                           +:+ "/preview/" +:+ uuid4 w)
                        (uuid4 w) (now + 600) port)) st' /\
    extracted (create_preview_directory (uuid4 w))
              (List.map (fun f => (archive_name f, code f)) (downloader_agent files).1)
              (disk st') /\
    lock st' = false /\
    previews st' !! uuid4 w
      = Some (mkPreview (create_preview_directory (uuid4 w)) port pid (now + 600) now).
Proof.
  intros Hl Htok Hmk He Hfile Hno Hpkg Hport Hpopen.
  set (dir := create_preview_directory (uuid4 w)) in *.
  set (files' := (downloader_agent files).1) in *.
  set (members := List.map (fun f => (archive_name f, code f)) files').
  assert (Hc : canonical dir = true) by (apply canonical_preview_directory; exact Htok).
  assert (Hzip : (downloader_agent files).2 = Some members).
  { unfold downloader_agent. cbn [snd]. rewrite write_files_all; [reflexivity|exact Hfile]. }
  assert (Hfile' : forallb (fun m : member => file_entry m.1) members = true).
  { unfold members. rewrite forallb_forall in *. intros m Hm.
    apply in_map_iff in Hm. destruct Hm as [f [<- Hf]]. apply (Hfile f Hf). }
  assert (Hno' : no_clash (List.map (fun m : member => arcname_parts m.1) members) = true).
  { unfold members. rewrite map_map. exact Hno. }
  destruct (extraction_round_trip_run members dir fs1 Hc He Hfile' Hno')
    as (fs2 & Hex & _ & _ & E).
  assert (Hnopkg : path_exists fs2 (dir // "package.json") = false).
  { change (dir // "package.json") with (dir ++ ["package.json"]).
    apply (extracted_absent dir members fs2 "package.json" Hc eq_refl E).
    intros n c Hin. destruct (in_members _ _ _ Hin) as [f [Hf [-> _]]].
    rewrite forallb_forall in Hpkg. specialize (Hpkg f Hf).
    apply negb_true_iff in Hpkg. exact Hpkg. }
  destruct (popen w (find_static_files fs2 dir) port) as [pid|] eqn:Hp;
    [|exfalso; apply (Hpopen _ Hp)].
  destruct (create_preview_created w (Some members)
              (default "http://localhost:8000" PREVIEW_BASE_URL) now st fs1 fs2 port pid
              Hl Hmk Hex Hnopkg Hport Hp) as (st' & Hrun & Hdisk & Hl' & Hreg).
  exists pid, st'. rewrite Hdisk.
  split; [exact Hzip|]. split; [exact Hrun|]. split; [exact E|].
  split; [exact Hl'|exact Hreg].
Qed.

(** X13: the generated files, archived by the downloader and unpacked by
    the preview server, are on the disk of the preview at their paths. *)
Theorem generated_files_are_provisioned
    (w : World) (PREVIEW_BASE_URL : option string) (files : list FileCode)
    (now : Z) (st : State) (fs1 : filesystem) (port : Z) :
  lock st = false ->
  uuid4 w <> ".." ->
  makedirs (create_preview_directory (uuid4 w)) (disk st) = (true, fs1) ->
  empty_dir fs1 (create_preview_directory (uuid4 w)) ->
  forallb (fun f => file_entry (archive_name f)) (downloader_agent files).1 = true ->
  no_clash (List.map site_path (downloader_agent files).1) = true ->
  forallb (fun f => negb (is_under (site_path f) ["package.json"]))
          (downloader_agent files).1 = true ->
  find_available_port w 3000 = Some port ->
  (forall static_dir, popen w static_dir port <> None) ->
  exists members info st',
    (downloader_agent files).2 = Some members /\
    returns (preview_server_agent w PREVIEW_BASE_URL (Some (Some members)) now) st
            (Created info) st' /\
    preview_token info = uuid4 w /\
    is_Some (previews st' !! uuid4 w) /\
    (forall f, In f (downloader_agent files).1 ->
       read_text (disk st') (create_preview_directory (uuid4 w) ++ site_path f)
       = Some (code f)) /\
    (existsb (fun f => contains (lower (filepath f)) "index.html") files = false ->
     read_text (disk st') (create_preview_directory (uuid4 w) ++ ["index.html"])
     = Some fallback_page) /\
    (forall p c, is_under p (create_preview_directory (uuid4 w)) = true ->
       disk st' p = Some (File c) ->
       exists f, In f (downloader_agent files).1 /\
                 p = create_preview_directory (uuid4 w) ++ site_path f /\ c = code f).
Proof.
  intros Hl Htok Hmk He Hfile Hno Hpkg Hport Hpopen.
  destruct (provisioned_run w PREVIEW_BASE_URL files now st fs1 port
              Hl Htok Hmk He Hfile Hno Hpkg Hport Hpopen)
    as (pid & st' & Hzip & Hrun & E & _ & Hreg).
  set (dir := create_preview_directory (uuid4 w)) in *.
  set (files' := (downloader_agent files).1) in *.
  eexists _, _, st'.
  split; [exact Hzip|]. split; [exact Hrun|]. split; [reflexivity|].
  split; [rewrite Hreg; eexists; reflexivity|].
  split; [|split].
  - intros f Hf. apply (extracted_read dir _ (disk st') (archive_name f) (code f) E).
    apply (in_map (fun f => (archive_name f, code f)) files' f Hf).
  - intros Hnone.
    apply (extracted_read dir _ (disk st') "index.html" fallback_page E).
    apply (in_map (fun f => (archive_name f, code f)) files'
             (mkFileCode "index.html" fallback_page)).
    apply fallback_is_added. exact Hnone.
  - intros p c Hu Hf. apply is_under_iff in Hu. destruct Hu as [r ->].
    destruct r as [|x r].
    + rewrite app_nil_r, (ex_target _ _ _ E) in Hf. discriminate.
    + destruct (ex_only_files _ _ _ E (x :: r) c ltac:(discriminate) Hf) as [n [Hin Hn]].
      destruct (in_members _ _ _ Hin) as [f [Hf' [-> ->]]].
      exists f. split; [exact Hf'|]. split; [rewrite Hn; reflexivity|reflexivity].
Qed.

Lemma generated_files_are_provisioned_witness :
  exists members info st',
    (downloader_agent generated_files).2 = Some members /\
    returns (preview_server_agent demo_world None (Some (Some members)) 5) empty_state
            (Created info) st' /\
    read_text (disk st') (create_preview_directory (uuid4 demo_world) ++ ["index.html"])
    = Some fallback_page.
Proof.
  destruct (generated_files_are_provisioned demo_world None generated_files 5 empty_state
              (makedirs ["tmp"; "previews"; "t"] root_disk).2 3002)
    as (members & info & st' & H1 & H2 & _ & _ & _ & H3 & _);
    [reflexivity|discriminate|reflexivity|exact fresh_directory_empty
    |reflexivity|reflexivity|reflexivity|reflexivity|intros; discriminate|].
  exists members, info, st'. split; [exact H1|]. split; [exact H2|].
  apply H3. reflexivity.
Defined.

(** ** From the generated files to the answers of the endpoint *)

Lemma filter_parts_canonical (l : list string) :
  canonical (List.filter keep_part l) = true ->
  List.filter valid_part l = List.filter keep_part l.
Proof.
  induction l as [|x l IH]; [reflexivity|].
  cbn [List.filter]. unfold valid_part at 1. fold (keep_part x).
  destruct (keep_part x); cbn [andb]; [|exact IH].
  intros Hc. change (x :: List.filter keep_part l) with ([x] ++ List.filter keep_part l) in Hc.
  rewrite canonical_app in Hc. apply andb_true_iff in Hc. destruct Hc as [Hx Hl].
  unfold canonical in Hx. cbn [forallb] in Hx. rewrite andb_true_r in Hx.
  rewrite Hx, (IH Hl). reflexivity.
Qed.

Lemma arcname_parts_canonical (s : string) :
  canonical (parse_parts s) = true -> arcname_parts s = parse_parts s.
Proof. apply filter_parts_canonical. Qed.

Lemma until_nul_lstrip (s : string) :
  until_nul s = s -> until_nul (lstrip_slash s) = lstrip_slash s.
Proof.
  induction s as [|c s IH]; [reflexivity|].
  cbn [until_nul lstrip_slash]. destruct (Ascii.eqb c "000") eqn:E0; [discriminate|].
  intros [= H]. destruct (Ascii.eqb c "/"); [exact (IH H)|].
  cbn [until_nul]. rewrite E0, H. reflexivity.
Qed.

Lemma until_nul_contains (s : string) : until_nul s = s -> contains s NUL = false.
Proof.
  induction s as [|c s IH]; [reflexivity|].
  cbn [until_nul]. destruct (Ascii.eqb c "000") eqn:E0; [discriminate|].
  intros [= H]. cbn [contains]. rewrite (IH H), orb_false_r.
  unfold NUL. cbn [startswith]. rewrite Ascii.eqb_sym, E0. reflexivity.
Qed.

Lemma not_root_request (file_path : string) :
  parse_parts (lstrip_slash file_path) <> [] ->
  String.eqb file_path "" || String.eqb file_path "/" = false.
Proof.
  intros H.
  destruct (String.eqb_spec file_path "") as [->|_]; [contradiction H; reflexivity|].
  destruct (String.eqb_spec file_path "/") as [->|_]; [contradiction H; reflexivity|].
  reflexivity.
Qed.

Lemma extracted_static (target : Path) (done : list member) (fs : filesystem) :
  canonical target = true ->
  extracted target done fs ->
  (forall sub n c, In sub ["dist"; "build"; "out"; "public"] -> In (n, c) done ->
                   is_under (arcname_parts n) [sub] = false) ->
  find_static_dir fs target = target.
Proof.
  intros Hc E Hno.
  assert (Hsub : forall sub, In sub ["dist"; "build"; "out"; "public"] ->
                             is_dir fs (target ++ [sub]) = false).
  { intros sub Hin.
    assert (Hdd : String.eqb sub ".." = false)
      by (simpl in Hin; destruct Hin as [<-|[<-|[<-|[<-|[]]]]]; reflexivity).
    pose proof (extracted_absent target done fs sub Hc Hdd E
                  (fun n c Hnc => Hno sub n c Hin Hnc)) as Hp.
    unfold path_exists in Hp. unfold is_dir.
    destruct (stat fs (target ++ [sub])); [discriminate|reflexivity]. }
  rewrite find_static_dir_priority. unfold serving_root_by_priority, entry_directory.
  rewrite !Hsub by (simpl; tauto). cbn [andb].
  destruct (contains_entry_page fs target); reflexivity.
Qed.

(** X14: the generated files are what the preview serves: each file at
    its path with its code and the type of its extension, and the page
    at the root as the entry page: read as UTF-8 text and rewritten, or,
    were its bytes not UTF-8, as the file. *)
Theorem generated_files_are_served
    (w : World) (PREVIEW_BASE_URL : option string) (files : list FileCode)
    (now : Z) (st : State) (fs1 : filesystem) (port : Z) :
  lock st = false ->
  uuid4 w <> ".." ->
  makedirs (create_preview_directory (uuid4 w)) (disk st) = (true, fs1) ->
  empty_dir fs1 (create_preview_directory (uuid4 w)) ->
  forallb (fun f => file_entry (archive_name f)) (downloader_agent files).1 = true ->
  no_clash (List.map site_path (downloader_agent files).1) = true ->
  forallb (fun f => negb (is_under (site_path f) ["package.json"]))
          (downloader_agent files).1 = true ->
  find_available_port w 3000 = Some port ->
  (forall static_dir, popen w static_dir port <> None) ->
  (forall sub f, In sub ["dist"; "build"; "out"; "public"] ->
                 In f (downloader_agent files).1 ->
                 is_under (site_path f) [sub] = false) ->
  exists members info st',
    (downloader_agent files).2 = Some members /\
    returns (preview_server_agent w PREVIEW_BASE_URL (Some (Some members)) now) st
            (Created info) st' /\
    (forall f now',
       In f (downloader_agent files).1 ->
       until_nul (filepath f) = filepath f ->
       canonical (parse_parts (lstrip_slash (filepath f))) = true ->
       now' < now + 600 ->
       returns (serve_preview w (uuid4 w) (filepath f) now') st'
               (FileResponse (create_preview_directory (uuid4 w) ++ site_path f)
                  (get_mime_type (create_preview_directory (uuid4 w) ++ site_path f)))
               st' /\
       response_body (disk st')
         (FileResponse (create_preview_directory (uuid4 w) ++ site_path f)
            (get_mime_type (create_preview_directory (uuid4 w) ++ site_path f)))
       = Some (code f)) /\
    (forall f now',
       In f (downloader_agent files).1 ->
       site_path f = ["index.html"] ->
       now' < now + 600 ->
       returns (serve_preview w (uuid4 w) "" now') st'
               (match decode_text (code f) with
                | Some page => HTMLResponse (rewrite_html (uuid4 w) page) "text/html"
                | None =>
                    FileResponse (create_preview_directory (uuid4 w) ++ ["index.html"])
                                 "text/html"
                end) st') /\
    (existsb (fun f => contains (lower (filepath f)) "index.html") files = false ->
     In (mkFileCode "index.html" fallback_page) (downloader_agent files).1).
Proof.
  intros Hl Htok Hmk He Hfile Hno Hpkg Hport Hpopen Htop.
  destruct (provisioned_run w PREVIEW_BASE_URL files now st fs1 port
              Hl Htok Hmk He Hfile Hno Hpkg Hport Hpopen)
    as (pid & st' & Hzip & Hrun & E & Hl' & Hreg).
  set (dir := create_preview_directory (uuid4 w)) in *.
  set (files' := (downloader_agent files).1) in *.
  assert (Hc : canonical dir = true) by (apply canonical_preview_directory; exact Htok).
  assert (Hstatic : find_static_dir (disk st') dir = dir).
  { apply (extracted_static dir _ (disk st') Hc E).
    intros sub n c Hin Hnc. destruct (in_members _ _ _ Hnc) as [f [Hf [-> _]]].
    apply (Htop sub f Hin Hf). }
  assert (Hread : forall f, In f files' ->
                            read_text (disk st') (dir ++ site_path f) = Some (code f)).
  { intros f Hf. apply (extracted_read dir _ (disk st') (archive_name f) (code f) E).
    apply (in_map (fun f => (archive_name f, code f)) files' f Hf). }
  eexists _, _, st'.
  split; [exact Hzip|]. split; [exact Hrun|]. split; [|split].
  - intros f now' Hf Hnul Hcan Hlt.
    assert (Hparts : parse_parts (lstrip_slash (filepath f)) = site_path f).
    { unfold site_path, archive_name. rewrite (until_nul_lstrip _ Hnul).
      symmetry. apply arcname_parts_canonical. exact Hcan. }
    assert (Hne : site_path f <> []).
    { rewrite forallb_forall in Hfile. specialize (Hfile f Hf).
      apply file_entry_spec in Hfile. tauto. }
    pose proof (serve_preview_live w (uuid4 w) (filepath f) _ now' st' Hl' Hreg Hlt) as Hs.
    cbn [path] in Hs. fold dir in Hs.
    assert (Hans : serve_files w (disk st') (uuid4 w) dir (filepath f)
                   = (FileResponse (dir ++ site_path f) (get_mime_type (dir ++ site_path f)),
                      disk st')).
    { unfold serve_files. rewrite Hstatic.
      rewrite not_root_request by (rewrite Hparts; exact Hne).
      destruct (serve_file_canonical (disk st') dir dir (filepath f) Hcan
                  (until_nul_contains _ Hnul)) as (_ & H & _).
      rewrite Hparts in H. rewrite H; [reflexivity|].
      apply (read_text_is_file _ _ _ (Hread f Hf)). }
    rewrite Hans in Hs. cbn [fst snd] in Hs. rewrite set_disk_same in Hs.
    split; [exact Hs|]. cbn [response_body]. apply (Hread f Hf).
  - intros f now' Hf Hidx Hlt.
    pose proof (serve_preview_live w (uuid4 w) "" _ now' st' Hl' Hreg Hlt) as Hs.
    cbn [path] in Hs. fold dir in Hs.
    assert (Hpage : read_text (disk st') (dir ++ ["index.html"]) = Some (code f)).
    { rewrite <- Hidx. apply (Hread f Hf). }
    assert (Hans : serve_files w (disk st') (uuid4 w) dir ""
                   = (match decode_text (code f) with
                      | Some page => HTMLResponse (rewrite_html (uuid4 w) page) "text/html"
                      | None => FileResponse (dir ++ ["index.html"]) "text/html"
                      end, disk st')).
    { unfold serve_files. cbn [String.eqb orb]. rewrite Hstatic. unfold serve_index.
      cbn [app].
      rewrite (find_index_file_head (disk st') dir _ (read_text_is_file _ _ _ Hpage)).
      unfold read_text_utf8. rewrite Hpage, mime_of_index_html.
      destruct (decode_text (code f)); reflexivity. }
    rewrite Hans in Hs. cbn [fst snd] in Hs. rewrite set_disk_same in Hs. exact Hs.
  - apply fallback_is_added.
Qed.

Lemma generated_files_are_served_witness :
  exists members info st',
    (downloader_agent generated_files).2 = Some members /\
    returns (preview_server_agent demo_world None (Some (Some members)) 5) empty_state
            (Created info) st' /\
    returns (serve_preview demo_world (uuid4 demo_world) "" 6) st'
            (HTMLResponse (rewrite_html (uuid4 demo_world) fallback_page) "text/html") st'.
Proof.
  destruct (generated_files_are_served demo_world None generated_files 5 empty_state
              (makedirs ["tmp"; "previews"; "t"] root_disk).2 3002)
    as (members & info & st' & H1 & H2 & _ & H3 & H4);
    [reflexivity|discriminate|reflexivity|exact fresh_directory_empty
    |reflexivity|reflexivity|reflexivity|reflexivity|intros; discriminate| |].
  - intros sub f Hsub Hf. simpl in Hsub, Hf.
    destruct Hsub as [<-|[<-|[<-|[<-|[]]]]]; destruct Hf as [<-|[<-|[<-|[]]]]; reflexivity.
  - exists members, info, st'. split; [exact H1|]. split; [exact H2|].
    pose proof (H3 (mkFileCode "index.html" fallback_page) 6 (H4 eq_refl) eq_refl
                  ltac:(lia)) as H5.
    cbn [code] in H5.
    replace (decode_text fallback_page) with (Some fallback_page) in H5
      by (vm_compute; reflexivity).
    exact H5.
Defined.

(** ** What a call leaves when it returns *)

Lemma get_preview_returns
    (token : string) (now : Z) (st : State) (r : option Preview) (st' : State) :
  lock st = false ->
  returns (get_preview token now) st r st' ->
  st' = st /\ r = previews st !! token /\
  (forall pv, r = Some pv -> now < expires_at pv).
Proof.
  intros Hl Hr.
  destruct (previews st !! token) as [pv|] eqn:Hp.
  - destruct (Z_lt_le_dec now (expires_at pv)) as [Hlt|Hle].
    + destruct (returns_fun _ _ _ _ _ _ Hr (get_preview_live token pv now st Hl Hp Hlt))
        as [-> ->].
      split; [reflexivity|]. split; [reflexivity|]. intros pv' [= <-]. exact Hlt.
    + exfalso. apply (hangs_not_returns _ _ _ _ (get_preview_expired token pv now st Hl Hp Hle) Hr).
  - destruct (returns_fun _ _ _ _ _ _ Hr (get_preview_absent token now st Hl Hp))
      as [-> ->].
    split; [reflexivity|]. split; [reflexivity|]. intros pv' [=].
Qed.

(** X2: a lookup that returns gives the entry as registered, never an
    expired one, and changes nothing. *)
Theorem get_preview_sound
    (token : string) (now : Z) (st : State) (r : option Preview) (st' : State) :
  lock st = false ->
  returns (get_preview token now) st r st' ->
  st' = st /\ r = previews st !! token /\
  (forall pv, r = Some pv -> now < expires_at pv).
Proof. apply get_preview_returns. Qed.

Lemma get_preview_sound_witness :
  returns (get_preview "t" 10) demo_state (Some demo_preview) demo_state /\
  10 < expires_at demo_preview.
Proof.
  assert (H : returns (get_preview "t" 10) demo_state (Some demo_preview) demo_state)
    by (exists 4%nat; reflexivity).
  split; [exact H|].
  destruct (get_preview_sound "t" 10 demo_state (Some demo_preview) demo_state eq_refl H)
    as (_ & _ & H3).
  apply (H3 demo_preview eq_refl).
Defined.

Lemma stop_preview_lock (token : string) (now : Z) (st : State) (r : bool) (st' : State) :
  lock st = false -> returns (stop_preview token now) st r st' -> lock st' = false.
Proof.
  intros Hl Hr.
  destruct (previews st !! token) as [pv|] eqn:Hp.
  - destruct (Z_lt_le_dec now (expires_at pv)) as [Hlt|Hle].
    + destruct (returns_fun _ _ _ _ _ _ Hr (stop_preview_live token pv now st Hl Hp Hlt))
        as [_ ->]. reflexivity.
    + exfalso. refine (hangs_not_returns _ _ _ _ _ Hr).
      unfold stop_preview. apply hangs_bind.
      apply (get_preview_expired token pv now st Hl Hp Hle).
  - destruct (returns_fun _ _ _ _ _ _ Hr (stop_preview_absent token now st Hl Hp))
      as [_ ->]. exact Hl.
Qed.

Lemma serve_preview_absent (w : World) (token file_path : string) (now : Z) (st : State) :
  lock st = false -> previews st !! token = None ->
  returns (serve_preview w token file_path now) st (HTTPException 404) st.
Proof.
  intros Hl Hp. unfold serve_preview.
  eapply returns_bind; [apply (get_preview_absent token now st Hl Hp)|apply returns_Ret].
Qed.

Lemma serve_preview_cases (w : World) (token file_path : string) (now : Z) (st : State)
    (r : response) (st' : State) :
  lock st = false ->
  returns (serve_preview w token file_path now) st r st' ->
  (previews st !! token = None /\ r = HTTPException 404 /\ st' = st) \/
  (exists pv, previews st !! token = Some pv /\ now < expires_at pv /\
              r = (serve_files w (disk st) token (path pv) file_path).1 /\
              st' = set_disk (serve_files w (disk st) token (path pv) file_path).2 st).
Proof.
  intros Hl Hr.
  destruct (previews st !! token) as [pv|] eqn:Hp.
  - destruct (Z_lt_le_dec now (expires_at pv)) as [Hlt|Hle].
    + destruct (returns_fun _ _ _ _ _ _ Hr
                  (serve_preview_live w token file_path pv now st Hl Hp Hlt)) as [-> ->].
      right. exists pv. tauto.
    + exfalso. refine (hangs_not_returns _ _ _ _ _ Hr).
      unfold serve_preview. apply hangs_bind.
      apply (get_preview_expired token pv now st Hl Hp Hle).
  - destruct (returns_fun _ _ _ _ _ _ Hr (serve_preview_absent w token file_path now st Hl Hp))
      as [-> ->].
    left. tauto.
Qed.

(** X7: no call keeps the lock: when a method of the manager, a handler
    or a creation returns, the lock is free again. *)
Theorem lock_is_released (st : State) :
  lock st = false ->
  (forall token preview_dir port pid now st',
     returns (register_preview token preview_dir port pid now) st tt st' ->
     lock st' = false) /\
  (forall token now r st',
     returns (get_preview token now) st r st' -> lock st' = false) /\
  (forall token now r st',
     returns (stop_preview token now) st r st' -> lock st' = false) /\
  (forall now st', returns (cleanup_expired now) st tt st' -> lock st' = false) /\
  (forall isoformat now r st',
     returns (get_all_previews isoformat now) st r st' -> lock st' = false) /\
  (forall w token file_path now r st',
     returns (serve_preview w token file_path now) st r st' -> lock st' = false) /\
  (forall token now r st',
     returns (stop_preview_endpoint token now) st r st' -> lock st' = false) /\
  (forall w zip_data base_url now r st',
     returns (create_preview w zip_data base_url now) st r st' -> lock st' = false).
Proof.
  intros Hl. repeat apply conj.
  - intros token preview_dir port pid now st' Hr.
    destruct (returns_fun _ _ _ _ _ _ Hr
                (register_preview_free token preview_dir port pid now st Hl)) as [_ ->].
    exact Hl.
  - intros token now r st' Hr.
    destruct (get_preview_returns token now st r st' Hl Hr) as [-> _]. exact Hl.
  - intros token now r st' Hr. apply (stop_preview_lock token now st r st' Hl Hr).
  - intros now st' Hr.
    destruct (cleanup_expired_run now st Hl) as (st1 & Hrun & Hl1 & _).
    destruct (returns_fun _ _ _ _ _ _ Hr Hrun) as [_ ->]. exact Hl1.
  - intros isoformat now r st' Hr.
    destruct (get_all_previews_run isoformat now st Hl) as (st1 & Hrun & _ & Hl1 & _).
    destruct (returns_fun _ _ _ _ _ _ Hr Hrun) as [_ ->]. exact Hl1.
  - intros w token file_path now r st' Hr.
    destruct (serve_preview_cases w token file_path now st r st' Hl Hr)
      as [(_ & _ & ->)|(pv & _ & _ & _ & ->)]; exact Hl.
  - intros token now r st' Hr.
    destruct (previews st !! token) as [pv|] eqn:Hp.
    + destruct (Z_lt_le_dec now (expires_at pv)) as [Hlt|Hle].
      * assert (H : returns (stop_preview_endpoint token now) st Stopped
                            (torn_down token pv st)).
        { unfold stop_preview_endpoint.
          eapply returns_bind; [apply (stop_preview_live token pv now st Hl Hp Hlt)|].
          apply returns_Ret. }
        destruct (returns_fun _ _ _ _ _ _ Hr H) as [_ ->]. reflexivity.
      * exfalso. refine (hangs_not_returns _ _ _ _ _ Hr).
        unfold stop_preview_endpoint, stop_preview. apply hangs_bind, hangs_bind.
        apply (get_preview_expired token pv now st Hl Hp Hle).
    + assert (H : returns (stop_preview_endpoint token now) st StopNotFound st).
      { unfold stop_preview_endpoint.
        eapply returns_bind; [apply (stop_preview_absent token now st Hl Hp)|].
        apply returns_Ret. }
      destruct (returns_fun _ _ _ _ _ _ Hr H) as [_ ->]. exact Hl.
  - intros w zip_data base_url now r st' Hr.
    destruct (create_preview_run w zip_data base_url now st Hl) as (r1 & st1 & Hrun & Hl1 & _).
    destruct (returns_fun _ _ _ _ _ _ Hr Hrun) as [_ ->]. exact Hl1.
Qed.

Lemma lock_is_released_witness :
  returns (stop_preview "t" 10) demo_state true (torn_down "t" demo_preview demo_state) /\
  lock (torn_down "t" demo_preview demo_state) = false.
Proof.
  assert (H : returns (stop_preview "t" 10) demo_state true
                      (torn_down "t" demo_preview demo_state))
    by (apply stop_preview_live; [reflexivity|reflexivity|reflexivity]).
  split; [exact H|].
  destruct (lock_is_released demo_state eq_refl) as (_ & _ & Hstop & _).
  apply (Hstop "t" 10 true _ H).
Defined.

(** ** The registry and the machine *)

Lemma around_not_under (t k : string) (p : Path) :
  k <> t ->
  is_under p (create_preview_directory t) = true \/
  is_under (create_preview_directory t) p = true ->
  is_under p (create_preview_directory k) = false.
Proof.
  intros Hne Hp.
  destruct (is_under p (create_preview_directory k)) eqn:E; [|reflexivity].
  exfalso. apply is_under_iff in E. destruct E as [r ->].
  unfold create_preview_directory, PREVIEW_BASE_DIR in Hp. cbn [app] in Hp.
  destruct Hp as [Hp|Hp]; apply is_under_iff in Hp; destruct Hp as [r' Hr'];
    cbn [app] in Hr'.
  - inversion Hr'. congruence.
  - destruct r as [|x r]; cbn [app] in Hr'; inversion Hr'. congruence.
Qed.

Lemma is_dir_around (d : Path) (fs fs' : filesystem) :
  canonical d = true -> agree_around d fs fs' -> is_dir fs d = is_dir fs' d.
Proof.
  intros Hd Ha. pose proof (is_dir_agree d fs fs' Hd Ha [] eq_refl) as H.
  rewrite app_nil_r in H. exact H.
Qed.

Lemma write_text_keeps_dirs (fs fs' : filesystem) (p : Path) (c : string) (d : Path) :
  write_text fs p c = Some fs' -> is_dir fs d = true -> is_dir fs' d = true.
Proof.
  intros Hw Hd. destruct (write_text_stat _ _ _ _ Hw) as (q & _ & Hq & _ & Hstat).
  unfold is_dir in *. rewrite Hstat. unfold stat in Hd.
  destruct (walk fs [] d) as [q'|]; [|discriminate].
  destruct (fs q') as [[|]|] eqn:E; try discriminate.
  unfold path_eqb. rewrite bool_decide_eq_false_2 by congruence. reflexivity.
Qed.

Lemma serve_files_disk (w : World) (fs : filesystem) (token : string)
    (preview_dir : Path) (file_path : string) :
  (serve_files w fs token preview_dir file_path).2 = fs \/
  exists p c, write_text fs p c = Some (serve_files w fs token preview_dir file_path).2.
Proof.
  unfold serve_files.
  destruct (String.eqb file_path "" || String.eqb file_path "/"); [|left; reflexivity].
  unfold serve_index.
  destruct (find_index_file fs _) as [index_path|].
  - destruct (read_text_utf8 fs index_path); left; reflexivity.
  - destruct (path_exists fs (preview_dir // "package.json")
              || path_exists fs (preview_dir // "src")); [|left; reflexivity].
    match goal with
    | |- context [write_text fs ?p ?c] => destruct (write_text fs p c) as [fs'|] eqn:Hw
    end; [|left; reflexivity].
    right. eexists _, _. exact Hw.
Qed.

Lemma consistent_torn_down (token : string) (pv : Preview) (st : State) :
  consistent st -> previews st !! token = Some pv -> consistent (torn_down token pv st).
Proof.
  intros [Hc Hd] Hp. destruct (Hc token pv Hp) as (Hpath & Htok & _ & _).
  split.
  - intros t2 pv2 H2. simpl in H2.
    destruct (decide (t2 = token)) as [->|Hne]; [rewrite lookup_delete_eq in H2; discriminate|].
    rewrite lookup_delete_ne in H2 by congruence.
    destruct (Hc t2 pv2 H2) as (Hpath2 & Htok2 & Hdir2 & Halive2).
    split; [exact Hpath2|]. split; [exact Htok2|]. split.
    + rewrite <- Hdir2. rewrite Hpath2. apply is_dir_around.
      * apply canonical_preview_directory. exact Htok2.
      * simpl. destruct (path_exists (disk st) (path pv)); [|intros p _; reflexivity].
        rewrite Hpath. apply rmtree_agree_around; assumption.
    + simpl. apply elem_of_difference. split; [exact Halive2|].
      pose proof (Hd t2 token pv2 pv H2 Hp Hne). set_solver.
  - intros t1 t2 pv1 pv2 H1 H2 Hne. simpl in H1, H2.
    destruct (decide (t1 = token)) as [->|N1]; [rewrite lookup_delete_eq in H1; discriminate|].
    destruct (decide (t2 = token)) as [->|N2]; [rewrite lookup_delete_eq in H2; discriminate|].
    rewrite lookup_delete_ne in H1, H2 by congruence.
    apply (Hd t1 t2 pv1 pv2 H1 H2 Hne).
Qed.

Lemma consistent_swept (t : Z) (st st' : State) :
  consistent st ->
  previews st' = filter (fun kv => t < expires_at kv.2) (previews st) ->
  (forall n, n ∈ alive st' <->
             n ∈ alive st /\
             forall k pv, previews st !! k = Some pv -> expires_at pv <= t ->
                          process pv <> n) ->
  (forall p, (forall k pv, previews st !! k = Some pv -> expires_at pv <= t ->
                           is_under p (resolve (path pv)) = false) ->
             disk st' p = disk st p) ->
  consistent st'.
Proof.
  intros [Hc Hd] Hp Ha Hf. split.
  - intros t2 pv2 H2. rewrite Hp in H2. apply map_lookup_filter_Some in H2.
    destruct H2 as [H2 Hlive]. simpl in Hlive.
    destruct (Hc t2 pv2 H2) as (Hpath2 & Htok2 & Hdir2 & Halive2).
    split; [exact Hpath2|]. split; [exact Htok2|]. split.
    + rewrite <- Hdir2. rewrite Hpath2. apply is_dir_around.
      * apply canonical_preview_directory. exact Htok2.
      * intros p Hu. apply Hf. intros k pv Hk Hle.
        destruct (Hc k pv Hk) as (Hpathk & Htokk & _ & _).
        rewrite Hpathk, (canonical_resolve _ (canonical_preview_directory k Htokk)).
        apply (around_not_under t2 k p); [|exact Hu].
        intros ->. rewrite Hk in H2. inversion H2; subst pv2. lia.
    + apply Ha. split; [exact Halive2|]. intros k pv Hk Hle.
      apply (Hd k t2 pv pv2 Hk H2). intros ->. rewrite Hk in H2. inversion H2; subst pv2. lia.
  - intros t1 t2 pv1 pv2 H1 H2 Hne. rewrite Hp in H1, H2.
    apply map_lookup_filter_Some in H1, H2.
    apply (Hd t1 t2 pv1 pv2 (proj1 H1) (proj1 H2) Hne).
Qed.

Lemma consistent_served (w : World) (token file_path : string) (pv : Preview) (st : State) :
  consistent st ->
  consistent (set_disk (serve_files w (disk st) token (path pv) file_path).2 st).
Proof.
  intros [Hc Hd]. split; [|exact Hd].
  intros t2 pv2 H2. simpl in H2. destruct (Hc t2 pv2 H2) as (Hpath2 & Htok2 & Hdir2 & Halive2).
  split; [exact Hpath2|]. split; [exact Htok2|]. split; [|exact Halive2].
  cbn [disk set_disk].
  destruct (serve_files_disk w (disk st) token (path pv) file_path) as [->|[p [c Hw]]];
    [exact Hdir2|].
  apply (write_text_keeps_dirs _ _ _ _ _ Hw Hdir2).
Qed.

(** X8: the registry and the machine stay fitted: after a stop, a
    sweep, a listing, a request or a registration every preview still
    has its directory and its own running process. *)
Theorem registry_stays_consistent (st : State) :
  consistent st ->
  lock st = false ->
  (forall token now r st',
     returns (stop_preview token now) st r st' -> consistent st') /\
  (forall now st', returns (cleanup_expired now) st tt st' -> consistent st') /\
  (forall isoformat now r st',
     returns (get_all_previews isoformat now) st r st' -> consistent st') /\
  (forall w token file_path now r st',
     returns (serve_preview w token file_path now) st r st' -> consistent st') /\
  (forall token port pid now st',
     token <> ".." ->
     is_dir (disk st) (create_preview_directory token) = true ->
     pid ∈ alive st ->
     (forall t pv, previews st !! t = Some pv -> process pv <> pid) ->
     returns (register_preview token (create_preview_directory token) port pid now)
             st tt st' ->
     consistent st').
Proof.
  intros Hcons Hl. repeat apply conj.
  - intros token now r st' Hr.
    destruct (previews st !! token) as [pv|] eqn:Hp.
    + destruct (Z_lt_le_dec now (expires_at pv)) as [Hlt|Hle].
      * destruct (returns_fun _ _ _ _ _ _ Hr (stop_preview_live token pv now st Hl Hp Hlt))
          as [_ ->].
        apply consistent_torn_down; assumption.
      * exfalso. refine (hangs_not_returns _ _ _ _ _ Hr).
        unfold stop_preview. apply hangs_bind.
        apply (get_preview_expired token pv now st Hl Hp Hle).
    + destruct (returns_fun _ _ _ _ _ _ Hr (stop_preview_absent token now st Hl Hp))
        as [_ ->]. exact Hcons.
  - intros now st' Hr.
    destruct (cleanup_expired_run now st Hl) as (st1 & Hrun & _ & Hp & _ & Ha & Hf).
    destruct (returns_fun _ _ _ _ _ _ Hr Hrun) as [_ ->].
    apply (consistent_swept now st st1 Hcons Hp Ha Hf).
  - intros isoformat now r st' Hr.
    destruct (cleanup_expired_run now st Hl) as (st1 & Hrun & Hl1 & Hp & _ & Ha & Hf).
    assert (Hrun' : returns (get_all_previews isoformat now) st
                            (summary isoformat <$> previews st1) st1).
    { unfold get_all_previews. eapply returns_bind; [exact Hrun|].
      apply (list_previews isoformat st1 Hl1). }
    destruct (returns_fun _ _ _ _ _ _ Hr Hrun') as [_ ->].
    apply (consistent_swept now st st1 Hcons Hp Ha Hf).
  - intros w token file_path now r st' Hr.
    destruct (serve_preview_cases w token file_path now st r st' Hl Hr)
      as [(_ & _ & ->)|(pv & _ & _ & _ & ->)]; [exact Hcons|].
    apply consistent_served. exact Hcons.
  - intros token port pid now st' Htok Hdir Hpid Hfresh Hr.
    destruct (returns_fun _ _ _ _ _ _ Hr
                (register_preview_free token (create_preview_directory token) port pid now
                   st Hl)) as [_ ->].
    destruct Hcons as [Hc Hd]. split.
    + intros t2 pv2 H2. cbn [previews set_previews disk alive] in *.
      destruct (decide (t2 = token)) as [->|Hne].
      * rewrite lookup_insert_eq in H2. inversion H2; subst pv2. cbn. tauto.
      * rewrite lookup_insert_ne in H2 by congruence. apply (Hc t2 pv2 H2).
    + intros t1 t2 pv1 pv2 H1 H2 Hne. cbn [previews set_previews] in *.
      destruct (decide (t1 = token)) as [->|N1]; destruct (decide (t2 = token)) as [->|N2];
        try congruence.
      * rewrite lookup_insert_eq in H1. rewrite lookup_insert_ne in H2 by congruence.
        inversion H1; subst pv1. cbn. intros E. apply (Hfresh t2 pv2 H2). congruence.
      * rewrite lookup_insert_eq in H2. rewrite lookup_insert_ne in H1 by congruence.
        inversion H2; subst pv2. cbn. apply (Hfresh t1 pv1 H1).
      * rewrite lookup_insert_ne in H1, H2 by congruence. apply (Hd t1 t2 pv1 pv2 H1 H2 Hne).
Qed.

Lemma consistent_demo : consistent demo_state.
Proof.
  split.
  - intros t pv H. unfold demo_state in H. cbn [previews] in H.
    apply lookup_singleton_Some in H. destruct H as [<- <-].
    split; [reflexivity|]. split; [discriminate|]. split; [reflexivity|].
    cbn. set_solver.
  - intros t1 t2 pv1 pv2 H1 H2 Hne. unfold demo_state in H1, H2. cbn [previews] in H1, H2.
    apply lookup_singleton_Some in H1, H2. destruct H1 as [<- _], H2 as [<- _].
    contradiction.
Qed.

Lemma registry_stays_consistent_witness :
  returns (stop_preview "t" 10) demo_state true (torn_down "t" demo_preview demo_state) /\
  consistent (torn_down "t" demo_preview demo_state).
Proof.
  assert (H : returns (stop_preview "t" 10) demo_state true
                      (torn_down "t" demo_preview demo_state))
    by (apply stop_preview_live; [reflexivity|reflexivity|reflexivity]).
  split; [exact H|].
  destruct (registry_stays_consistent demo_state consistent_demo eq_refl) as (Hstop & _).
  apply (Hstop "t" 10 true _ H).
Defined.

(** ** What the rewrite changes, on any page *)

Section Sound.
Context {R : Type}.

Lemma greedy_sound (c : ascii -> bool) (s acc : list ascii)
    (k : list ascii -> list ascii -> option R) (r : R) :
  greedy c acc s k = Some r ->
  exists m rest, s = m ++ rest /\ forallb c m = true /\ k (acc ++ m) rest = Some r.
Proof.
  revert acc. induction s as [|x s IH]; intros acc H; cbn [greedy] in H.
  - exists [], []. split; [reflexivity|]. split; [reflexivity|].
    rewrite app_nil_r. exact H.
  - destruct (c x) eqn:Hx.
    + destruct (greedy c (acc ++ [x]) s k) as [r'|] eqn:G.
      * inversion H; subst r'. destruct (IH _ G) as (m & rest & -> & Hm & Hk).
        exists (x :: m), rest. split; [reflexivity|]. split.
        -- cbn [forallb]. rewrite Hx, Hm. reflexivity.
        -- rewrite <- app_assoc in Hk. exact Hk.
      * exists [], (x :: s). split; [reflexivity|]. split; [reflexivity|].
        rewrite app_nil_r. exact H.
    + exists [], (x :: s). split; [reflexivity|]. split; [reflexivity|].
      rewrite app_nil_r. exact H.
Qed.

Lemma match_atoms_sound (ats : list atom) (acc s : list ascii)
    (k : list ascii -> list ascii -> option R) (r : R) :
  match_atoms ats acc s k = Some r ->
  exists m rest, s = m ++ rest /\ atoms_match ats m /\ k (acc ++ m) rest = Some r.
Proof.
  revert acc s. induction ats as [|a ats IH]; intros acc s H; cbn [match_atoms] in H.
  - exists [], s. rewrite app_nil_r. split; [reflexivity|]. split; [constructor|exact H].
  - destruct a as [l|c|c|c].
    + destruct (strip_lit l s) as [s'|] eqn:E; [|discriminate].
      apply strip_lit_Some in E. subst s.
      destruct (IH _ _ H) as (m & rest & -> & Hm & Hk).
      exists (l ++ m), rest.
      split; [rewrite <- app_assoc; reflexivity|].
      split; [constructor; exact Hm|].
      replace (acc ++ l ++ m) with ((acc ++ l) ++ m) by (rewrite <- app_assoc; reflexivity).
      exact Hk.
    + destruct s as [|x s]; [discriminate|]. destruct (c x) eqn:Hx; [|discriminate].
      destruct (IH _ _ H) as (m & rest & -> & Hm & Hk).
      exists (x :: m), rest. split; [reflexivity|].
      split; [constructor; assumption|].
      replace (acc ++ x :: m) with ((acc ++ [x]) ++ m) by (rewrite <- app_assoc; reflexivity).
      exact Hk.
    + destruct s as [|x s]; [discriminate|]. destruct (c x) eqn:Hx; [|discriminate].
      destruct (greedy_sound _ _ _ _ _ H) as (g & rest0 & -> & Hg & Hk0).
      destruct (IH _ _ Hk0) as (m & rest & -> & Hm & Hk).
      exists (x :: g ++ m), rest.
      split; [cbn [app]; rewrite <- app_assoc; reflexivity|].
      split; [constructor; assumption|].
      replace (acc ++ x :: g ++ m) with (((acc ++ [x]) ++ g) ++ m)
        by (rewrite <- !app_assoc; reflexivity).
      exact Hk.
    + destruct (greedy_sound _ _ _ _ _ H) as (g & rest0 & -> & Hg & Hk0).
      destruct (IH _ _ Hk0) as (m & rest & -> & Hm & Hk).
      exists (g ++ m), rest.
      split; [rewrite <- app_assoc; reflexivity|].
      split; [constructor; assumption|].
      replace (acc ++ g ++ m) with ((acc ++ g) ++ m) by (rewrite <- app_assoc; reflexivity).
      exact Hk.
Qed.

End Sound.

(** A match of a reference pattern: the three groups, by their shape. *)
Lemma match_ref_sound (tag attr : string) (s : list ascii)
    (caps : list (list ascii)) (rest : list ascii) :
  match_at (ref_pattern tag attr) s = Some (caps, rest) ->
  exists attrs q1 v q2 tail,
    attrs <> [] /\ forallb not_gt attrs = true /\
    is_quote q1 = true /\ is_quote q2 = true /\
    v <> [] /\ forallb not_quote v = true /\
    forallb not_gt tail = true /\
    caps = [lit tag ++ attrs ++ lit attr ++ [q1]; v; q2 :: tail ++ lit ">"] /\
    s = (lit tag ++ attrs ++ lit attr ++ [q1]) ++ v ++ (q2 :: tail ++ lit ">") ++ rest.
Proof.
  unfold match_at, ref_pattern. rewrite match_groups_cons. intros H.
  destruct (match_atoms_sound _ _ _ _ _ H) as (g1 & r1 & -> & M1 & H1).
  cbn [app] in H1. rewrite match_groups_cons in H1.
  destruct (match_atoms_sound _ _ _ _ _ H1) as (g2 & r2 & -> & M2 & H2).
  cbn [app] in H2. rewrite match_groups_cons in H2.
  destruct (match_atoms_sound _ _ _ _ _ H2) as (g3 & r3 & -> & M3 & H3).
  cbn [app match_groups] in H3. inversion H3; subst caps rest. clear H3 H2 H1 H.
  inversion M1 as [|la atsa ma Ma| | |]; subst. clear M1.
  inversion Ma as [| | |cb atsb x r mb Hx Hr Mb|]; subst. clear Ma.
  inversion Mb as [|lc atsc mc Mc| | |]; subst. clear Mb.
  inversion Mc as [| |cd atsd q1 md Hq1 Md| |]; subst. clear Mc.
  inversion Md; subst. clear Md.
  inversion M2 as [| | |ce atse y v' me Hy Hv Me|]; subst. clear M2.
  inversion Me; subst. clear Me.
  inversion M3 as [| |cf atsf q2 mf Hq2 Mf| |]; subst. clear M3.
  inversion Mf as [| | | |cg atsg t mg Ht Mg]; subst. clear Mf.
  inversion Mg as [|lh atsh mh Mh| | |]; subst. clear Mg.
  inversion Mh; subst. clear Mh.
  rewrite !app_nil_r. exists (x :: r), q1, (y :: v'), q2, t.
  split; [discriminate|]. split; [cbn [forallb]; rewrite Hx, Hr; reflexivity|].
  split; [exact Hq1|]. split; [exact Hq2|]. split; [discriminate|].
  split; [cbn [forallb]; rewrite Hy, Hv; reflexivity|].
  split; [exact Ht|].
  split; reflexivity.
Qed.

Lemma re_sub_cons_none (pat : pattern) (repl : list (list ascii) -> list ascii)
    (x : ascii) (s : list ascii) :
  match_at pat (x :: s) = None ->
  re_sub pat repl (x :: s) = x :: re_sub pat repl s.
Proof. intros H. unfold re_sub. cbn [sub_from]. rewrite H. reflexivity. Qed.

Local Ltac flatten := repeat (progress (cbn [app]; rewrite <- ?app_assoc)).

Lemma one_pass_sub (tag attr token : string) (n : nat) (s : list ascii) :
  (length s <= n)%nat ->
  one_pass tag attr token s (re_sub (ref_pattern tag attr) (rewrite_ref token) s).
Proof.
  revert s. induction n as [|n IH]; intros s Hn.
  - destruct s; [constructor|simpl in Hn; lia].
  - destruct s as [|x s]; [constructor|].
    destruct (match_at (ref_pattern tag attr) (x :: s)) as [[caps rest]|] eqn:Hm.
    + destruct (match_ref_sound _ _ _ _ _ Hm)
        as (attrs & q1 & v & q2 & tail & Ha & Hng & Hq1 & Hq2 & Hv & Hnq & Ht & -> & Hs).
      assert (Hlen : (length rest <= n)%nat).
      { apply (f_equal length) in Hs. rewrite !length_app in Hs. simpl in Hs, Hn. lia. }
      assert (Hex : exists vs, v = lit vs).
      { exists (String.string_of_list_ascii v). unfold lit.
        rewrite String.list_ascii_of_string_of_list_ascii. reflexivity. }
      destruct Hex as [vs ->].
      set (m := (lit tag ++ attrs ++ lit attr ++ [q1]) ++ lit vs ++ q2 :: tail ++ lit ">").
      assert (E : x :: s = m ++ rest) by (rewrite Hs; unfold m; flatten; reflexivity).
      assert (Hne : m <> []).
      { intros E0. apply (f_equal length) in E0. unfold m in E0.
        rewrite !length_app in E0. simpl in E0. lia. }
      rewrite E in Hm |- *.
      rewrite (re_sub_match _ _ m rest _ Hne Hm), rewrite_ref_value.
      match goal with
      | |- one_pass _ _ _ _ (?a ++ ?b) =>
          replace (a ++ b)
            with (lit tag ++ attrs ++ lit attr ++ q1 :: lit (rewritten_value token vs)
                    ++ q2 :: tail ++ lit ">" ++ b)
            by (flatten; reflexivity)
      end.
      replace (m ++ rest)
        with (lit tag ++ attrs ++ lit attr ++ q1 :: lit vs ++ q2 :: tail ++ lit ">" ++ rest)
        by (unfold m; flatten; reflexivity).
      apply op_ref; try assumption.
      * intros ->. apply Hv. reflexivity.
      * apply IH. exact Hlen.
    + rewrite (re_sub_cons_none _ _ _ _ Hm). constructor. apply IH. simpl in Hn. lia.
Qed.

(** X19: on any page, each of the two passes keeps the text as it is
    except for the values of the references it matches, and each such
    value is replaced by the value [rewritten_value] gives. *)
Theorem rewrite_changes_reference_values_only (token page : string) :
  exists c1,
    one_pass "<link" "href=" token (lit page) c1 /\
    one_pass "<script" "src=" token c1 (lit (rewrite_html token page)).
Proof.
  exists (re_sub link_pattern (rewrite_link token) (lit page)).
  split.
  - apply (one_pass_sub "<link" "href=" token (length (lit page))). lia.
  - unfold rewrite_html. unfold lit at 2.
    rewrite String.list_ascii_of_string_of_list_ascii.
    apply (one_pass_sub "<script" "src=" token
             (length (re_sub link_pattern (rewrite_link token) (lit page)))). lia.
Qed.
